(** * The streaming response clients of zchat: [LMStudioAPI] and [OpenRouterAPI]

    A shallow embedding of [src/lib/lmstudio.ts] and [src/lib/openrouter.ts]:
    the two asynchronous generators [sendMessage], their wrappers
    [getSimpleResponse], the probe [isAvailable], the catalogs [getModels],
    [getUsage] and the requests the cloud client issues; of
    [src/lib/settings.ts], where the cloud client finds its key; and of
    [getAIResponse] in [src/pages/ChatPage.tsx], which calls the clients.

    - JavaScript strings are sequences of UTF-16 code units ([jsstring]).
    - JavaScript values coming out of [JSON.parse] are the inductive [value];
      [undefined] is the [None] of [option value].
    - An asynchronous generator is run against a finite world (what [fetch]
      answers, which chunks the body reader delivers and how it ends); the run
      is the ordered trace of its effects (fragments yielded, requests sent,
      instance fields assigned) together with its completion (normal,
      [return], or a thrown error).
    - The platform is a parameter: [JSON.parse], [fetch], the settings
      collaborator and the page origin make up a [World].  A body chunk
      stands for its decoded text; console output is not part of a run. *)

From Stdlib Require Import List NArith ZArith Bool String Ascii Lia.
From Stdlib Require Import DecimalString.
Import ListNotations.
Local Open Scope N_scope.
Local Open Scope list_scope.

Set Implicit Arguments.
Set Warnings "-register-all".

(* ================================================================== *)
(** ** JavaScript strings *)

Definition code_unit := N.
Definition jsstring := list code_unit.

(** The string literal ['...'] of the source. *)
Definition js (s : string) : jsstring :=
  map N_of_ascii (list_ascii_of_string s).

(** JSON text written with ['] in place of the double quote (code unit 34),
    so that wire payloads stay readable. *)
Definition jsq (s : string) : jsstring :=
  map (fun c => if c =? 39 then 34 else c) (js s).

Definition LF : code_unit := 10.

Fixpoint jsstring_eqb (a b : jsstring) : bool :=
  match a, b with
  | [], [] => true
  | x :: a', y :: b' => (x =? y) && jsstring_eqb a' b'
  | _, _ => false
  end.

(** [`${n}`] for a non-negative integer. *)
Definition decimal (n : N) : jsstring :=
  js (NilEmpty.string_of_uint (N.to_uint n)).

(** [s.startsWith(p)] *)
Fixpoint startsWith (s p : jsstring) {struct p} : bool :=
  match p, s with
  | [], _ => true
  | y :: p', x :: s' => (x =? y) && startsWith s' p'
  | _ :: _, [] => false
  end.

(** [s.slice(n)] for a non-negative [n]. *)
Definition slice (n : nat) (s : jsstring) : jsstring := skipn n s.

(** [s.split(sep)] for a separator of one code unit: never the empty list. *)
Fixpoint split (sep : code_unit) (s : jsstring) : list jsstring :=
  match s with
  | [] => [[]]
  | c :: s' =>
      if c =? sep then [] :: split sep s'
      else match split sep s' with
           | l :: ls => (c :: l) :: ls
           | [] => [[c]]
           end
  end.

(** ECMAScript WhiteSpace and LineTerminator code points, the set stripped by
    [String.prototype.trim]. *)
Definition is_trim_space (c : code_unit) : bool :=
  (c =? 9) || (c =? 10) || (c =? 11) || (c =? 12) || (c =? 13) || (c =? 32)
  || (c =? 160) || (c =? 5760) || ((8192 <=? c) && (c <=? 8202))
  || (c =? 8232) || (c =? 8233) || (c =? 8239) || (c =? 8287)
  || (c =? 12288) || (c =? 65279).

Fixpoint trimStart (s : jsstring) : jsstring :=
  match s with
  | c :: s' => if is_trim_space c then trimStart s' else s
  | [] => []
  end.

Definition trimEnd (s : jsstring) : jsstring := rev (trimStart (rev s)).

(** [s.trim()] *)
Definition trim (s : jsstring) : jsstring := trimEnd (trimStart s).

(* ================================================================== *)
(** ** JavaScript values *)

(** A number literal denotes [mantissa * 10 ^ exponent]; JavaScript keeps the
    nearest IEEE double.  The clients only ever test a number for truthiness,
    which depends on whether that double is zero. *)
Record number := { mantissa : Z; exponent : Z }.

(** The nearest double is [0] exactly when the literal is at most [2^-1075] in
    magnitude (half the least subnormal; the tie rounds to even). *)
Definition number_is_zero (n : number) : bool :=
  ((mantissa n =? 0)
   || ((exponent n <? 0)
       && (Z.abs (mantissa n) * 2 ^ 1075 <=? 10 ^ (- exponent n))))%Z.

(** What [JSON.parse] can return.  An object keeps its members in source
    order; a repeated key is read at its last occurrence. *)
Inductive value :=
| JNull
| JBool (b : bool)
| JNumber (n : number)
| JString (s : jsstring)
| JArray (elements : list value)
| JObject (members : list (jsstring * value)).

(** [!!v] for [v : option value], [None] being [undefined]. *)
Definition truthy (o : option value) : bool :=
  match o with
  | None => false
  | Some JNull => false
  | Some (JBool b) => b
  | Some (JNumber n) => negb (number_is_zero n)
  | Some (JString s) => match s with [] => false | _ :: _ => true end
  | Some (JArray _) => true
  | Some (JObject _) => true
  end.

Fixpoint lookup_last (k : jsstring) (ms : list (jsstring * value))
  : option value :=
  match ms with
  | [] => None
  | (k', v) :: ms' =>
      match lookup_last k ms' with
      | Some w => Some w
      | None => if jsstring_eqb k' k then Some v else None
      end
  end.

(** [v.k] on a value that is neither [null] nor [undefined], for the keys the
    clients read ([choices], [delta], [message], [content], [data], [id],
    [name], [pricing], [context_length]): none of them is inherited from a
    prototype, so only objects answer. *)
Definition prop (k : jsstring) (v : value) : option value :=
  match v with
  | JObject ms => lookup_last k ms
  | _ => None
  end.

(** [v[0]] on a value that is neither [null] nor [undefined]. *)
Definition index0 (v : value) : option value :=
  match v with
  | JArray (x :: _) => Some x
  | JString (c :: _) => Some (JString [c])
  | JObject ms => lookup_last (js "0") ms
  | _ => None
  end.

(** Optional chaining [o?.f]: [undefined] when [o] is [null] or [undefined]. *)
Definition opt (f : value -> option value) (o : option value) : option value :=
  match o with
  | None => None
  | Some JNull => None
  | Some v => f v
  end.

(* ================================================================== *)
(** ** Errors, promises and the platform objects *)

Inductive exn :=
| JsError (message : jsstring)   (* new Error(message) *)
| TypeError                      (* property read on null *)
| SyntaxError                    (* JSON.parse / response.json() *)
| Failure (reason : jsstring).   (* a rejection by the platform: network, abort *)

(** The settled state of an awaited promise. *)
Inductive promise (A : Type) :=
| Resolved (a : A)
| Rejected (e : exn).
Arguments Rejected {A} e.

Inductive role := user | assistant | system.

Record Message := {
  id : jsstring;
  chat_id : jsstring;
  msg_role : role;
  msg_content : jsstring;
  created_at : jsstring
}.

Record Turn := { role_ : role; content : jsstring }.

(** The object handed to [JSON.stringify] for the request body. *)
Record ChatBody := {
  model : jsstring;
  messages : list Turn;
  temperature : number;
  max_tokens : number;
  stream : bool
}.

Inductive http_method := GET | POST.

Record request := {
  url : jsstring;
  method : http_method;
  headers : list (jsstring * jsstring);
  signal_timeout : option N;      (* AbortSignal.timeout(ms) *)
  body : option ChatBody
}.

(** How a body stream ends: [read()] answers [done], or rejects. *)
Inductive stream_end := Closed | Errored (e : exn).

(** What the reader of [response.body] delivers: each chunk stands for its
    decoded text [decoder.decode(value)], then the end. *)
Record ReadableStream := { chunks : list jsstring; ending : stream_end }.

Record Response := {
  ok : bool;
  status : N;
  statusText : jsstring;
  response_body : option ReadableStream;   (* null when there is no body *)
  text : promise jsstring;                 (* await response.text() *)
  json : promise value                     (* await response.json() *)
}.

Record Options := {
  opt_temperature : option number;
  opt_maxTokens : option number;
  opt_stream : option bool
}.

Definition no_options : Options :=
  {| opt_temperature := None; opt_maxTokens := None; opt_stream := None |}.

Definition default {A} (d : A) (o : option A) : A :=
  match o with Some a => a | None => d end.

(* ================================================================== *)
(** ** Running asynchronous code: traces and completions *)

(** The observable effects, in the order they happen; [S] is the type of the
    instance fields. *)
Inductive event (S : Type) :=
| Yielded (fragment : value)     (* yield fragment *)
| Requested (r : request)        (* fetch(url, init) was called *)
| Stored (this : S).             (* an instance field was assigned *)
Arguments Yielded {S} fragment.
Arguments Requested {S} r.

(** How a block of statements completes. *)
Inductive completion (A : Type) :=
| Normal (a : A)
| Return                         (* the generator's [return;] *)
| Throw (e : exn).
Arguments Return {A}.
Arguments Throw {A} e.

Record Run (S A : Type) := mkRun {
  trace : list (event S);
  outcome : completion A;
  final : S                      (* the instance fields afterwards *)
}.

(** A computation over the instance [this : S]. *)
Definition M (S A : Type) := S -> Run S A.

Module Import Async.

Definition ret {S A} (a : A) : M S A :=
fun this => mkRun [] (Normal a) this.

Definition bind {S A B} (m : M S A) (k : A -> M S B) : M S B :=
fun this =>
  let r := m this in
  match outcome r with
  | Normal a =>
      let r' := k a (final r) in
      mkRun (trace r ++ trace r') (outcome r') (final r')
  | Return => mkRun (trace r) Return (final r)
  | Throw e => mkRun (trace r) (Throw e) (final r)
  end.

Definition yield {S} (v : value) : M S unit :=
fun this => mkRun [Yielded v] (Normal tt) this.

Definition throw {S A} (e : exn) : M S A :=
fun this => mkRun [] (Throw e) this.

Definition return_ {S A} : M S A :=
fun this => mkRun [] Return this.

(** [await p] *)
Definition await {S A} (p : promise A) : M S A :=
match p with
| Resolved a => ret a
| Rejected e => throw e
end.

(** [try { m } catch (error) { h error }] *)
Definition try_catch {S A} (m : M S A) (h : exn -> M S A) : M S A :=
fun this =>
  let r := m this in
  match outcome r with
  | Throw e =>
      let r' := h e (final r) in
      mkRun (trace r ++ trace r') (outcome r') (final r')
  | _ => r
  end.

(** [try { m } finally { f }]: [f] runs however [m] completes, and the
  completion of [m] stands unless [f] itself is abrupt. *)
Definition try_finally {S A} (m : M S A) (f : M S unit) : M S A :=
fun this =>
  let r := m this in
  let r' := f (final r) in
  match outcome r' with
  | Normal _ => mkRun (trace r ++ trace r') (outcome r) (final r')
  | Return => mkRun (trace r ++ trace r') Return (final r')
  | Throw e => mkRun (trace r ++ trace r') (Throw e) (final r')
  end.

Definition get {S} : M S S := fun this => mkRun [] (Normal this) this.

Definition put {S} (s : S) : M S unit :=
fun _ => mkRun [Stored s] (Normal tt) s.

(** [for (const x of xs) { body x }] *)
Fixpoint for_of {S A} (xs : list A) (body : A -> M S unit) : M S unit :=
match xs with
| [] => ret tt
| x :: xs' => bind (body x) (fun _ => for_of xs' body)
end.

End Async.

Notation "x <- m ;; k" := (bind m (fun x => k))
  (at level 61, m at next level, right associativity).
Notation "m ;; k" := (bind m (fun _ => k))
  (at level 61, right associativity).

(** The fragments a consumer of the generator receives, in order. *)
Fixpoint fragments {S} (t : list (event S)) : list value :=
  match t with
  | [] => []
  | Yielded v :: t' => v :: fragments t'
  | _ :: t' => fragments t'
  end.

(** The requests sent, in order. *)
Fixpoint requests {S} (t : list (event S)) : list request :=
  match t with
  | [] => []
  | Requested r :: t' => r :: requests t'
  | _ :: t' => requests t'
  end.

(** The generator finished without an error escaping it. *)
Definition ends_normally {S A} (r : Run S A) : Prop :=
  match outcome r with
  | Throw _ => False
  | _ => True
  end.

(** *** Pulling one item: [generator.next()] on a fresh generator *)

(** The effects up to and including the first [yield], and the value yielded
    there, if any: the generator is suspended at that point. *)
Fixpoint upto_first_yield {S} (t : list (event S))
  : list (event S) * option value :=
  match t with
  | [] => ([], None)
  | Yielded v :: _ => ([Yielded v], Some v)
  | e :: t' => let (p, o) := upto_first_yield t' in (e :: p, o)
  end.

(** The instance fields after the assignments of a trace. *)
Fixpoint stored {S} (this : S) (t : list (event S)) : S :=
  match t with
  | [] => this
  | Stored s :: t' => stored s t'
  | _ :: t' => stored this t'
  end.

(** [(await generator.next()).value]: [None] is the [undefined] of a finished
    generator; an error thrown before the first [yield] rejects. *)
Definition next {S} (generator : M S unit) : M S (option value) :=
  fun this =>
    let r := generator this in
    match upto_first_yield (trace r) with
    | (p, Some v) => mkRun p (Normal (Some v)) (stored this p)
    | (p, None) =>
        match outcome r with
        | Throw e => mkRun p (Throw e) (final r)
        | _ => mkRun p (Normal None) (final r)
        end
    end.

(* ================================================================== *)
(** ** The world the clients run in *)

Record World := {
  JSON_parse : jsstring -> option value;   (* None: SyntaxError *)
  fetch : request -> promise Response;
  getOpenRouterApiKey : promise jsstring;  (* the settings collaborator *)
  location_origin : jsstring               (* window.location.origin *)
}.

Section Platform.
Variable w : World.
Variable S : Type.

(** [await fetch(url, init)] *)
Definition fetch_ (r : request) : M S Response :=
  fun this =>
    mkRun [Requested r]
          match fetch w r with
          | Resolved a => Normal a
          | Rejected e => Throw e
          end
          this.

(** [JSON.parse(data)] *)
Definition JSON_parse_ (data : jsstring) : M S value :=
  match JSON_parse w data with
  | Some v => ret v
  | None => throw SyntaxError
  end.

(** [v.k] where [v] came out of [JSON.parse]: a [TypeError] on [null]. *)
Definition dot (k : jsstring) (v : value) : M S (option value) :=
  match v with
  | JNull => throw TypeError
  | _ => ret (prop k v)
  end.

(** [if (content) { yield content; }] *)
Definition yield_if_truthy (content : option value) : M S unit :=
  match content with
  | Some v => if truthy (Some v) then yield v else ret tt
  | None => ret tt
  end.

(** *** The streaming branch

    Lines 83-114 of lmstudio.ts and 116-147 of openrouter.ts are the same
    text; it is embedded once. *)

(** The inner [try { ... } catch (parseError) { }], where [content] is
    [parsed.choices?.[0]?.delta?.content]. *)
Definition on_data (data : jsstring) : M S unit :=
  try_catch
    (parsed <- JSON_parse_ data ;;
     choices <- dot (js "choices") parsed ;;
     let content :=
       opt (prop (js "content")) (opt (prop (js "delta")) (opt index0 choices)) in
     yield_if_truthy content)
    (fun parseError => ret tt).

(** The body of [for (const line of lines)]. *)
Definition on_line (line : jsstring) : M S unit :=
  if startsWith line (js "data: ") then
    let data := trim (slice 6 line) in
    if jsstring_eqb data (js "[DONE]") then return_
    else on_data data
  else ret tt.

(** [while (true) { const { done, value } = await reader.read(); ... }] over
    what the reader still has to deliver. *)
Fixpoint read_loop (rest : list jsstring) (e : stream_end) : M S unit :=
  match rest with
  | [] =>
      match e with
      | Closed => ret tt               (* done: break *)
      | Errored err => throw err       (* read() rejects *)
      end
  | value :: rest' =>
      let chunk := value in            (* decoder.decode(value) *)
      let lines := split LF chunk in
      for_of lines on_line ;;
      read_loop rest' e
  end.

(** [reader.releaseLock()] *)
Definition releaseLock : M S unit := ret tt.

Definition stream_branch (b : ReadableStream) : M S unit :=
  try_finally (read_loop (chunks b) (ending b)) releaseLock.

(** *** The non-streaming branch (lines 116-119 and 149-152)

    [const content = data.choices?.[0]?.message?.content || '';
    yield content;] *)
Definition json_branch (response : Response) : M S unit :=
  data <- await (json response) ;;
  choices <- dot (js "choices") data ;;
  let content :=
    opt (prop (js "content")) (opt (prop (js "message")) (opt index0 choices)) in
  yield (if truthy content then default (JString []) content else JString []).

Definition conversationHistory (msgs : list Message) : list Turn :=
  map (fun msg => {| role_ := msg_role msg; content := msg_content msg |}) msgs.

(** The object literal passed to [JSON.stringify], after the defaults of
    the destructured [options]. *)
Definition chat_body (msgs : list Message) (model : jsstring)
    (options : Options) : ChatBody :=
  {| model := model;
     messages := conversationHistory msgs;
     temperature := default {| mantissa := 7; exponent := -1 |}
                            (opt_temperature options);
     max_tokens := default {| mantissa := 2048; exponent := 0 |}
                           (opt_maxTokens options);
     stream := default true (opt_stream options) |}.

(** The last two statements of [getSimpleResponse], the same in both
    classes: [const result = await generator.next();
    return result.value || 'No response received';]. *)
Definition first_or_sentinel (generator : M S unit) : M S value :=
  result <- next generator ;;
  ret (if truthy result
       then default (JString []) result
       else JString (js "No response received")).

End Platform.

(* ================================================================== *)
(** ** src/lib/lmstudio.ts *)

Module LMStudioAPI.

Record LMStudioAPI := { baseUrl : jsstring }.

Definition apology : jsstring :=
  js "Sorry, I encountered an error while processing your request.".

Section Methods.
Variable w : World.

(** The request of [isAvailable]. *)
Definition probe_request (this : LMStudioAPI) : request :=
  {| url := baseUrl this ++ js "/v1/models";
     method := GET;
     headers := [];
     signal_timeout := Some 5000;    (* 5 second timeout *)
     body := None |}.

Definition isAvailable : M LMStudioAPI bool :=
  this <- get ;;
  try_catch
    (response <- fetch_ w (probe_request this) ;;
     ret (ok response))
    (fun error => ret false).

(** What [getModels] returns for one catalog entry; a property the entry
    lacks is [undefined]. *)
Record LMStudioModel := {
  lm_id : option value;
  lm_name : option value;
  lm_status : jsstring
}.

(** The request of [getModels]: [fetch(url)] with no init. *)
Definition models_request (this : LMStudioAPI) : request :=
  {| url := baseUrl this ++ js "/v1/models";
     method := GET;
     headers := [];
     signal_timeout := None;
     body := None |}.

(** [data.data?.map((model) => ({ id: model.id, name: model.id,
    status: 'available' }))] on an array: a [null] entry makes the callback
    throw. *)
Fixpoint map_models (elements : list value)
  : M LMStudioAPI (list LMStudioModel) :=
  match elements with
  | [] => ret []
  | model :: rest =>
      id <- dot (js "id") model ;;
      ms <- map_models rest ;;
      ret ({| lm_id := id; lm_name := id; lm_status := js "available" |} :: ms)
  end.

Definition getModels : M LMStudioAPI (list LMStudioModel) :=
  this <- get ;;
  try_catch
    (response <- fetch_ w (models_request this) ;;
     (if negb (ok response)
      then throw (JsError (js "HTTP error! status: "
                           ++ decimal (status response)))
      else ret tt) ;;
     data <- await (json response) ;;
     list_ <- dot (js "data") data ;;
     match list_ with
     | None => ret []
     | Some JNull => ret []
     | Some (JArray elements) => map_models elements
     | Some _ => throw TypeError     (* .map is not a function *)
     end)
    (fun error => ret []).

(** The request of [sendMessage]. *)
Definition chat_request (this : LMStudioAPI) (msgs : list Message)
    (model : jsstring) (options : Options) : request :=
  {| url := baseUrl this ++ js "/v1/chat/completions";
     method := POST;
     headers := [(js "Content-Type", js "application/json")];
     signal_timeout := None;
     body := Some (chat_body msgs model options) |}.

Definition sendMessage (msgs : list Message) (model : jsstring)
    (options : Options) : M LMStudioAPI unit :=
  let stream := default true (opt_stream options) in
  this <- get ;;
  try_catch
    (response <- fetch_ w (chat_request this msgs model options) ;;
     (if negb (ok response)
      then throw (JsError (js "LMStudio API error: " ++ statusText response))
      else ret tt) ;;
     match stream, response_body response with
     | true, Some b => stream_branch w b
     | _, _ => json_branch response
     end)
    (fun error => yield (JString apology)).

Definition getSimpleResponse (msgs : list Message) (model : jsstring)
  : M LMStudioAPI value :=
  let generator :=
    sendMessage msgs model
      {| opt_temperature := None; opt_maxTokens := None;
         opt_stream := Some false |} in
  first_or_sentinel generator.

End Methods.
End LMStudioAPI.

(* ================================================================== *)
(** ** src/lib/openrouter.ts *)

Module OpenRouterAPI.

Record OpenRouterAPI := { baseUrl : jsstring; apiKey : jsstring }.

(** [apiKey || OPENROUTER_API_KEY || ''], the absent ones being [None]. *)
Definition constructor (baseUrl : jsstring) (apiKey envKey : option jsstring)
  : OpenRouterAPI :=
  let nonempty o := match o with Some (c :: s) => Some (c :: s) | _ => None end in
  {| baseUrl := baseUrl;
     apiKey := match nonempty apiKey with
               | Some k => k
               | None => default [] (nonempty envKey)
               end |}.

Definition isConfigured (this : OpenRouterAPI) : bool :=
  match apiKey this with [] => false | _ :: _ => true end.

Definition unconfigured : jsstring :=
  js "OpenRouter API key not configured. Please set your API key in the settings.".

Definition apology : jsstring :=
  js "Sorry, I encountered an error while processing your request. Please check your OpenRouter API key and try again.".

Record OpenRouterModel := {
  model_id : option value;
  model_name : option value;
  pricing : option value;
  context_length : option value
}.

Section Methods.
Variable w : World.

(** The block that opens [getModels], [sendMessage] and [getUsage]:
    [if (!this.apiKey) { try { this.apiKey = await getOpenRouterApiKey(); }
    catch (error) { } }]. *)
Definition loadApiKey : M OpenRouterAPI unit :=
  this <- get ;;
  if negb (isConfigured this) then
    try_catch
      (key <- await (getOpenRouterApiKey w) ;;
       put {| baseUrl := baseUrl this; apiKey := key |})
      (fun error => ret tt)
  else ret tt.

Definition bearer (this : OpenRouterAPI) : jsstring * jsstring :=
  (js "Authorization", js "Bearer " ++ apiKey this).

(** The request of [getModels]. *)
Definition models_request (this : OpenRouterAPI) : request :=
  {| url := baseUrl this ++ js "/models";
     method := GET;
     headers := [bearer this];
     signal_timeout := None;
     body := None |}.

(** The request of [getUsage]. *)
Definition usage_request (this : OpenRouterAPI) : request :=
  {| url := baseUrl this ++ js "/auth/key";
     method := GET;
     headers := [bearer this];
     signal_timeout := None;
     body := None |}.

(** [data.data?.map(model => ...) || []]: only an array has [map]; a
    [null] element makes the callback throw. *)
Fixpoint map_models (elements : list value)
  : M OpenRouterAPI (list OpenRouterModel) :=
  match elements with
  | [] => ret []
  | model :: rest =>
      id <- dot (js "id") model ;;
      let name := prop (js "name") model in
      let m := {| model_id := id;
                  model_name := if truthy name then name else id;
                  pricing := prop (js "pricing") model;
                  context_length := prop (js "context_length") model |} in
      ms <- map_models rest ;;
      ret (m :: ms)
  end.

Definition getModels : M OpenRouterAPI (list OpenRouterModel) :=
  loadApiKey ;;
  this <- get ;;
  if negb (isConfigured this) then ret []
  else
    try_catch
      (response <- fetch_ w (models_request this) ;;
       (if negb (ok response)
        then throw (JsError (js "HTTP error! status: "
                             ++ decimal (status response)))
        else ret tt) ;;
       data <- await (json response) ;;
       list_ <- dot (js "data") data ;;
       match list_ with
       | None => ret []
       | Some JNull => ret []
       | Some (JArray elements) => map_models elements
       | Some _ => throw TypeError     (* .map is not a function *)
       end)
      (fun error => ret []).

(** The request of [sendMessage]. *)
Definition chat_request (this : OpenRouterAPI) (msgs : list Message)
    (model : jsstring) (options : Options) : request :=
  {| url := baseUrl this ++ js "/chat/completions";
     method := POST;
     headers := [(js "Content-Type", js "application/json");
                 bearer this;
                 (js "HTTP-Referer", location_origin w);
                 (js "X-Title", js "ZChat")];
     signal_timeout := None;
     body := Some (chat_body msgs model options) |}.

Definition sendMessage (msgs : list Message) (model : jsstring)
    (options : Options) : M OpenRouterAPI unit :=
  loadApiKey ;;
  this <- get ;;
  if negb (isConfigured this) then
    yield (JString unconfigured)
  else
    let stream := default true (opt_stream options) in
    try_catch
      (response <- fetch_ w (chat_request this msgs model options) ;;
       (if negb (ok response)
        then errorText <- await (text response) ;;
             throw (JsError (js "OpenRouter API error: " ++ statusText response
                             ++ js " - " ++ errorText))
        else ret tt) ;;
       match stream, response_body response with
       | true, Some b => stream_branch w b
       | _, _ => json_branch response
       end)
      (fun error => yield (JString apology)).

Definition getSimpleResponse (msgs : list Message) (model : jsstring)
  : M OpenRouterAPI value :=
  let generator :=
    sendMessage msgs model
      {| opt_temperature := None; opt_maxTokens := None;
         opt_stream := Some false |} in
  first_or_sentinel generator.

Definition getUsage : M OpenRouterAPI (option value) :=
  loadApiKey ;;
  this <- get ;;
  if negb (isConfigured this) then ret None
  else
    try_catch
      (response <- fetch_ w (usage_request this) ;;
       if ok response
       then data <- await (json response) ;; ret (Some data)
       else ret None)
      (fun error => ret None).

End Methods.
End OpenRouterAPI.

(* ================================================================== *)
(** ** A reference [JSON.parse]

    The grammar of ECMA-404, used to run the clients on concrete wire text.
    The theorems below hold for every [JSON_parse] a world may provide. *)

Module JSON.

Definition is_ws (c : code_unit) : bool :=
  (c =? 32) || (c =? 9) || (c =? 10) || (c =? 13).

Fixpoint skip_ws (s : jsstring) : jsstring :=
  match s with
  | c :: s' => if is_ws c then skip_ws s' else s
  | [] => []
  end.

Definition hex_digit (c : code_unit) : option N :=
  if (48 <=? c) && (c <=? 57) then Some (c - 48)
  else if (65 <=? c) && (c <=? 70) then Some (c - 55)
  else if (97 <=? c) && (c <=? 102) then Some (c - 87)
  else None.

Definition hex4 (a b c d : code_unit) : option code_unit :=
  match hex_digit a, hex_digit b, hex_digit c, hex_digit d with
  | Some x, Some y, Some z, Some t => Some (((x * 16 + y) * 16 + z) * 16 + t)
  | _, _, _, _ => None
  end.

(** After the opening quote: the characters up to the closing quote. *)
Fixpoint string_body (s acc : jsstring) : option (jsstring * jsstring) :=
  match s with
  | [] => None
  | 34 :: r => Some (rev acc, r)
  | 92 :: e :: r =>
      match e with
      | 34 => string_body r (34 :: acc)
      | 92 => string_body r (92 :: acc)
      | 47 => string_body r (47 :: acc)
      | 98 => string_body r (8 :: acc)
      | 102 => string_body r (12 :: acc)
      | 110 => string_body r (10 :: acc)
      | 114 => string_body r (13 :: acc)
      | 116 => string_body r (9 :: acc)
      | 117 =>
          match r with
          | a :: b :: c :: d :: r' =>
              match hex4 a b c d with
              | Some u => string_body r' (u :: acc)
              | None => None
              end
          | _ => None
          end
      | _ => None
      end
  | c :: r => if c <? 32 then None else string_body r (c :: acc)
  end.

Definition is_digit (c : code_unit) : bool := (48 <=? c) && (c <=? 57).

(** The leading digits of [s], accumulated onto [acc], how many there were,
    and what follows. *)
Fixpoint digits (s : jsstring) (acc : Z) (count : nat) : Z * nat * jsstring :=
  match s with
  | c :: s' =>
      if is_digit c then digits s' (acc * 10 + Z.of_N (c - 48))%Z (Datatypes.S count)
      else (acc, count, s)
  | [] => (acc, count, [])
  end.

Definition int_part (s : jsstring) : option (Z * jsstring) :=
  match s with
  | 48 :: r => Some (0%Z, r)
  | c :: _ =>
      if is_digit c then let '(m, _, r) := digits s 0%Z 0%nat in Some (m, r)
      else None
  | [] => None
  end.

Definition frac_part (m : Z) (s : jsstring) : option (Z * Z * jsstring) :=
  match s with
  | 46 :: r =>
      let '(m', n, r') := digits r m 0%nat in
      match n with
      | O => None
      | _ => Some (m', (- Z.of_nat n)%Z, r')
      end
  | _ => Some (m, 0%Z, s)
  end.

Definition exp_part (s : jsstring) : option (Z * jsstring) :=
  let unsigned sign r :=
    let '(x, n, r') := digits r 0%Z 0%nat in
    match n with
    | O => None
    | _ => Some ((sign * x)%Z, r')
    end in
  match s with
  | 101 :: r | 69 :: r =>
      match r with
      | 43 :: r' => unsigned 1%Z r'
      | 45 :: r' => unsigned (-1)%Z r'
      | _ => unsigned 1%Z r
      end
  | _ => Some (0%Z, s)
  end.

Definition number_ (s : jsstring) : option (number * jsstring) :=
  let '(sign, s1) := match s with 45 :: r => ((-1)%Z, r) | _ => (1%Z, s) end in
  match int_part s1 with
  | None => None
  | Some (m, s2) =>
      match frac_part m s2 with
      | None => None
      | Some (m', e1, s3) =>
          match exp_part s3 with
          | None => None
          | Some (e2, s4) =>
              Some ({| mantissa := (sign * m')%Z; exponent := (e1 + e2)%Z |}, s4)
          end
      end
  end.

Definition literal (word : string) (v : value) (s : jsstring)
  : option (value * jsstring) :=
  if startsWith s (js word) then Some (v, skipn (String.length word) s)
  else None.

Fixpoint value_ (fuel : nat) (s : jsstring) : option (value * jsstring) :=
  match fuel with
  | O => None
  | Datatypes.S fuel =>
      match skip_ws s with
      | 123 :: r =>
          match skip_ws r with
          | 125 :: r' => Some (JObject [], r')
          | r1 => members fuel r1 []
          end
      | 91 :: r =>
          match skip_ws r with
          | 93 :: r' => Some (JArray [], r')
          | r1 => elements fuel r1 []
          end
      | 34 :: r =>
          match string_body r [] with
          | Some (str, r') => Some (JString str, r')
          | None => None
          end
      | 116 :: _ => literal "true" (JBool true) (skip_ws s)
      | 102 :: _ => literal "false" (JBool false) (skip_ws s)
      | 110 :: _ => literal "null" JNull (skip_ws s)
      | s' =>
          match number_ s' with
          | Some (n, r) => Some (JNumber n, r)
          | None => None
          end
      end
  end
with elements (fuel : nat) (s : jsstring) (acc : list value)
  : option (value * jsstring) :=
  match fuel with
  | O => None
  | Datatypes.S fuel =>
      match value_ fuel s with
      | None => None
      | Some (v, r) =>
          match skip_ws r with
          | 44 :: r' => elements fuel r' (v :: acc)
          | 93 :: r' => Some (JArray (rev (v :: acc)), r')
          | _ => None
          end
      end
  end
with members (fuel : nat) (s : jsstring) (acc : list (jsstring * value))
  : option (value * jsstring) :=
  match fuel with
  | O => None
  | Datatypes.S fuel =>
      match skip_ws s with
      | 34 :: r =>
          match string_body r [] with
          | None => None
          | Some (k, r1) =>
              match skip_ws r1 with
              | 58 :: r2 =>
                  match value_ fuel r2 with
                  | None => None
                  | Some (v, r3) =>
                      match skip_ws r3 with
                      | 44 :: r4 => members fuel r4 ((k, v) :: acc)
                      | 125 :: r4 => Some (JObject (rev ((k, v) :: acc)), r4)
                      | _ => None
                      end
                  end
              | _ => None
              end
          end
      | _ => None
      end
  end.

(** [JSON.parse(text)]: one value, surrounded by white space only. *)
Definition parse (text : jsstring) : option value :=
  match value_ (2 * List.length text + 2) text with
  | Some (v, r) => match skip_ws r with [] => Some v | _ :: _ => None end
  | None => None
  end.

End JSON.

(* ================================================================== *)
(** ** The wire format, as the specification words it

    A stream is a sequence of frames: lines [data: <payload>] ended by a
    line feed, the sentinel frame being [data: [DONE]].  Between them a
    server may send lines that are no data frames: the blank line that
    closes an event, a comment, another field. *)

Inductive frame :=
| Data (payload : jsstring)
| Done
| Other (line : jsstring).

Definition frame_line (f : frame) : jsstring :=
  match f with
  | Data p => js "data: " ++ p
  | Done => js "data: [DONE]"
  | Other l => l
  end.

(** The bytes of a frame on the wire. *)
Definition wire (f : frame) : jsstring := frame_line f ++ [LF].

(** The text of a run of whole frames: what one network chunk holds when its
    boundaries fall between frames. *)
Definition wire_all (fs : list frame) : jsstring := List.concat (map wire fs).

(** The incremental text of a parsed payload: [choices[0].delta.content]. *)
Definition delta_content (parsed : value) : option value :=
  opt (prop (js "content"))
      (opt (prop (js "delta")) (opt index0 (prop (js "choices") parsed))).

(** The full text of a non-streaming payload: [choices[0].message.content]. *)
Definition message_content (data : value) : option value :=
  opt (prop (js "content"))
      (opt (prop (js "message")) (opt index0 (prop (js "choices") data))).

(** A content that is there: neither absent, [null], nor empty. *)
Definition present (c : option value) : list value :=
  match c with
  | Some v => if truthy (Some v) then [v] else []
  | None => []
  end.

Section Frames.
Variable w : World.

(** The payload is one line, and is not the sentinel in disguise; a line
    of another kind does not start like a data frame. *)
Definition well_framed (f : frame) : Prop :=
  match f with
  | Data p => ~ In LF p /\ trim p <> js "[DONE]"
  | Done => True
  | Other l => ~ In LF l /\ startsWith l (js "data: ") = false
  end.

(** A valid frame: its payload is one line of JSON. *)
Definition valid (f : frame) : Prop :=
  match f with
  | Data p => ~ In LF p /\ exists parsed, JSON_parse w (trim p) = Some parsed
  | Done => True
  | Other l => ~ In LF l /\ startsWith l (js "data: ") = false
  end.

(** A malformed frame: a data line whose payload is not JSON (and not the
    sentinel either). *)
Definition malformed (f : frame) : Prop :=
  match f with
  | Data p =>
      ~ In LF p /\ trim p <> js "[DONE]" /\ JSON_parse w (trim p) = None
  | Done => False
  | Other _ => False
  end.

Definition is_valid (f : frame) : bool :=
  match f with
  | Data p => match JSON_parse w (trim p) with Some _ => true | None => false end
  | Done => true
  | Other _ => true
  end.

(** The text a frame carries, if any. *)
Definition frame_text (f : frame) : list value :=
  match f with
  | Data p =>
      match JSON_parse w (trim p) with
      | Some parsed => present (delta_content parsed)
      | None => []
      end
  | Done => []
  | Other _ => []
  end.

(** The texts of the frames that come before the first sentinel. *)
Fixpoint texts_until_done (fs : list frame) : list value :=
  match fs with
  | [] => []
  | Done :: _ => []
  | f :: fs' => frame_text f ++ texts_until_done fs'
  end.

Definition is_done (f : frame) : bool :=
  match f with Done => true | _ => false end.

(** The sentinel is not JSON: true of every conforming [JSON.parse]. *)
Definition sentinel_rejected : Prop := JSON_parse w (js "[DONE]") = None.

End Frames.

(** A response whose body streams the given chunks. *)
Definition streams (response : Response) (cs : list jsstring) (e : stream_end)
  : Prop :=
  ok response = true /\
  response_body response = Some {| chunks := cs; ending := e |}.

(** [headers[name]] of a request. *)
Fixpoint header_of (name : jsstring) (hs : list (jsstring * jsstring))
  : option jsstring :=
  match hs with
  | [] => None
  | (k, v) :: hs' => if jsstring_eqb k name then Some v else header_of name hs'
  end.

Definition header (name : jsstring) (r : request) : option jsstring :=
  header_of name (headers r).

(* ================================================================== *)
(** ** Auxiliary notions *)

(** A run after the effects [t]. *)
Definition after {S A} (t : list (event S)) (r : Run S A) : Run S A :=
  mkRun (t ++ trace r) (outcome r) (final r).

(** What the decoding loop yields from the chunks [cs], and whether it met
    the sentinel there: the loop run on its own, with no instance. *)
Definition decoded (w : World) (cs : list jsstring) : list value :=
  fragments (trace (@read_loop w unit cs Closed tt)).

Definition sentinel_seen (w : World) (cs : list jsstring) : bool :=
  match outcome (@read_loop w unit cs Closed tt) with
  | Return => true
  | _ => false
  end.

(** What comes after the decoded fragments: nothing when the sentinel was
    seen or the stream closes, the apology when [read()] rejects. *)
Definition epilogue (apology : jsstring) (seen : bool) (e : stream_end)
  : list value :=
  if seen then []
  else match e with
       | Closed => []
       | Errored _ => [JString apology]
       end.

(** A computation that sends no request, whatever the instance. *)
Definition silent {S A} (m : M S A) : Prop :=
  forall this, requests (trace (m this)) = [].

(* ================================================================== *)
(** ** Mock endpoints, for running the clients *)

(** A response whose body is delivered in the chunks [cs] and ends with [e];
    [text()] and [json()] read the same body. *)
Definition mock_response (ok : bool) (status : N) (statusText : jsstring)
    (cs : list jsstring) (e : stream_end) : Response :=
  {| ok := ok;
     status := status;
     statusText := statusText;
     response_body := Some {| chunks := cs; ending := e |};
     text := match e with
             | Closed => Resolved (List.concat cs)
             | Errored err => Rejected err
             end;
     json := match e with
             | Closed =>
                 match JSON.parse (List.concat cs) with
                 | Some v => Resolved v
                 | None => Rejected SyntaxError
                 end
             | Errored err => Rejected err
             end |}.

(** A world whose endpoint answers every request with [response], and whose
    settings hold the key [stored]. *)
Definition mock_world (response : Response) (stored : promise jsstring) : World :=
  {| JSON_parse := JSON.parse;
     fetch := fun _ => Resolved response;
     getOpenRouterApiKey := stored;
     location_origin := js "http://localhost:5173" |}.

Definition local_client : LMStudioAPI.LMStudioAPI :=
  {| LMStudioAPI.baseUrl := js "http://localhost:1234" |}.

Definition cloud_client : OpenRouterAPI.OpenRouterAPI :=
  OpenRouterAPI.constructor (js "https://openrouter.ai/api/v1")
                            (Some (js "sk-or-test")) None.

(** A cloud client built with no key at all. *)
Definition keyless_client : OpenRouterAPI.OpenRouterAPI :=
  OpenRouterAPI.constructor (js "https://openrouter.ai/api/v1") None None.

Definition hello : list Message :=
  [{| id := js "m1"; chat_id := js "c1"; msg_role := user;
      msg_content := js "Hello"; created_at := js "2025-01-01T00:00:00Z" |}].

(** The frame of one increment of text (plain ASCII, nothing to escape). *)
Definition delta (increment : string) : frame :=
  Data (jsq "{'choices':[{'delta':{'content':'" ++ js increment ++ jsq "'}}]}").

Definition ok_stream (cs : list jsstring) (e : stream_end) : Response :=
  mock_response true 200 (js "OK") cs e.

Definition not_streaming : Options :=
  {| opt_temperature := None; opt_maxTokens := None; opt_stream := Some false |}.

(** The scenario of the specification: two increments, the sentinel, and
    bytes that follow it, over two chunks; a blank line closes each event
    and a comment opens the stream, as the providers send them. *)
Definition hi_there : list (list frame) :=
  [[Other (js ": keep-alive"); Other []; delta "Hi"; Other []];
   [delta " there"; Other []; Done; Other []; delta "ignored"]].

(** One frame gets through, then the connection drops. *)
Definition dropped : Response :=
  ok_stream (map wire_all [[delta "Hi"]]) (Errored (Failure (js "network error"))).

(** Two malformed frames among two valid ones, over two chunks. *)
Definition interleaved : list (list frame) :=
  [[delta "Hi"; Data (js "{not json")];
   [Data (jsq "{'choices':[{'delta'"); delta " there"]].


Definition full_answer : Response :=
  ok_stream [jsq "{'choices':[{'message':{'role':'assistant',";
             jsq "'content':'Hi there'}}]}"] Closed.

(** A catalog that lists one model. *)
Definition catalog : Response :=
  ok_stream [jsq "{'data':[{'id':'openai/gpt-4o','context_length':128000}]}"] Closed.

(** The provider answers with an empty text. *)
Definition empty_answer : Response :=
  ok_stream [jsq "{'choices':[{'message':{'role':'assistant','content':''}}]}"]
            Closed.



(* ================================================================== *)
(** ** The browser's [btoa] and [atob]

    Base64 as the platform defines it: [btoa] refuses a code unit above
    255; [atob] is the forgiving decoder (ASCII white space dropped, padding
    optional, anything else outside the alphabet refused).  [None] is the
    [InvalidCharacterError] they throw. *)

Module Base64.

Definition b64_char (i : N) : code_unit :=
  if i <? 26 then 65 + i
  else if i <? 52 then 97 + (i - 26)
  else if i <? 62 then 48 + (i - 52)
  else if i =? 62 then 43
  else 47.

Definition b64_index (c : code_unit) : option N :=
  if (65 <=? c) && (c <=? 90) then Some (c - 65)
  else if (97 <=? c) && (c <=? 122) then Some (c - 97 + 26)
  else if (48 <=? c) && (c <=? 57) then Some (c - 48 + 52)
  else if c =? 43 then Some 62
  else if c =? 47 then Some 63
  else None.

Fixpoint b64_encode (bytes : list N) : jsstring :=
  match bytes with
  | a :: b :: c :: rest =>
      b64_char (a / 4) :: b64_char ((a mod 4) * 16 + b / 16)
      :: b64_char ((b mod 16) * 4 + c / 64) :: b64_char (c mod 64)
      :: b64_encode rest
  | [a; b] =>
      [b64_char (a / 4); b64_char ((a mod 4) * 16 + b / 16);
       b64_char ((b mod 16) * 4); 61]
  | [a] => [b64_char (a / 4); b64_char ((a mod 4) * 16); 61; 61]
  | [] => []
  end.

Definition btoa (s : jsstring) : option jsstring :=
  if forallb (fun c => c <? 256) s then Some (b64_encode s) else None.

Definition is_ascii_whitespace (c : code_unit) : bool :=
  (c =? 9) || (c =? 10) || (c =? 12) || (c =? 13) || (c =? 32).

Definition strip_padding (data : jsstring) : jsstring :=
  match rev data with
  | c1 :: c2 :: r =>
      if (c1 =? 61) && (c2 =? 61) then rev r
      else if c1 =? 61 then rev (c2 :: r)
      else data
  | [c1] => if c1 =? 61 then [] else data
  | [] => data
  end.

Fixpoint sextets (data : jsstring) : option (list N) :=
  match data with
  | [] => Some []
  | c :: data' =>
      match b64_index c, sextets data' with
      | Some i, Some xs => Some (i :: xs)
      | _, _ => None
      end
  end.

Fixpoint b64_decode (xs : list N) : list N :=
  match xs with
  | s1 :: s2 :: s3 :: s4 :: rest =>
      (s1 * 4 + s2 / 16) :: ((s2 mod 16) * 16 + s3 / 4)
      :: ((s3 mod 4) * 64 + s4) :: b64_decode rest
  | [s1; s2; s3] => [s1 * 4 + s2 / 16; (s2 mod 16) * 16 + s3 / 4]
  | [s1; s2] => [s1 * 4 + s2 / 16]
  | _ => []
  end.

Definition forgiving_strip (data : jsstring) : jsstring :=
  if N.of_nat (List.length data) mod 4 =? 0 then strip_padding data else data.

Definition atob (s : jsstring) : option jsstring :=
  let data := filter (fun c => negb (is_ascii_whitespace c)) s in
  let data := forgiving_strip data in
  if N.of_nat (List.length data) mod 4 =? 1 then None
  else match sextets data with
       | Some xs => Some (b64_decode xs)
       | None => None
       end.


(** The sextets of an encoding, the last group cut short, and its padding. *)
Fixpoint b64_sextets (bytes : list N) : list N :=
  match bytes with
  | a :: b :: c :: rest =>
      a / 4 :: (a mod 4) * 16 + b / 16 :: (b mod 16) * 4 + c / 64 :: c mod 64
      :: b64_sextets rest
  | [a; b] => [a / 4; (a mod 4) * 16 + b / 16; (b mod 16) * 4]
  | [a] => [a / 4; (a mod 4) * 16]
  | [] => []
  end.

Fixpoint b64_padding (bytes : list N) : jsstring :=
  match bytes with
  | _ :: _ :: _ :: rest => b64_padding rest
  | [_; _] => [61]
  | [_] => [61; 61]
  | [] => []
  end.

End Base64.

(* ================================================================== *)
(** ** src/lib/settings.ts *)

Module Settings.

Inductive provider := lmstudio | openrouter.

Record UserSettings := {
  defaultProvider : provider;
  defaultModel : jsstring;
  lmstudioUrl : jsstring;
  openrouterApiKey : jsstring;
  openrouterUrl : jsstring;
  maxContextLength : number
}.

Record DatabaseSettings := {
  default_provider : provider;
  default_model : jsstring;
  lmstudio_url : jsstring;
  openrouter_api_key : jsstring;
  openrouter_url : jsstring;
  max_context_length : number
}.

(** [Partial<UserSettings>]: a field left out is [None]. *)
Record PartialSettings := {
  set_defaultProvider : option provider;
  set_defaultModel : option jsstring;
  set_lmstudioUrl : option jsstring;
  set_openrouterApiKey : option jsstring;
  set_openrouterUrl : option jsstring;
  set_maxContextLength : option number
}.

Definition defaultSettings : UserSettings :=
  {| defaultProvider := lmstudio;
     defaultModel := [];
     lmstudioUrl := js "http://localhost:1234";
     openrouterApiKey := [];
     openrouterUrl := js "https://openrouter.ai/api/v1";
     maxContextLength := {| mantissa := 30000; exponent := 0 |} |}.

(** [key ? btoa(key) : '']: [btoa] may throw. *)
Definition encryptApiKey {S} (key : jsstring) : M S jsstring :=
  match key with
  | [] => ret []
  | _ :: _ =>
      match Base64.btoa key with
      | Some encoded => ret encoded
      | None => throw (Failure (js "InvalidCharacterError"))
      end
  end.

(** [if (!encryptedKey) return ''; try { return atob(encryptedKey); }
    catch { return ''; }] *)
Definition decryptApiKey (encryptedKey : jsstring) : jsstring :=
  match encryptedKey with
  | [] => []
  | _ :: _ =>
      match Base64.atob encryptedKey with
      | Some key => key
      | None => []
      end
  end.

Definition toCamelCase (dbSettings : DatabaseSettings) : UserSettings :=
  {| defaultProvider := default_provider dbSettings;
     defaultModel := default_model dbSettings;
     lmstudioUrl := lmstudio_url dbSettings;
     openrouterApiKey := decryptApiKey (openrouter_api_key dbSettings);
     openrouterUrl := openrouter_url dbSettings;
     maxContextLength := max_context_length dbSettings |}.

(** *** The database client, as far as this file uses it *)

Inductive param :=
| PString (s : jsstring)
| PNumber (n : number).

(** A call that reaches the database: [supabase.rpc(fn, params)], or the
    [delete] on [user_settings] for one user. *)
Inductive db_call :=
| Rpc (fn : jsstring) (params : list (jsstring * param))
| Delete (user_id : jsstring).

(** The [{ data, error }] an awaited call resolves with; [data] is [null]
    or the rows, [error] is [null] or an error object. *)
Record db_result := {
  data : option (list DatabaseSettings);
  error : option exn
}.

Record Supabase := {
  auth_getUser : promise (option jsstring);   (* data.user?.id, None: no user *)
  call : db_call -> promise db_result
}.

(** The calls sent to the database so far are the state of a run. *)
Definition log := list db_call.

Section Functions.
Variable supabase : Supabase.

(** [await supabase.rpc(...)] and the like: the call is sent, then settles. *)
Definition call_ (c : db_call) : M log db_result :=
  fun sent =>
    mkRun [Stored (sent ++ [c])]
          match call supabase c with
          | Resolved r => Normal r
          | Rejected e => Throw e
          end
          (sent ++ [c]).

(** [const { data: { user } } = await supabase.auth.getUser();
    if (!user) throw new Error('User not authenticated');] *)
Definition current_user : M log jsstring :=
  user <- await (auth_getUser supabase) ;;
  match user with
  | None => throw (JsError (js "User not authenticated"))
  | Some user_id => ret user_id
  end.

Definition getUserSettings : M log UserSettings :=
  try_catch
    (user_id <- current_user ;;
     r <- call_ (Rpc (js "get_user_settings")
                     [(js "user_uuid", PString user_id)]) ;;
     match error r with
     | Some _ => ret defaultSettings
     | None =>
         match data r with
         | None => ret defaultSettings
         | Some [] => ret defaultSettings
         | Some (row :: _) => ret (toCamelCase row)
         end
     end)
    (fun error => ret defaultSettings).

Definition provider_name (p : provider) : jsstring :=
  match p with
  | lmstudio => js "lmstudio"
  | openrouter => js "openrouter"
  end.

(** [if (settings.f !== undefined) params.p_f = v;] *)
Definition entry {A} (name : string) (v : A -> param) (field : option A)
  : list (jsstring * param) :=
  match field with
  | Some a => [(js name, v a)]
  | None => []
  end.

Definition updateUserSettings (settings : PartialSettings) : M log bool :=
  try_catch
    (user_id <- current_user ;;
     let params := [(js "user_uuid", PString user_id)] in
     let params := params ++ entry "p_default_provider"
                      (fun p => PString (provider_name p))
                      (set_defaultProvider settings) in
     let params := params ++ entry "p_default_model" PString
                      (set_defaultModel settings) in
     let params := params ++ entry "p_lmstudio_url" PString
                      (set_lmstudioUrl settings) in
     key <- match set_openrouterApiKey settings with
            | Some k => encrypted <- encryptApiKey k ;; ret (Some encrypted)
            | None => ret None
            end ;;
     let params := params ++ entry "p_openrouter_api_key" PString key in
     let params := params ++ entry "p_openrouter_url" PString
                      (set_openrouterUrl settings) in
     let params := params ++ entry "p_max_context_length" PNumber
                      (set_maxContextLength settings) in
     r <- call_ (Rpc (js "upsert_user_settings") params) ;;
     match error r with
     | Some _ => ret false
     | None => ret true
     end)
    (fun error => ret false).

Definition resetUserSettings : M log bool :=
  try_catch
    (user_id <- current_user ;;
     r <- call_ (Delete user_id) ;;
     match error r with
     | Some _ => ret false
     | None => ret true
     end)
    (fun error => ret false).

Definition getOpenRouterApiKey : M log jsstring :=
  settings <- getUserSettings ;;
  ret (openrouterApiKey settings).

End Functions.

(** The promise a caller of [getOpenRouterApiKey] awaits. *)
Definition stored_key (supabase : Supabase) : promise jsstring :=
  match outcome (getOpenRouterApiKey supabase []) with
  | Normal key => Resolved key
  | Return => Resolved []
  | Throw e => Rejected e
  end.

End Settings.

(** A world whose settings collaborator is [settings.ts] over a database. *)
Definition with_settings (w : World) (stored : promise jsstring) : World :=
  {| JSON_parse := JSON_parse w;
     fetch := fetch w;
     getOpenRouterApiKey := stored;
     location_origin := location_origin w |}.

(* ================================================================== *)
(** ** src/pages/ChatPage.tsx: [getAIResponse] *)

(** The two module-level instances, [lmstudioAPI] and [openRouterAPI]. *)
Record Clients := {
  lmstudioAPI : LMStudioAPI.LMStudioAPI;
  openRouterAPI : OpenRouterAPI.OpenRouterAPI
}.

Record Chat := {
  chat_ident : jsstring;          (* id *)
  title : jsstring;
  project_id : jsstring;
  model_provider : jsstring;
  model_name : jsstring;
  chat_created_at : jsstring;
  updated_at : jsstring
}.

(** A method call on one of several objects: it runs on that object and
    leaves the others alone. *)
Definition on_part {S T A} (part : T -> S) (update : S -> T -> T) (m : M S A)
  : M T A :=
  fun whole =>
    let r := m (part whole) in
    mkRun (map (fun e => match e with
                         | Yielded v => Yielded v
                         | Requested q => Requested q
                         | Stored s => Stored (update s whole)
                         end) (trace r))
          (outcome r)
          (update (final r) whole).

Definition on_lmstudioAPI {A} (m : M LMStudioAPI.LMStudioAPI A) : M Clients A :=
  on_part lmstudioAPI
          (fun s c => {| lmstudioAPI := s; openRouterAPI := openRouterAPI c |}) m.

Definition on_openRouterAPI {A} (m : M OpenRouterAPI.OpenRouterAPI A)
  : M Clients A :=
  on_part openRouterAPI
          (fun s c => {| lmstudioAPI := lmstudioAPI c; openRouterAPI := s |}) m.

Module ChatPage.

(** The user turn appended to the history; [now] is
    [new Date().toISOString()]. *)
Definition user_message (chat : Chat) (message now : jsstring) : Message :=
  {| id := [];
     chat_id := chat_ident chat;
     msg_role := user;
     msg_content := message;
     created_at := now |}.

(** [getAIResponse(message, chat)], where [messages] is the history held by
    the page; [None] is [null]. *)
Definition getAIResponse (w : World) (messages : list Message) (now : jsstring)
    (message : jsstring) (chat : Chat) : M Clients (option value) :=
  try_catch
    (if jsstring_eqb (model_provider chat) (js "lmstudio") then
       r <- on_lmstudioAPI
              (LMStudioAPI.getSimpleResponse w
                 (messages ++ [user_message chat message now])
                 (model_name chat)) ;;
       ret (Some r)
     else if jsstring_eqb (model_provider chat) (js "openrouter") then
       r <- on_openRouterAPI
              (OpenRouterAPI.getSimpleResponse w
                 (messages ++ [user_message chat message now])
                 (model_name chat)) ;;
       ret (Some r)
     else ret None)
    (fun error =>
       ret (Some (JString
         (js "Sorry, I encountered an error while processing your request.")))).

End ChatPage.

(** A computation that leaves the instance as it found it. *)
Definition steady {S A} (m : M S A) : Prop :=
  forall this, final (m this) = this.

(* ================================================================== *)
(** ** Catalog entries *)

Definition is_null (v : value) : bool :=
  match v with JNull => true | _ => false end.

(** How a catalog entry and the descriptor made of it relate, on the local
    client: the name is the id. *)
Definition lm_describes (model : value) (d : LMStudioAPI.LMStudioModel) : Prop :=
  LMStudioAPI.lm_id d = prop (js "id") model
  /\ LMStudioAPI.lm_name d = prop (js "id") model
  /\ LMStudioAPI.lm_status d = js "available".

(** On the cloud client: the name, or the id when there is no name, and the
    pricing and context length as the catalog gives them. *)
Definition or_describes (model : value) (d : OpenRouterAPI.OpenRouterModel)
  : Prop :=
  OpenRouterAPI.model_id d = prop (js "id") model
  /\ OpenRouterAPI.model_name d =
     (if truthy (prop (js "name") model) then prop (js "name") model
      else prop (js "id") model)
  /\ OpenRouterAPI.pricing d = prop (js "pricing") model
  /\ OpenRouterAPI.context_length d = prop (js "context_length") model.

(** The body of a catalog answer: [data.data] as an array. *)
Definition lists (response : Response) (elements : list value) : Prop :=
  ok response = true
  /\ exists data, json response = Resolved data
                  /\ prop (js "data") data = Some (JArray elements).

(** An answer from which no catalog can be read. *)
Definition unusable (answer : promise Response) : Prop :=
  match answer with
  | Rejected _ => True
  | Resolved response =>
      ok response = false
      \/ (exists e, json response = Rejected e)
      \/ (exists elements, lists response elements
                           /\ existsb is_null elements = true)
  end.

(** An exchange that fails before any text is read: the request is
    rejected, the status is not a success, or the body, read as JSON
    because streaming is off or there is no body stream, is not JSON or is
    [null]. *)
Definition fails_before_text (options : Options) (answer : promise Response)
  : Prop :=
  match answer with
  | Rejected _ => True
  | Resolved response =>
      ok response = false
      \/ ((opt_stream options = Some false \/ response_body response = None)
          /\ ((exists e, json response = Rejected e)
              \/ json response = Resolved JNull))
  end.

(* ================================================================== *)
(** ** Mock databases and endpoints, for running the settings *)

Definition saved_row (encrypted : jsstring) : Settings.DatabaseSettings :=
  {| Settings.default_provider := Settings.openrouter;
     Settings.default_model := js "openai/gpt-4o";
     Settings.lmstudio_url := js "http://localhost:1234";
     Settings.openrouter_api_key := encrypted;
     Settings.openrouter_url := js "https://openrouter.ai/api/v1";
     Settings.max_context_length := {| mantissa := 30000; exponent := 0 |} |}.

(** A database that knows the session's user, if any, and answers every
    call with the given rows. *)
Definition mock_database (user : option jsstring)
    (rows : list Settings.DatabaseSettings) : Settings.Supabase :=
  {| Settings.auth_getUser := Resolved user;
     Settings.call := fun _ =>
       Resolved {| Settings.data := Some rows; Settings.error := None |} |}.

(** An update of the key alone. *)
Definition only_key (key : jsstring) : Settings.PartialSettings :=
  {| Settings.set_defaultProvider := None;
     Settings.set_defaultModel := None;
     Settings.set_lmstudioUrl := None;
     Settings.set_openrouterApiKey := Some key;
     Settings.set_openrouterUrl := None;
     Settings.set_maxContextLength := None |}.

(** What [JSON.parse] makes of a full answer. *)
Definition bodiless_data : value :=
  Eval vm_compute in
    default JNull
      (JSON.parse (jsq "{'choices':[{'message':{'content':'Hi there'}}]}")).

(** An answer whose body was consumed elsewhere: [response.body] is
    [null], [json()] still resolves. *)
Definition bodiless : Response :=
  {| ok := true;
     status := 200;
     statusText := js "OK";
     response_body := None;
     text := Resolved (jsq "{'choices':[{'message':{'content':'Hi there'}}]}");
     json := Resolved bodiless_data |}.

(** Two chunks that end the stream, and what the provider still sends. *)
Definition farewell : list jsstring :=
  map wire_all [[delta "Hi"; Other []]; [delta " there"; Other []; Done]].

Definition afterwards : list jsstring :=
  map wire_all [[Other []; delta "ignored"]].

Unset Implicit Arguments.

(* ================================================================== *)
(** ** Strings *)

Lemma jsstring_eqb_eq (a b : jsstring) : jsstring_eqb a b = true <-> a = b.
Proof.
  revert b; induction a as [|x a IH]; intros [|y b]; simpl; split;
    try congruence; try reflexivity.
  - intros H. apply andb_true_iff in H as [Hx Ha].
    apply N.eqb_eq in Hx. apply IH in Ha. congruence.
  - intros H. injection H as -> ->.
    rewrite N.eqb_refl. simpl. now apply IH.
Qed.

Lemma jsstring_eqb_neq (a b : jsstring) : a <> b -> jsstring_eqb a b = false.
Proof.
  intros H. destruct (jsstring_eqb a b) eqn:E; [|reflexivity].
  apply jsstring_eqb_eq in E. contradiction.
Qed.

Lemma startsWith_app (p s : jsstring) : startsWith (p ++ s) p = true.
Proof.
  induction p as [|c p IH]; simpl.
  - reflexivity.
  - now rewrite N.eqb_refl.
Qed.

Lemma slice_app (p s : jsstring) : slice (List.length p) (p ++ s) = s.
Proof. unfold slice. induction p; simpl; auto. Qed.

(** Splitting at line feeds gives back the first line of a text that starts
    with a whole line. *)
Lemma split_line (l rest : jsstring) :
  ~ In LF l -> split LF (l ++ LF :: rest) = l :: split LF rest.
Proof.
  induction l as [|c l IH]; simpl; intros H.
  - reflexivity.
  - destruct (c =? LF) eqn:E.
    + apply N.eqb_eq in E. exfalso. apply H. now left.
    + rewrite IH by (intros HI; apply H; now right). reflexivity.
Qed.

Lemma split_nonempty (s : jsstring) : split LF s <> [].
Proof.
  destruct s as [|c s]; simpl; [discriminate|].
  destruct (c =? LF); [discriminate|].
  destruct (split LF s); discriminate.
Qed.

Lemma frame_line_no_LF (f : frame) :
  well_framed f -> ~ In LF (frame_line f).
Proof.
  destruct f as [p| |l]; simpl.
  - intros [Hp _] [H|[H|[H|[H|[H|[H|H]]]]]]; try discriminate H. now apply Hp.
  - intros _ H. repeat (destruct H as [H|H]; [discriminate H|]). exact H.
  - tauto.
Qed.

(* ================================================================== *)
(** ** What the decoding loop does *)

Section Decoder.
Variable w : World.
Variable S : Type.

Lemma yield_if_truthy_run (c : option value) (this : S) :
  yield_if_truthy c this = mkRun (map Yielded (present c)) (Normal tt) this.
Proof.
  unfold yield_if_truthy, present.
  destruct c as [v|]; [destruct (truthy (Some v))|]; reflexivity.
Qed.

(** One payload: a fragment when it parses and carries a content, nothing
    otherwise; the loop goes on either way. *)
Lemma on_data_run (data : jsstring) (this : S) :
  on_data w data this =
  mkRun (map Yielded
           match JSON_parse w data with
           | Some parsed => present (delta_content parsed)
           | None => []
           end)
        (Normal tt) this.
Proof.
  unfold on_data, try_catch, bind, JSON_parse_.
  destruct (JSON_parse w data) as [parsed|]; [|reflexivity].
  destruct parsed; cbn - [js present truthy];
    try rewrite yield_if_truthy_run; cbn - [js present truthy];
    try rewrite app_nil_r; reflexivity.
Qed.

Lemma on_line_data (p : jsstring) (this : S) :
  trim p <> js "[DONE]" ->
  on_line w (frame_line (Data p)) this =
  mkRun (map Yielded (frame_text w (Data p))) (Normal tt) this.
Proof.
  intros Hp. unfold on_line, frame_line.
  rewrite startsWith_app.
  change 6%nat with (List.length (js "data: ")). rewrite slice_app.
  rewrite (jsstring_eqb_neq _ _ Hp). apply on_data_run.
Qed.

Lemma on_line_done (this : S) :
  on_line w (frame_line Done) this = mkRun [] Return this.
Proof. reflexivity. Qed.

Lemma on_line_empty (this : S) :
  on_line w [] this = mkRun [] (Normal tt) this.
Proof. reflexivity. Qed.

Lemma on_line_other (l : jsstring) (this : S) :
  startsWith l (js "data: ") = false ->
  on_line w l this = mkRun [] (Normal tt) this.
Proof. intros H. unfold on_line. rewrite H. reflexivity. Qed.

Lemma present_truthy (c : option value) :
  Forall (fun v => truthy (Some v) = true) (present c).
Proof.
  unfold present. destruct c as [v|]; [|constructor].
  destruct (truthy (Some v)) eqn:E; constructor; [exact E|constructor].
Qed.

(** A line never makes the loop throw, stores nothing and sends nothing; what
    it yields has passed the truthiness guard. *)
Lemma on_line_quiet (line : jsstring) (this : S) :
  exists ys c,
    on_line w line this = mkRun (map Yielded ys) c this /\
    Forall (fun v => truthy (Some v) = true) ys /\
    (c = Normal tt \/ c = Return).
Proof.
  unfold on_line. destruct (startsWith line (js "data: ")).
  - destruct (jsstring_eqb _ _).
    + exists [], Return. repeat split; [constructor|now right].
    + rewrite on_data_run. eexists _, _. split; [reflexivity|].
      split; [|now left].
      destruct (JSON_parse w _); [apply present_truthy|constructor].
  - exists [], (Normal tt). repeat split; [constructor|now left].
Qed.

Lemma for_of_quiet (lines : list jsstring) (this : S) :
  exists ys c,
    for_of lines (@on_line w S) this = mkRun (map Yielded ys) c this /\
    Forall (fun v => truthy (Some v) = true) ys /\
    (c = Normal tt \/ c = Return).
Proof.
  induction lines as [|line lines IH].
  - exists [], (Normal tt). repeat split; [constructor|now left].
  - simpl for_of. unfold bind.
    destruct (on_line_quiet line this) as (ys & c & -> & Hys & [->| ->]);
      cbn [outcome final trace].
    + destruct IH as (zs & d & -> & Hzs & Hd). cbn [outcome final trace].
      exists (ys ++ zs), d. rewrite map_app. repeat split; [|exact Hd].
      apply Forall_app. now split.
    + exists ys, Return. repeat split; [exact Hys|now right].
Qed.

(** The read loop over any chunks whatever: it only yields, only values that
    passed the guard, and it throws only what [read()] rejected with. *)
Lemma read_loop_quiet (cs : list jsstring) (e : stream_end) (this : S) :
  exists ys c,
    read_loop w cs e this = mkRun (map Yielded ys) c this /\
    Forall (fun v => truthy (Some v) = true) ys /\
    (c = Normal tt \/ c = Return \/ exists err, e = Errored err /\ c = Throw err).
Proof.
  induction cs as [|chunk cs IH].
  - destruct e as [|err].
    + exists [], (Normal tt). repeat split; [constructor|now left].
    + exists [], (Throw err). repeat split; [constructor|].
      right. right. now exists err.
  - simpl read_loop. unfold bind.
    destruct (for_of_quiet (split LF chunk) this) as (ys & c & -> & Hys & [->| ->]);
      cbn [outcome final trace].
    + destruct IH as (zs & d & -> & Hzs & Hd). cbn [outcome final trace].
      exists (ys ++ zs), d. rewrite map_app. repeat split; [|exact Hd].
      apply Forall_app. now split.
    + exists ys, Return. repeat split; [exact Hys|]. right. now left.
Qed.

(** The lines of one chunk of whole frames. *)
Lemma for_of_frames (fs : list frame) (this : S) :
  Forall well_framed fs ->
  for_of (split LF (wire_all fs)) (@on_line w S) this =
  mkRun (map Yielded (texts_until_done w fs))
        (if existsb is_done fs then Return else Normal tt) this.
Proof.
  induction 1 as [|f fs Hf Hfs IH].
  - reflexivity.
  - unfold wire_all in *. simpl List.concat. unfold wire at 1.
    rewrite <- app_assoc. simpl app at 2.
    rewrite split_line by apply frame_line_no_LF, Hf.
    simpl for_of. unfold bind.
    destruct f as [p| |l].
    + rewrite on_line_data by apply Hf.
      cbn [outcome final trace]. rewrite IH.
      cbn [outcome final trace texts_until_done existsb is_done orb].
      rewrite map_app. reflexivity.
    + rewrite on_line_done. reflexivity.
    + simpl frame_line. rewrite on_line_other by apply Hf.
      cbn [outcome final trace]. rewrite IH. reflexivity.
Qed.

Lemma texts_until_done_app (fs gs : list frame) :
  texts_until_done w (fs ++ gs) =
  texts_until_done w fs ++
  (if existsb is_done fs then [] else texts_until_done w gs).
Proof.
  induction fs as [|[p| |l] fs IH]; simpl.
  - reflexivity.
  - rewrite IH, app_assoc. reflexivity.
  - reflexivity.
  - exact IH.
Qed.

(** The whole read loop over chunks of whole frames. *)
Lemma read_loop_frames (groups : list (list frame)) (e : stream_end) (this : S) :
  Forall (Forall well_framed) groups ->
  read_loop w (map wire_all groups) e this =
  mkRun (map Yielded (texts_until_done w (List.concat groups)))
        (if existsb is_done (List.concat groups) then Return
         else match e with Closed => Normal tt | Errored err => Throw err end)
        this.
Proof.
  induction 1 as [|g groups Hg Hgs IH].
  - destruct e; reflexivity.
  - simpl map. simpl read_loop. unfold bind.
    rewrite for_of_frames by exact Hg.
    cbn [outcome final trace List.concat].
    rewrite existsb_app.
    destruct (existsb is_done g) eqn:Eg.
    + cbn [orb]. rewrite texts_until_done_app, Eg, app_nil_r. reflexivity.
    + rewrite IH. cbn [outcome final trace orb].
      rewrite texts_until_done_app, Eg, map_app. reflexivity.
Qed.

End Decoder.

(* ================================================================== *)
(** ** The outer layer of [sendMessage] *)

Lemma stream_default (options : Options) :
  opt_stream options <> Some false -> default true (opt_stream options) = true.
Proof. destruct (opt_stream options) as [[|]|]; simpl; congruence. Qed.

Lemma fragments_app {S} (t u : list (event S)) :
  fragments (t ++ u) = fragments t ++ fragments u.
Proof.
  induction t as [|[v|r|s] t IH]; simpl; rewrite ?IH; reflexivity.
Qed.

Lemma fragments_yielded {S} (ys : list value) :
  fragments (map (@Yielded S) ys) = ys.
Proof. induction ys; simpl; congruence. Qed.

Lemma requests_app {S} (t u : list (event S)) :
  requests (t ++ u) = requests t ++ requests u.
Proof.
  induction t as [|[v|r|s] t IH]; simpl; rewrite ?IH; reflexivity.
Qed.

Lemma requests_yielded {S} (ys : list value) :
  requests (map (@Yielded S) ys) = [].
Proof. induction ys; simpl; congruence. Qed.

(** The loop does not look at the instance: it does the same in every
    client. *)
Lemma on_line_uniform (w : World) (S : Type) (line : jsstring) (this : S) :
  on_line w line this =
  mkRun (map Yielded (fragments (trace (@on_line w unit line tt))))
        (outcome (@on_line w unit line tt)) this.
Proof.
  unfold on_line. destruct (startsWith line (js "data: ")); [|reflexivity].
  destruct (jsstring_eqb _ _); [reflexivity|].
  rewrite !on_data_run. cbn [trace outcome]. rewrite fragments_yielded.
  reflexivity.
Qed.

Lemma for_of_uniform (w : World) (S : Type) (lines : list jsstring) (this : S) :
  for_of lines (@on_line w S) this =
  mkRun (map Yielded (fragments (trace (for_of lines (@on_line w unit) tt))))
        (outcome (for_of lines (@on_line w unit) tt)) this.
Proof.
  induction lines as [|line lines IH]; [reflexivity|].
  simpl for_of. unfold bind. rewrite (on_line_uniform w S line this).
  cbn [outcome final trace].
  destruct (on_line_quiet w unit line tt) as (ys & c & E & _ & [->| ->]);
    rewrite E; cbn [outcome final trace].
  - rewrite IH. cbn [outcome final trace].
    rewrite fragments_app, map_app. reflexivity.
  - reflexivity.
Qed.

Lemma read_loop_uniform (w : World) (S : Type) (cs : list jsstring)
    (e : stream_end) (this : S) :
  read_loop w cs e this =
  mkRun (map Yielded (decoded w cs))
        (if sentinel_seen w cs then Return
         else match e with Closed => Normal tt | Errored err => Throw err end)
        this.
Proof.
  unfold decoded, sentinel_seen.
  induction cs as [|chunk cs IH]; [destruct e; reflexivity|].
  simpl read_loop. unfold bind.
  rewrite (for_of_uniform w S (split LF chunk) this).
  cbn [outcome final trace].
  destruct (for_of_quiet w unit (split LF chunk) tt) as (ys & c & E & _ & [->| ->]);
    rewrite E; cbn [outcome final trace].
  - rewrite IH. cbn [outcome final trace].
    rewrite fragments_app, map_app. reflexivity.
  - reflexivity.
Qed.

(** On chunks of whole frames, the loop yields the texts of the frames. *)
Lemma decoded_frames (w : World) (groups : list (list frame)) :
  Forall (Forall well_framed) groups ->
  decoded w (map wire_all groups) = texts_until_done w (List.concat groups)
  /\ sentinel_seen w (map wire_all groups) = existsb is_done (List.concat groups).
Proof.
  intros Hg. unfold decoded, sentinel_seen.
  rewrite (read_loop_frames w unit groups Closed tt Hg). cbn [trace outcome].
  rewrite fragments_yielded. split; [reflexivity|].
  destruct (existsb is_done (List.concat groups)); reflexivity.
Qed.

Lemma bind_normal {S A B} (m : M S A) (k : A -> M S B) (this : S) t a s :
  m this = mkRun t (Normal a) s -> bind m k this = after t (k a s).
Proof. intros H. unfold bind. rewrite H. reflexivity. Qed.

Lemma bind_get {S B} (k : S -> M S B) (this : S) :
  bind get k this = after [] (k this this).
Proof. reflexivity. Qed.

Module LMStudioFacts.
Import LMStudioAPI.

Section Facts.
Variable w : World.
Variables (msgs : list Message) (model : jsstring) (options : Options).
Variable this : LMStudioAPI.
Variable response : Response.
Hypothesis fetched :
  fetch w (chat_request this msgs model options) = Resolved response.

(** The streaming branch: the loop's fragments pass through; an error
    thrown by the loop becomes one more fragment, the apology. *)
Lemma lm_sendMessage_streaming (cs : list jsstring) (e : stream_end)
    (t : list (event LMStudioAPI)) (c : completion unit) :
  streams response cs e ->
  opt_stream options <> Some false ->
  read_loop w cs e this = mkRun t c this ->
  sendMessage w msgs model options this =
  match c with
  | Throw _ =>
      mkRun (Requested (chat_request this msgs model options)
               :: t ++ [Yielded (JString apology)]) (Normal tt) this
  | _ => mkRun (Requested (chat_request this msgs model options) :: t) c this
  end.
Proof.
  intros [Hok Hbody] Hs Hloop.
  unfold sendMessage. rewrite stream_default by exact Hs.
  unfold bind at 1. cbn [get outcome final trace].
  unfold try_catch, bind, fetch_. rewrite fetched.
  cbn [outcome final trace]. rewrite Hok. cbn [negb ret outcome final trace].
  rewrite Hbody. unfold stream_branch, try_finally. cbn [chunks ending].
  rewrite Hloop. cbn [releaseLock ret outcome final trace].
  destruct c; cbn [outcome final trace app]; rewrite ?app_nil_r; reflexivity.
Qed.


(** The non-streaming branch on a body that parses. *)
Lemma lm_sendMessage_json (data : value) :
  ok response = true ->
  opt_stream options = Some false ->
  json response = Resolved data ->
  data <> JNull ->
  sendMessage w msgs model options this =
  mkRun [Requested (chat_request this msgs model options);
         Yielded (if truthy (message_content data)
                  then default (JString []) (message_content data)
                  else JString [])] (Normal tt) this.
Proof.
  intros Hok Hs Hjson Hnull. unfold sendMessage. rewrite Hs.
  unfold bind at 1. cbn [get outcome final trace default].
  unfold try_catch, bind, fetch_. rewrite fetched.
  cbn [outcome final trace]. rewrite Hok. cbn [negb ret outcome final trace].
  unfold json_branch, bind. rewrite Hjson.
  destruct data; try congruence; reflexivity.
Qed.

End Facts.
End LMStudioFacts.

Module OpenRouterFacts.
Import OpenRouterAPI.

Section Loading.
Variable w : World.
Variable this : OpenRouterAPI.

(** Loading the key never fails, yields nothing and sends nothing. *)
Lemma loadApiKey_run :
  loadApiKey w this =
  mkRun (trace (loadApiKey w this)) (Normal tt) (final (loadApiKey w this))
  /\ fragments (trace (loadApiKey w this)) = []
  /\ requests (trace (loadApiKey w this)) = [].
Proof.
  unfold loadApiKey, bind, try_catch. cbn [get outcome final trace].
  destruct (isConfigured this); cbn [negb].
  - repeat split.
  - destruct (getOpenRouterApiKey w); repeat split.
Qed.

Lemma loadApiKey_configured :
  isConfigured this = true -> loadApiKey w this = mkRun [] (Normal tt) this.
Proof.
  intros H. unfold loadApiKey, bind. cbn [get outcome final trace].
  rewrite H. reflexivity.
Qed.

(** No credential, and none to be had from the settings. *)
Lemma loadApiKey_nothing :
  isConfigured this = false ->
  match getOpenRouterApiKey w with
  | Resolved key => key = []
  | Rejected _ => True
  end ->
  isConfigured (final (loadApiKey w this)) = false.
Proof.
  intros H Hk. unfold loadApiKey, bind, try_catch.
  cbn [get outcome final trace]. rewrite H. cbn [negb].
  destruct (getOpenRouterApiKey w) as [key|e]; [subst key|]; cbn; auto.
Qed.
End Loading.

Section Facts.
Variable w : World.
Variables (msgs : list Message) (model : jsstring) (options : Options).
Variable this : OpenRouterAPI.

(** The instance once the key has been looked for. *)
Let loaded : OpenRouterAPI := final (loadApiKey w this).
Let prelude : list (event OpenRouterAPI) := trace (loadApiKey w this).

Lemma sendMessage_unconfigured :
  isConfigured loaded = false ->
  sendMessage w msgs model options this =
  mkRun (prelude ++ [Yielded (JString unconfigured)]) (Normal tt) loaded.
Proof.
  intros Hc. unfold sendMessage.
  erewrite bind_normal by exact (proj1 (loadApiKey_run w this)).
  rewrite bind_get.
  fold loaded prelude. rewrite Hc. reflexivity.
Qed.

Variable response : Response.
Hypothesis configured : isConfigured loaded = true.
Hypothesis fetched :
  fetch w (chat_request w loaded msgs model options) = Resolved response.

Lemma or_sendMessage_streaming (cs : list jsstring) (e : stream_end)
    (t : list (event OpenRouterAPI)) (c : completion unit) :
  streams response cs e ->
  opt_stream options <> Some false ->
  read_loop w cs e loaded = mkRun t c loaded ->
  sendMessage w msgs model options this =
  match c with
  | Throw _ =>
      mkRun (prelude ++ Requested (chat_request w loaded msgs model options)
               :: t ++ [Yielded (JString apology)]) (Normal tt) loaded
  | _ =>
      mkRun (prelude ++ Requested (chat_request w loaded msgs model options) :: t)
            c loaded
  end.
Proof.
  intros [Hok Hbody] Hs Hloop.
  unfold sendMessage. rewrite stream_default by exact Hs.
  erewrite bind_normal by exact (proj1 (loadApiKey_run w this)).
  rewrite bind_get.
  fold loaded prelude. rewrite configured. cbn [negb].
  unfold try_catch, bind, fetch_. rewrite fetched.
  cbn [outcome final trace]. rewrite Hok. cbn [negb ret outcome final trace].
  rewrite Hbody. unfold stream_branch, try_finally. cbn [chunks ending].
  rewrite Hloop. cbn [releaseLock ret outcome final trace].
  unfold after.
  destruct c; cbn [outcome final trace app]; rewrite ?app_nil_r; reflexivity.
Qed.


Lemma or_sendMessage_json (data : value) :
  ok response = true ->
  opt_stream options = Some false ->
  json response = Resolved data ->
  data <> JNull ->
  sendMessage w msgs model options this =
  mkRun (prelude ++ [Requested (chat_request w loaded msgs model options);
         Yielded (if truthy (message_content data)
                  then default (JString []) (message_content data)
                  else JString [])]) (Normal tt) loaded.
Proof.
  intros Hok Hs Hjson Hnull. unfold sendMessage. rewrite Hs.
  erewrite bind_normal by exact (proj1 (loadApiKey_run w this)).
  rewrite bind_get.
  fold loaded prelude. rewrite configured. cbn [negb default].
  unfold try_catch, bind, fetch_. rewrite fetched.
  cbn [outcome final trace]. rewrite Hok. cbn [negb ret outcome final trace].
  unfold json_branch, bind. rewrite Hjson.
  destruct data; try congruence; reflexivity.
Qed.

End Facts.
End OpenRouterFacts.

(* ================================================================== *)
(** ** Streams of whole frames through [sendMessage] *)

Lemma valid_well_framed (w : World) (f : frame) :
  sentinel_rejected w -> valid w f -> well_framed f.
Proof.
  intros Hs. destruct f as [p| |l]; simpl; [|trivial|trivial].
  intros [Hp [parsed Hparsed]]. split; [exact Hp|].
  intros E. rewrite E, Hs in Hparsed. discriminate.
Qed.

Lemma malformed_well_framed (w : World) (f : frame) :
  malformed w f -> well_framed f.
Proof. destruct f as [p| |l]; simpl; tauto. Qed.

(** A malformed frame carries no text, so leaving it out changes nothing. *)
Lemma texts_until_done_valid_only (w : World) (fs : list frame) :
  texts_until_done w (filter (is_valid w) fs) = texts_until_done w fs.
Proof.
  induction fs as [|[p| |l] fs IH]; simpl.
  - reflexivity.
  - destruct (JSON_parse w (trim p)) as [parsed|] eqn:E; simpl.
    + rewrite E, IH. reflexivity.
    + exact IH.
  - reflexivity.
  - exact IH.
Qed.

Lemma lm_stream_any (w : World) (cs : list jsstring) (e : stream_end)
    (response : Response) msgs model options (this : LMStudioAPI.LMStudioAPI) :
  opt_stream options <> Some false ->
  streams response cs e ->
  fetch w (LMStudioAPI.chat_request this msgs model options) = Resolved response ->
  let r := LMStudioAPI.sendMessage w msgs model options this in
  fragments (trace r) =
    decoded w cs ++ epilogue LMStudioAPI.apology (sentinel_seen w cs) e
  /\ ends_normally r
  /\ requests (trace r) = [LMStudioAPI.chat_request this msgs model options].
Proof.
  intros Hs Hr Hf r. subst r.
  rewrite (@LMStudioFacts.lm_sendMessage_streaming
             w msgs model options this response Hf _ _ _ _ Hr Hs
             (read_loop_uniform w _ cs e this)).
  unfold epilogue, ends_normally.
  destruct (sentinel_seen w cs); [|destruct e];
    cbn [trace outcome fragments requests];
    rewrite ?fragments_app, ?requests_app, ?fragments_yielded, ?requests_yielded;
    rewrite ?app_nil_r; auto.
Qed.

Lemma or_stream_any (w : World) (cs : list jsstring) (e : stream_end)
    (response : Response) msgs model options (this : OpenRouterAPI.OpenRouterAPI) :
  let loaded := final (OpenRouterAPI.loadApiKey w this) in
  opt_stream options <> Some false ->
  streams response cs e ->
  OpenRouterAPI.isConfigured loaded = true ->
  fetch w (OpenRouterAPI.chat_request w loaded msgs model options)
    = Resolved response ->
  let r := OpenRouterAPI.sendMessage w msgs model options this in
  fragments (trace r) =
    decoded w cs ++ epilogue OpenRouterAPI.apology (sentinel_seen w cs) e
  /\ ends_normally r
  /\ requests (trace r) = [OpenRouterAPI.chat_request w loaded msgs model options].
Proof.
  intros loaded Hs Hr Hc Hf r. subst r.
  rewrite (@OpenRouterFacts.or_sendMessage_streaming
             w msgs model options this response Hc Hf _ _ _ _ Hr Hs
             (read_loop_uniform w _ cs e loaded)).
  destruct (OpenRouterFacts.loadApiKey_run w this) as (_ & Hfr & Hrq).
  unfold epilogue, ends_normally.
  destruct (sentinel_seen w cs); [|destruct e];
    cbn [trace outcome];
    rewrite ?fragments_app, ?requests_app, Hfr, ?Hrq;
    cbn [fragments requests app];
    rewrite ?fragments_app, ?requests_app, ?fragments_yielded, ?requests_yielded;
    rewrite ?app_nil_r; auto.
Qed.

Lemma lm_stream_frames (w : World) (groups : list (list frame)) (e : stream_end)
    (response : Response) msgs model options (this : LMStudioAPI.LMStudioAPI) :
  Forall (Forall well_framed) groups ->
  opt_stream options <> Some false ->
  streams response (map wire_all groups) e ->
  fetch w (LMStudioAPI.chat_request this msgs model options) = Resolved response ->
  let r := LMStudioAPI.sendMessage w msgs model options this in
  fragments (trace r) =
    texts_until_done w (List.concat groups)
    ++ epilogue LMStudioAPI.apology (existsb is_done (List.concat groups)) e
  /\ ends_normally r
  /\ requests (trace r) = [LMStudioAPI.chat_request this msgs model options].
Proof.
  intros Hg Hs Hr Hf.
  destruct (decoded_frames w groups Hg) as [<- <-].
  exact (lm_stream_any w _ e response msgs model options this Hs Hr Hf).
Qed.

Lemma or_stream_frames (w : World) (groups : list (list frame)) (e : stream_end)
    (response : Response) msgs model options (this : OpenRouterAPI.OpenRouterAPI) :
  let loaded := final (OpenRouterAPI.loadApiKey w this) in
  Forall (Forall well_framed) groups ->
  opt_stream options <> Some false ->
  streams response (map wire_all groups) e ->
  OpenRouterAPI.isConfigured loaded = true ->
  fetch w (OpenRouterAPI.chat_request w loaded msgs model options)
    = Resolved response ->
  let r := OpenRouterAPI.sendMessage w msgs model options this in
  fragments (trace r) =
    texts_until_done w (List.concat groups)
    ++ epilogue OpenRouterAPI.apology (existsb is_done (List.concat groups)) e
  /\ ends_normally r
  /\ requests (trace r) = [OpenRouterAPI.chat_request w loaded msgs model options].
Proof.
  intros loaded Hg Hs Hr Hc Hf.
  destruct (decoded_frames w groups Hg) as [<- <-].
  exact (or_stream_any w _ e response msgs model options this Hs Hr Hc Hf).
Qed.

Lemma no_LF_check (p : jsstring) :
  forallb (fun c => negb (c =? LF)) p = true -> ~ In LF p.
Proof.
  intros H HI. rewrite forallb_forall in H. specialize (H _ HI).
  rewrite N.eqb_refl in H. discriminate.
Qed.

(* ================================================================== *)
(** ** Streaming: frames in, fragments out *)

(** C3 (as amended). When every network chunk holds whole frames of a valid
    stream, [sendMessage] in streaming mode yields exactly the texts of the
    frames, in frame order, up to the first [data: [DONE]] frame, whatever
    follows it, and ends without an error; this on both clients. *)
Theorem sendMessage_yields_frame_texts
    (w : World) (groups : list (list frame)) (response : Response)
    (msgs : list Message) (model : jsstring) (options : Options) :
  sentinel_rejected w ->
  Forall (Forall (valid w)) groups ->
  opt_stream options <> Some false ->
  streams response (map wire_all groups) Closed ->
  (forall this,
     fetch w (LMStudioAPI.chat_request this msgs model options)
       = Resolved response ->
     let r := LMStudioAPI.sendMessage w msgs model options this in
     fragments (trace r) = texts_until_done w (List.concat groups)
     /\ ends_normally r)
  /\
  (forall this,
     OpenRouterAPI.isConfigured (final (OpenRouterAPI.loadApiKey w this)) = true ->
     fetch w (OpenRouterAPI.chat_request
                w (final (OpenRouterAPI.loadApiKey w this)) msgs model options)
       = Resolved response ->
     let r := OpenRouterAPI.sendMessage w msgs model options this in
     fragments (trace r) = texts_until_done w (List.concat groups)
     /\ ends_normally r).
Proof.
  intros Hsent Hvalid Hs Hr.
  assert (Hwf : Forall (Forall well_framed) groups).
  { eapply Forall_impl; [|exact Hvalid]. intros g Hg.
    eapply Forall_impl; [|exact Hg]. intros f. now apply valid_well_framed. }
  split; intros this.
  - intros Hf r.
    destruct (lm_stream_frames w groups Closed response msgs model options this
                Hwf Hs Hr Hf) as (H1 & H2 & _).
    split; [|exact H2]. subst r. rewrite H1. unfold epilogue.
    destruct (existsb _ _); apply app_nil_r.
  - intros Hc Hf r.
    destruct (or_stream_frames w groups Closed response msgs model options this
                Hwf Hs Hr Hc Hf) as (H1 & H2 & _).
    split; [|exact H2]. subst r. rewrite H1. unfold epilogue.
    destruct (existsb _ _); apply app_nil_r.
Qed.

Lemma hi_there_valid : Forall (Forall (valid (mock_world (ok_stream (map wire_all hi_there) Closed) (Resolved [])))) hi_there.
Proof.
  repeat constructor;
    try (apply no_LF_check; vm_compute; reflexivity);
    eexists; vm_compute; reflexivity.
Defined.

Lemma sendMessage_yields_frame_texts_witness :
  let w := mock_world (ok_stream (map wire_all hi_there) Closed) (Resolved []) in
  fragments (trace (LMStudioAPI.sendMessage w hello (js "test-model")
                      no_options local_client))
    = [JString (js "Hi"); JString (js " there")]
  /\ fragments (trace (OpenRouterAPI.sendMessage w hello (js "test-model")
                         no_options cloud_client))
    = [JString (js "Hi"); JString (js " there")].
Proof.
  intros w.
  assert (Hs : opt_stream no_options <> Some false) by discriminate.
  assert (Hr : streams (ok_stream (map wire_all hi_there) Closed)
                       (map wire_all hi_there) Closed) by (split; reflexivity).
  destruct (sendMessage_yields_frame_texts w hi_there _ hello (js "test-model")
              no_options eq_refl hi_there_valid Hs Hr) as [HL HO].
  split.
  - destruct (HL local_client eq_refl) as [-> _]. vm_compute. reflexivity.
  - destruct (HO cloud_client eq_refl eq_refl) as [-> _]. vm_compute. reflexivity.
Defined.

(** C3, as stated, fails: the loop splits each chunk into lines on its own
    and carries nothing over to the next chunk.  Here the one frame of a
    valid stream arrives cut in two; neither half is a frame, and its text
    is lost. *)
Lemma sendMessage_split_frame_lost :
  let frames := [delta "Hi"; Done] in
  let cs := [firstn 20 (wire_all frames); skipn 20 (wire_all frames)] in
  let w := mock_world (ok_stream cs Closed) (Resolved []) in
  List.concat cs = wire_all frames
  /\ Forall (valid w) frames
  /\ texts_until_done w frames = [JString (js "Hi")]
  /\ fragments (trace (LMStudioAPI.sendMessage w hello (js "test-model")
                         no_options local_client)) = []
  /\ fragments (trace (OpenRouterAPI.sendMessage w hello (js "test-model")
                         no_options cloud_client)) = [].
Proof.
  intros frames cs w. split; [vm_compute; reflexivity|]. split.
  - repeat constructor;
      try (apply no_LF_check; vm_compute; reflexivity);
      eexists; vm_compute; reflexivity.
  - repeat split; vm_compute; reflexivity.
Qed.

(* ================================================================== *)
(** ** A failure in the middle of the stream *)

(** C4. Chunks arrive, whatever their boundaries, then [read()] rejects
    before any sentinel was seen: the consumer has received every fragment
    the loop decoded from the chunks delivered, then receives the apology as
    one last fragment, and the generator ends without an error; this on both
    clients, each with its own apology.  When the chunks hold whole valid
    frames, what was decoded is the texts of those frames. *)
Theorem sendMessage_midstream_failure
    (w : World) (cs : list jsstring) (err : exn) (response : Response)
    (msgs : list Message) (model : jsstring) (options : Options) :
  opt_stream options <> Some false ->
  streams response cs (Errored err) ->
  sentinel_seen w cs = false ->
  (forall this,
     fetch w (LMStudioAPI.chat_request this msgs model options)
       = Resolved response ->
     let r := LMStudioAPI.sendMessage w msgs model options this in
     fragments (trace r) = decoded w cs ++ [JString LMStudioAPI.apology]
     /\ ends_normally r)
  /\
  (forall this,
     OpenRouterAPI.isConfigured (final (OpenRouterAPI.loadApiKey w this)) = true ->
     fetch w (OpenRouterAPI.chat_request
                w (final (OpenRouterAPI.loadApiKey w this)) msgs model options)
       = Resolved response ->
     let r := OpenRouterAPI.sendMessage w msgs model options this in
     fragments (trace r) = decoded w cs ++ [JString OpenRouterAPI.apology]
     /\ ends_normally r)
  /\
  (forall groups,
     sentinel_rejected w ->
     Forall (Forall (valid w)) groups ->
     cs = map wire_all groups ->
     decoded w cs = texts_until_done w (List.concat groups)).
Proof.
  intros Hs Hr Hseen.
  split; [|split].
  - intros this Hf r.
    destruct (lm_stream_any w cs (Errored err) response msgs model options
                this Hs Hr Hf) as (H1 & H2 & _).
    split; [|exact H2]. subst r. rewrite H1. unfold epilogue.
    rewrite Hseen. reflexivity.
  - intros this Hc Hf r.
    destruct (or_stream_any w cs (Errored err) response msgs model options
                this Hs Hr Hc Hf) as (H1 & H2 & _).
    split; [|exact H2]. subst r. rewrite H1. unfold epilogue.
    rewrite Hseen. reflexivity.
  - intros groups Hsent Hvalid ->.
    apply decoded_frames.
    eapply Forall_impl; [|exact Hvalid]. intros g Hg.
    eapply Forall_impl; [|exact Hg]. intros f. now apply valid_well_framed.
Qed.

Lemma dropped_valid :
  Forall (Forall (valid (mock_world dropped (Resolved [])))) [[delta "Hi"]].
Proof.
  repeat constructor;
    try (apply no_LF_check; vm_compute; reflexivity);
    eexists; vm_compute; reflexivity.
Defined.

Lemma sendMessage_midstream_failure_witness :
  let w := mock_world dropped (Resolved []) in
  fragments (trace (LMStudioAPI.sendMessage w hello (js "test-model")
                      no_options local_client))
    = [JString (js "Hi"); JString LMStudioAPI.apology]
  /\ fragments (trace (OpenRouterAPI.sendMessage w hello (js "test-model")
                         no_options cloud_client))
    = [JString (js "Hi"); JString OpenRouterAPI.apology].
Proof.
  intros w.
  assert (Hs : opt_stream no_options <> Some false) by discriminate.
  assert (Hr : streams dropped (map wire_all [[delta "Hi"]])
                       (Errored (Failure (js "network error"))))
    by (split; reflexivity).
  destruct (sendMessage_midstream_failure w (map wire_all [[delta "Hi"]]) _
              dropped hello (js "test-model") no_options Hs Hr eq_refl)
    as (HL & HO & HF).
  rewrite (HF [[delta "Hi"]] eq_refl dropped_valid eq_refl) in HL, HO.
  split.
  - destruct (HL local_client eq_refl) as [-> _]. vm_compute. reflexivity.
  - destruct (HO cloud_client eq_refl eq_refl) as [-> _]. vm_compute. reflexivity.
Defined.

(* ================================================================== *)
(** ** Malformed frames *)

(** C5 (as amended). In a stream delivered in chunks of whole frames, each
    frame valid or malformed, the fragments are exactly the texts of the
    valid frames, in their order (up to a sentinel, if there is one), and
    the generator ends without an error: a malformed frame is passed over
    and the frames after it are still decoded.  This on both clients. *)
Theorem sendMessage_skips_malformed
    (w : World) (groups : list (list frame)) (response : Response)
    (msgs : list Message) (model : jsstring) (options : Options) :
  sentinel_rejected w ->
  Forall (Forall (fun f => valid w f \/ malformed w f)) groups ->
  opt_stream options <> Some false ->
  streams response (map wire_all groups) Closed ->
  (forall this,
     fetch w (LMStudioAPI.chat_request this msgs model options)
       = Resolved response ->
     let r := LMStudioAPI.sendMessage w msgs model options this in
     fragments (trace r) =
       texts_until_done w (filter (is_valid w) (List.concat groups))
     /\ ends_normally r)
  /\
  (forall this,
     OpenRouterAPI.isConfigured (final (OpenRouterAPI.loadApiKey w this)) = true ->
     fetch w (OpenRouterAPI.chat_request
                w (final (OpenRouterAPI.loadApiKey w this)) msgs model options)
       = Resolved response ->
     let r := OpenRouterAPI.sendMessage w msgs model options this in
     fragments (trace r) =
       texts_until_done w (filter (is_valid w) (List.concat groups))
     /\ ends_normally r).
Proof.
  intros Hsent Hframes Hs Hr.
  assert (Hwf : Forall (Forall well_framed) groups).
  { eapply Forall_impl; [|exact Hframes]. intros g Hg.
    eapply Forall_impl; [|exact Hg]. intros f [Hv|Hm].
    - now apply (valid_well_framed w).
    - now apply (malformed_well_framed w). }
  rewrite texts_until_done_valid_only.
  split; intros this.
  - intros Hf r.
    destruct (lm_stream_frames w groups Closed response msgs model options
                this Hwf Hs Hr Hf) as (H1 & H2 & _).
    split; [|exact H2]. subst r. rewrite H1. unfold epilogue.
    destruct (existsb _ _); apply app_nil_r.
  - intros Hc Hf r.
    destruct (or_stream_frames w groups Closed response msgs model options
                this Hwf Hs Hr Hc Hf) as (H1 & H2 & _).
    split; [|exact H2]. subst r. rewrite H1. unfold epilogue.
    destruct (existsb _ _); apply app_nil_r.
Qed.

Ltac frame_is_valid :=
  left; split;
  [ apply no_LF_check; vm_compute; reflexivity
  | eexists; vm_compute; reflexivity ].

Ltac frame_is_malformed :=
  right; split;
  [ apply no_LF_check; vm_compute; reflexivity
  | split; [ intros E; vm_compute in E; discriminate E
           | vm_compute; reflexivity ] ].

Lemma interleaved_frames :
  Forall (Forall (fun f =>
            valid (mock_world (ok_stream (map wire_all interleaved) Closed)
                              (Resolved [])) f
            \/ malformed (mock_world (ok_stream (map wire_all interleaved) Closed)
                                     (Resolved [])) f))
         interleaved.
Proof.
  repeat first [ apply Forall_nil | apply Forall_cons ];
    first [ frame_is_valid | frame_is_malformed ].
Defined.

Lemma sendMessage_skips_malformed_witness :
  let w := mock_world (ok_stream (map wire_all interleaved) Closed) (Resolved []) in
  fragments (trace (LMStudioAPI.sendMessage w hello (js "test-model")
                      no_options local_client))
    = [JString (js "Hi"); JString (js " there")]
  /\ fragments (trace (OpenRouterAPI.sendMessage w hello (js "test-model")
                         no_options cloud_client))
    = [JString (js "Hi"); JString (js " there")].
Proof.
  intros w.
  assert (Hs : opt_stream no_options <> Some false) by discriminate.
  assert (Hr : streams (ok_stream (map wire_all interleaved) Closed)
                       (map wire_all interleaved) Closed) by (split; reflexivity).
  destruct (sendMessage_skips_malformed w interleaved _ hello (js "test-model")
              no_options eq_refl interleaved_frames Hs Hr) as [HL HO].
  split.
  - destruct (HL local_client eq_refl) as [-> _]. vm_compute. reflexivity.
  - destruct (HO cloud_client eq_refl eq_refl) as [-> _]. vm_compute. reflexivity.
Defined.

(** C5, as stated, fails: "every input stream" includes streams whose
    chunks end inside a frame.  Here a malformed frame is followed by a
    valid one and the sentinel, and the chunk boundary falls inside the
    valid frame: the malformed frame is passed over, but the valid frame's
    text is lost with it, where the claim promises it. *)
Lemma sendMessage_malformed_then_split_lost :
  let frames := [Data (js "{not json"); delta "Hi"; Done] in
  let cs := [firstn 35 (wire_all frames); skipn 35 (wire_all frames)] in
  let w := mock_world (ok_stream cs Closed) (Resolved []) in
  List.concat cs = wire_all frames
  /\ Forall (fun f => valid w f \/ malformed w f) frames
  /\ Exists (malformed w) frames
  /\ texts_until_done w (filter (is_valid w) frames) = [JString (js "Hi")]
  /\ fragments (trace (LMStudioAPI.sendMessage w hello (js "test-model")
                         no_options local_client)) = []
  /\ fragments (trace (OpenRouterAPI.sendMessage w hello (js "test-model")
                         no_options cloud_client)) = [].
Proof.
  intros frames cs w. split; [vm_compute; reflexivity|].
  assert (Hm : malformed w (Data (js "{not json"))).
  { split; [apply no_LF_check; vm_compute; reflexivity|].
    split; [intros E; vm_compute in E; discriminate E|vm_compute; reflexivity]. }
  split; [|split].
  - apply Forall_cons; [right; exact Hm|].
    apply Forall_cons; [frame_is_valid|].
    apply Forall_cons; [left; exact I|apply Forall_nil].
  - apply Exists_cons_hd. exact Hm.
  - repeat split; vm_compute; reflexivity.
Qed.

(* ================================================================== *)
(** ** A non-success status on the initiating request *)




(* ================================================================== *)
(** ** The cloud client without a credential *)

(** C6. With no key in the instance and none to be had from the settings
    (an empty key, or a failed lookup), the cloud [sendMessage] yields exactly
    one fragment, the explanation, sends no request, and ends normally. *)
Theorem sendMessage_without_credential
    (w : World) (this : OpenRouterAPI.OpenRouterAPI)
    (msgs : list Message) (model : jsstring) (options : Options) :
  OpenRouterAPI.isConfigured this = false ->
  match getOpenRouterApiKey w with
  | Resolved key => key = []
  | Rejected _ => True
  end ->
  let r := OpenRouterAPI.sendMessage w msgs model options this in
  fragments (trace r) = [JString OpenRouterAPI.unconfigured]
  /\ requests (trace r) = []
  /\ outcome r = Normal tt.
Proof.
  intros Hc Hk r. subst r.
  rewrite (OpenRouterFacts.sendMessage_unconfigured w msgs model options this
             (OpenRouterFacts.loadApiKey_nothing w this Hc Hk)).
  destruct (OpenRouterFacts.loadApiKey_run w this) as (_ & Hfr & Hrq).
  cbn [trace outcome]. rewrite fragments_app, requests_app, Hfr, Hrq.
  repeat split.
Qed.

Lemma sendMessage_without_credential_witness :
  let stored_nothing := mock_world (ok_stream [] Closed) (Resolved []) in
  let lookup_fails :=
    mock_world (ok_stream [] Closed) (Rejected (Failure (js "offline"))) in
  (fragments (trace (OpenRouterAPI.sendMessage stored_nothing hello
                       (js "test-model") no_options keyless_client))
     = [JString OpenRouterAPI.unconfigured]
   /\ requests (trace (OpenRouterAPI.sendMessage stored_nothing hello
                         (js "test-model") no_options keyless_client)) = []
   /\ outcome (OpenRouterAPI.sendMessage stored_nothing hello
                 (js "test-model") no_options keyless_client) = Normal tt)
  /\
  (fragments (trace (OpenRouterAPI.sendMessage lookup_fails hello
                       (js "test-model") no_options keyless_client))
     = [JString OpenRouterAPI.unconfigured]
   /\ requests (trace (OpenRouterAPI.sendMessage lookup_fails hello
                         (js "test-model") no_options keyless_client)) = []
   /\ outcome (OpenRouterAPI.sendMessage lookup_fails hello
                 (js "test-model") no_options keyless_client) = Normal tt).
Proof.
  intros stored_nothing lookup_fails. split.
  - exact (sendMessage_without_credential stored_nothing keyless_client hello
             (js "test-model") no_options eq_refl eq_refl).
  - exact (sendMessage_without_credential lookup_fails keyless_client hello
             (js "test-model") no_options eq_refl I).
Defined.

(* ================================================================== *)
(** ** The availability probe *)

(** C7. [isAvailable] always returns a boolean and never throws: it sends the
    one catalog request, bounded by a 5000 ms abort signal, and answers
    [true] exactly when that request resolves with a success status; a
    rejection of [fetch] (network error, or the abort when the time is up)
    and a non-success status both give [false]. *)
Theorem isAvailable_never_throws (w : World) (this : LMStudioAPI.LMStudioAPI) :
  let r := LMStudioAPI.isAvailable w this in
  (exists b,
     outcome r = Normal b
     /\ (b = true <->
         exists response,
           fetch w (LMStudioAPI.probe_request this) = Resolved response
           /\ ok response = true))
  /\ requests (trace r) = [LMStudioAPI.probe_request this]
  /\ url (LMStudioAPI.probe_request this)
       = LMStudioAPI.baseUrl this ++ js "/v1/models"
  /\ signal_timeout (LMStudioAPI.probe_request this) = Some 5000.
Proof.
  intros r. subst r.
  unfold LMStudioAPI.isAvailable. rewrite bind_get.
  unfold try_catch, bind, fetch_. cbn [outcome final trace after].
  destruct (fetch w (LMStudioAPI.probe_request this)) as [response|e];
    cbn [outcome final trace after ret app requests].
  - split; [|repeat split].
    exists (ok response). split; [reflexivity|]. split.
    + intros H. exists response. now split.
    + intros (response' & E & H). injection E as <-. exact H.
  - split; [|repeat split].
    exists false. split; [reflexivity|]. split.
    + discriminate.
    + intros (response' & E & _). discriminate E.
Qed.

(* ================================================================== *)
(** ** Streaming disabled *)

(** C8. With [stream: false], a success status and a body whose
    [choices[0].message.content] is the text [s], [sendMessage] yields
    exactly one fragment, [s], and ends normally; this on both clients. *)
Theorem sendMessage_non_streaming_text
    (w : World) (response : Response) (data : value) (s : jsstring)
    (msgs : list Message) (model : jsstring) (options : Options) :
  ok response = true ->
  opt_stream options = Some false ->
  json response = Resolved data ->
  message_content data = Some (JString s) ->
  (forall this,
     fetch w (LMStudioAPI.chat_request this msgs model options)
       = Resolved response ->
     let r := LMStudioAPI.sendMessage w msgs model options this in
     fragments (trace r) = [JString s] /\ outcome r = Normal tt)
  /\
  (forall this,
     OpenRouterAPI.isConfigured (final (OpenRouterAPI.loadApiKey w this)) = true ->
     fetch w (OpenRouterAPI.chat_request
                w (final (OpenRouterAPI.loadApiKey w this)) msgs model options)
       = Resolved response ->
     let r := OpenRouterAPI.sendMessage w msgs model options this in
     fragments (trace r) = [JString s] /\ outcome r = Normal tt).
Proof.
  intros Hok Hs Hjson Hcontent.
  assert (Hnull : data <> JNull) by (intros ->; discriminate Hcontent).
  assert (Hy : (if truthy (message_content data)
                then default (JString []) (message_content data)
                else JString []) = JString s).
  { rewrite Hcontent. destruct s; reflexivity. }
  split; intros this.
  - intros Hf r. subst r.
    rewrite (LMStudioFacts.lm_sendMessage_json
               w msgs model options this response Hf data Hok Hs Hjson Hnull).
    rewrite Hy. split; reflexivity.
  - intros Hc Hf r. subst r.
    rewrite (OpenRouterFacts.or_sendMessage_json
               w msgs model options this response Hc Hf data Hok Hs Hjson Hnull).
    destruct (OpenRouterFacts.loadApiKey_run w this) as (_ & Hfr & _).
    cbn [trace outcome]. rewrite fragments_app, Hfr, Hy. split; reflexivity.
Qed.

Lemma sendMessage_non_streaming_text_witness :
  let w := mock_world full_answer (Resolved []) in
  fragments (trace (LMStudioAPI.sendMessage w hello (js "test-model")
                      not_streaming local_client))
    = [JString (js "Hi there")]
  /\ fragments (trace (OpenRouterAPI.sendMessage w hello (js "test-model")
                         not_streaming cloud_client))
    = [JString (js "Hi there")].
Proof.
  intros w.
  assert (Hj : exists data, json full_answer = Resolved data
                            /\ message_content data = Some (JString (js "Hi there"))).
  { eexists. split; vm_compute; reflexivity. }
  destruct Hj as (data & Hjson & Hcontent).
  destruct (sendMessage_non_streaming_text w full_answer data (js "Hi there") hello
              (js "test-model") not_streaming eq_refl eq_refl Hjson Hcontent)
    as [HL HO].
  split.
  - exact (proj1 (HL local_client eq_refl)).
  - exact (proj1 (HO cloud_client eq_refl eq_refl)).
Defined.

(* ================================================================== *)
(** ** Which requests are sent *)

Lemma requests_bind {S A B} (m : M S A) (k : A -> M S B) (this : S) :
  requests (trace (bind m k this)) =
  requests (trace (m this))
  ++ match outcome (m this) with
     | Normal a => requests (trace (k a (final (m this))))
     | _ => []
     end.
Proof.
  unfold bind. destruct (outcome (m this)); cbn [trace];
    rewrite ?requests_app, ?app_nil_r; reflexivity.
Qed.

Lemma requests_try_catch {S A} (m : M S A) (h : exn -> M S A) (this : S) :
  requests (trace (try_catch m h this)) =
  requests (trace (m this))
  ++ match outcome (m this) with
     | Throw e => requests (trace (h e (final (m this))))
     | _ => []
     end.
Proof.
  unfold try_catch. destruct (outcome (m this)); cbn [trace];
    rewrite ?requests_app, ?app_nil_r; reflexivity.
Qed.

Lemma silent_bind {S A B} (m : M S A) (k : A -> M S B) :
  silent m -> (forall a, silent (k a)) -> silent (bind m k).
Proof.
  intros Hm Hk this. rewrite requests_bind, Hm.
  destruct (outcome (m this)); [apply Hk|reflexivity|reflexivity].
Qed.

Lemma silent_try_catch {S A} (m : M S A) (h : exn -> M S A) :
  silent m -> (forall e, silent (h e)) -> silent (try_catch m h).
Proof.
  intros Hm Hh this. rewrite requests_try_catch, Hm.
  destruct (outcome (m this)); [reflexivity|reflexivity|apply Hh].
Qed.

Lemma silent_ret {S A} (a : A) : silent (@ret S A a).
Proof. intros this. reflexivity. Qed.

Lemma silent_throw {S A} (e : exn) : silent (@throw S A e).
Proof. intros this. reflexivity. Qed.

Lemma silent_yield {S} (v : value) : silent (@yield S v).
Proof. intros this. reflexivity. Qed.

Lemma silent_await {S A} (p : promise A) : silent (@await S A p).
Proof. destruct p; intros this; reflexivity. Qed.

Lemma silent_put {S} (s : S) : silent (put s).
Proof. intros this. reflexivity. Qed.

Lemma silent_dot {S} (k : jsstring) (v : value) : silent (@dot S k v).
Proof. destruct v; intros this; reflexivity. Qed.

Lemma silent_stream_branch {S} (w : World) (b : ReadableStream) :
  silent (@stream_branch w S b).
Proof.
  intros this. unfold stream_branch, try_finally.
  destruct (read_loop_quiet w S (chunks b) (ending b) this) as (ys & c & -> & _).
  cbn [releaseLock ret outcome final trace].
  destruct c; cbn [trace]; rewrite app_nil_r; apply requests_yielded.
Qed.

Lemma silent_json_branch {S} (response : Response) :
  silent (@json_branch S response).
Proof.
  unfold json_branch.
  apply silent_bind; [apply silent_await|]. intros data.
  apply silent_bind; [apply silent_dot|]. intros choices.
  apply silent_yield.
Qed.

Lemma silent_map_models (elements : list value) :
  silent (OpenRouterAPI.map_models elements).
Proof.
  induction elements as [|model rest IH]; simpl.
  - apply silent_ret.
  - apply silent_bind; [apply silent_dot|]. intros id.
    apply silent_bind; [exact IH|]. intros ms. apply silent_ret.
Qed.

(** After [fetch], everything [sendMessage] does is local. *)
Lemma lm_after_fetch_silent (w : World) (options : Options) (response : Response) :
  silent
    ((if negb (ok response)
      then throw (JsError (js "LMStudio API error: " ++ statusText response))
      else ret tt) ;;
     match default true (opt_stream options), response_body response with
     | true, Some b => @stream_branch w LMStudioAPI.LMStudioAPI b
     | _, _ => json_branch response
     end).
Proof.
  apply silent_bind.
  - destruct (negb (ok response)); [apply silent_throw|apply silent_ret].
  - intros _. destruct (default true (opt_stream options));
      [destruct (response_body response)|];
      first [apply silent_stream_branch | apply silent_json_branch].
Qed.

Lemma or_after_fetch_silent (w : World) (options : Options) (response : Response) :
  silent
    ((if negb (ok response)
      then errorText <- await (text response) ;;
           throw (JsError (js "OpenRouter API error: " ++ statusText response
                           ++ js " - " ++ errorText))
      else ret tt) ;;
     match default true (opt_stream options), response_body response with
     | true, Some b => @stream_branch w OpenRouterAPI.OpenRouterAPI b
     | _, _ => json_branch response
     end).
Proof.
  apply silent_bind.
  - destruct (negb (ok response)); [|apply silent_ret].
    apply silent_bind; [apply silent_await|]. intros t. apply silent_throw.
  - intros _. destruct (default true (opt_stream options));
      [destruct (response_body response)|];
      first [apply silent_stream_branch | apply silent_json_branch].
Qed.

(** One request, then only local work. *)
Lemma requests_fetch_then {S A} (w : World) (r : request)
    (k : Response -> M S A) (h : exn -> M S A) (this : S) :
  (forall response, silent (k response)) ->
  (forall e, silent (h e)) ->
  requests (trace (try_catch (response <- fetch_ w r ;; k response) h this)) = [r].
Proof.
  intros Hk Hh. rewrite requests_try_catch, requests_bind.
  unfold bind, fetch_. cbn [trace outcome final requests].
  destruct (fetch w r) as [response|e]; cbn [trace outcome final app].
  - rewrite Hk. cbn [app].
    destruct (outcome (k response this)); cbn [outcome]; rewrite ?Hh; reflexivity.
  - rewrite Hh. reflexivity.
Qed.

Section CloudRequests.
Import OpenRouterAPI.
Variable w : World.
Variable this : OpenRouterAPI.

Let loaded : OpenRouterAPI := final (loadApiKey w this).

Lemma sendMessage_requests (msgs : list Message) (model : jsstring)
    (options : Options) :
  requests (trace (sendMessage w msgs model options this)) =
  if isConfigured loaded then [chat_request w loaded msgs model options] else [].
Proof.
  unfold sendMessage.
  erewrite bind_normal by exact (proj1 (OpenRouterFacts.loadApiKey_run w this)).
  rewrite bind_get. fold loaded. unfold after. cbn [trace].
  rewrite !requests_app, (proj2 (proj2 (OpenRouterFacts.loadApiKey_run w this))).
  cbn [app requests].
  destruct (isConfigured loaded); cbn [negb]; [|reflexivity].
  apply requests_fetch_then.
  - intros response. apply or_after_fetch_silent.
  - intros e. apply silent_yield.
Qed.

Lemma getModels_requests :
  requests (trace (getModels w this)) =
  if isConfigured loaded then [models_request loaded] else [].
Proof.
  unfold getModels.
  erewrite bind_normal by exact (proj1 (OpenRouterFacts.loadApiKey_run w this)).
  rewrite bind_get. fold loaded. unfold after. cbn [trace].
  rewrite !requests_app, (proj2 (proj2 (OpenRouterFacts.loadApiKey_run w this))).
  cbn [app requests].
  destruct (isConfigured loaded); cbn [negb]; [|reflexivity].
  apply requests_fetch_then.
  - intros response.
    apply silent_bind.
    { destruct (negb (ok response)); [apply silent_throw|apply silent_ret]. }
    intros _. apply silent_bind; [apply silent_await|]. intros data.
    apply silent_bind; [apply silent_dot|]. intros [[| | | |elements|]|];
      first [apply silent_ret | apply silent_throw | apply silent_map_models].
  - intros e. apply silent_ret.
Qed.

Lemma getUsage_requests :
  requests (trace (getUsage w this)) =
  if isConfigured loaded then [usage_request loaded] else [].
Proof.
  unfold getUsage.
  erewrite bind_normal by exact (proj1 (OpenRouterFacts.loadApiKey_run w this)).
  rewrite bind_get. fold loaded. unfold after. cbn [trace].
  rewrite !requests_app, (proj2 (proj2 (OpenRouterFacts.loadApiKey_run w this))).
  cbn [app requests].
  destruct (isConfigured loaded); cbn [negb]; [|reflexivity].
  apply requests_fetch_then.
  - intros response. destruct (ok response); [|apply silent_ret].
    apply silent_bind; [apply silent_await|]. intros data. apply silent_ret.
  - intros e. apply silent_ret.
Qed.

End CloudRequests.

(* ================================================================== *)
(** ** The headers of the cloud client's requests *)

(** C2 (as amended). Every request the cloud client sends, for a chat
    completion, for the model catalog or for the usage, carries
    [Authorization: Bearer <key>], the key being the one the instance holds
    once it has looked for it.  The chat-completion request carries the two
    attribution headers as well ([HTTP-Referer], the origin of the page, and
    [X-Title: ZChat]); the catalog and usage requests carry neither. *)
Theorem cloud_requests_headers
    (w : World) (this : OpenRouterAPI.OpenRouterAPI)
    (msgs : list Message) (model : jsstring) (options : Options) :
  let key := OpenRouterAPI.apiKey (final (OpenRouterAPI.loadApiKey w this)) in
  let authorized r := header (js "Authorization") r = Some (js "Bearer " ++ key) in
  Forall (fun r => authorized r
                   /\ header (js "HTTP-Referer") r = Some (location_origin w)
                   /\ header (js "X-Title") r = Some (js "ZChat"))
         (requests (trace (OpenRouterAPI.sendMessage w msgs model options this)))
  /\ Forall (fun r => authorized r
                      /\ header (js "HTTP-Referer") r = None
                      /\ header (js "X-Title") r = None)
            (requests (trace (OpenRouterAPI.getModels w this)))
  /\ Forall (fun r => authorized r
                      /\ header (js "HTTP-Referer") r = None
                      /\ header (js "X-Title") r = None)
            (requests (trace (OpenRouterAPI.getUsage w this))).
Proof.
  intros key authorized. subst authorized key.
  rewrite sendMessage_requests, getModels_requests, getUsage_requests.
  destruct (OpenRouterAPI.isConfigured _);
    repeat split; repeat constructor.
Qed.

(** C2, as stated, fails: the catalog request and the usage request are sent
    with the [Authorization] header alone. *)
Lemma getModels_without_attribution :
  let w := mock_world catalog (Resolved []) in
  map headers (requests (trace (OpenRouterAPI.getModels w cloud_client)))
    = [[(js "Authorization", js "Bearer sk-or-test")]]
  /\ map (header (js "HTTP-Referer"))
         (requests (trace (OpenRouterAPI.getModels w cloud_client))) = [None]
  /\ map (header (js "X-Title"))
         (requests (trace (OpenRouterAPI.getModels w cloud_client))) = [None]
  /\ map headers (requests (trace (OpenRouterAPI.getUsage w cloud_client)))
    = [[(js "Authorization", js "Bearer sk-or-test")]].
Proof. repeat split; vm_compute; reflexivity. Qed.

(* ================================================================== *)
(** ** [getSimpleResponse] *)

Lemma upto_first_yield_fragments {S} (t : list (event S)) :
  snd (upto_first_yield t) = hd_error (fragments t).
Proof.
  induction t as [|[v|r|s] t IH]; simpl; try reflexivity;
    destruct (upto_first_yield t); exact IH.
Qed.

(** A generator whose body is wrapped in [catch (error) { yield ... }], or
    which only yields, lets no error out. *)
Lemma try_catch_yield_ends {S} (m : M S unit) (v : value) (this : S) :
  ends_normally (try_catch m (fun _ => yield v) this).
Proof.
  unfold ends_normally, try_catch.
  destruct (outcome (m this)) eqn:E; cbn [outcome]; rewrite ?E; exact I.
Qed.

Lemma lm_sendMessage_ends (w : World) msgs model options this :
  ends_normally (LMStudioAPI.sendMessage w msgs model options this).
Proof.
  unfold LMStudioAPI.sendMessage. rewrite bind_get.
  unfold after, ends_normally. cbn [outcome].
  apply try_catch_yield_ends.
Qed.

Lemma or_sendMessage_ends (w : World) msgs model options this :
  ends_normally (OpenRouterAPI.sendMessage w msgs model options this).
Proof.
  unfold OpenRouterAPI.sendMessage.
  erewrite bind_normal by exact (proj1 (OpenRouterFacts.loadApiKey_run w this)).
  rewrite bind_get. unfold after, ends_normally. cbn [outcome].
  destruct (negb _); [exact I|]. apply try_catch_yield_ends.
Qed.

Lemma first_or_sentinel_outcome {S} (generator : M S unit) (this : S) :
  outcome (first_or_sentinel generator this) =
  match fragments (trace (generator this)) with
  | v :: _ =>
      Normal (if truthy (Some v) then v else JString (js "No response received"))
  | [] =>
      match outcome (generator this) with
      | Throw e => Throw e
      | _ => Normal (JString (js "No response received"))
      end
  end.
Proof.
  unfold first_or_sentinel, bind, next.
  pose proof (upto_first_yield_fragments (trace (generator this))) as H.
  destruct (upto_first_yield (trace (generator this))) as [p [v|]];
    simpl snd in H; destruct (fragments (trace (generator this))) as [|v' vs];
    try discriminate H.
  - injection H as ->. cbn [outcome ret]. reflexivity.
  - destruct (outcome (generator this)); reflexivity.
Qed.

(** With streaming disabled, [sendMessage] yields exactly one fragment in
    every world: the text, the empty string, the explanation or the
    apology. *)
Lemma lm_not_streaming_one_fragment (w : World) msgs model this :
  exists v,
    fragments (trace (LMStudioAPI.sendMessage w msgs model not_streaming this)) = [v].
Proof.
  unfold LMStudioAPI.sendMessage. rewrite bind_get. unfold after. cbn [trace app].
  unfold try_catch, bind, fetch_. cbn [trace outcome final].
  destruct (fetch w _) as [response|e]; cbn [trace outcome final app fragments];
    [|eexists; reflexivity].
  destruct (ok response); cbn [negb ret throw trace outcome final app fragments];
    [|eexists; reflexivity].
  cbn [not_streaming opt_stream default].
  unfold json_branch, bind, await.
  destruct (json response) as [data|e];
    cbn [ret throw trace outcome final app fragments yield];
    [|eexists; reflexivity].
  destruct data; cbn [dot ret throw trace outcome final app fragments yield];
    eexists; reflexivity.
Qed.

Lemma or_not_streaming_one_fragment (w : World) msgs model this :
  exists v,
    fragments (trace (OpenRouterAPI.sendMessage w msgs model not_streaming this)) = [v].
Proof.
  unfold OpenRouterAPI.sendMessage.
  erewrite bind_normal by exact (proj1 (OpenRouterFacts.loadApiKey_run w this)).
  rewrite bind_get. unfold after. cbn [trace].
  rewrite !fragments_app, (proj1 (proj2 (OpenRouterFacts.loadApiKey_run w this))).
  cbn [app fragments].
  destruct (OpenRouterAPI.isConfigured _); cbn [negb]; [|eexists; reflexivity].
  unfold try_catch, bind, fetch_. cbn [trace outcome final].
  destruct (fetch w _) as [response|e]; cbn [trace outcome final app fragments];
    [|eexists; reflexivity].
  destruct (ok response); cbn [negb ret throw trace outcome final app fragments].
  - cbn [not_streaming opt_stream default].
    unfold json_branch, bind, await.
    destruct (json response) as [data|e];
      cbn [ret throw trace outcome final app fragments yield];
      [|eexists; reflexivity].
    destruct data; cbn [dot ret throw trace outcome final app fragments yield];
      eexists; reflexivity.
  - unfold await. destruct (text response);
      cbn [ret throw trace outcome final app fragments yield]; eexists; reflexivity.
Qed.

(** C9 (as amended). [getSimpleResponse] returns the sentinel
    ["No response received"] when the generator finishes without a fragment,
    and also when the fragment it yields is falsy; otherwise it returns the
    first fragment.  On both clients the generator it drives yields exactly
    one fragment in every world, so [getSimpleResponse] never raises: it
    returns that fragment, or the sentinel when the fragment is the empty
    string. *)
Theorem getSimpleResponse_result :
  (forall S (generator : M S unit) (this : S),
     outcome (first_or_sentinel generator this) =
     match fragments (trace (generator this)) with
     | v :: _ =>
         Normal (if truthy (Some v) then v
                 else JString (js "No response received"))
     | [] =>
         match outcome (generator this) with
         | Throw e => Throw e
         | _ => Normal (JString (js "No response received"))
         end
     end)
  /\ (forall w msgs model this,
        exists v,
          fragments (trace (LMStudioAPI.sendMessage w msgs model not_streaming this))
            = [v]
          /\ outcome (LMStudioAPI.getSimpleResponse w msgs model this)
             = Normal (if truthy (Some v) then v
                       else JString (js "No response received")))
  /\ (forall w msgs model this,
        exists v,
          fragments (trace (OpenRouterAPI.sendMessage w msgs model not_streaming this))
            = [v]
          /\ outcome (OpenRouterAPI.getSimpleResponse w msgs model this)
             = Normal (if truthy (Some v) then v
                       else JString (js "No response received"))).
Proof.
  split; [|split].
  - intros S generator this. apply first_or_sentinel_outcome.
  - intros w msgs model this.
    destruct (lm_not_streaming_one_fragment w msgs model this) as [v Hv].
    exists v. split; [exact Hv|].
    unfold LMStudioAPI.getSimpleResponse. rewrite first_or_sentinel_outcome.
    change {| opt_temperature := None; opt_maxTokens := None;
              opt_stream := Some false |} with not_streaming.
    rewrite Hv. reflexivity.
  - intros w msgs model this.
    destruct (or_not_streaming_one_fragment w msgs model this) as [v Hv].
    exists v. split; [exact Hv|].
    unfold OpenRouterAPI.getSimpleResponse. rewrite first_or_sentinel_outcome.
    change {| opt_temperature := None; opt_maxTokens := None;
              opt_stream := Some false |} with not_streaming.
    rewrite Hv. reflexivity.
Qed.

(** C9, as stated, fails: the generator yields one fragment, the empty
    string, and [getSimpleResponse] returns the sentinel, not that
    fragment. *)
Lemma getSimpleResponse_empty_text :
  let w := mock_world empty_answer (Resolved []) in
  fragments (trace (LMStudioAPI.sendMessage w hello (js "test-model")
                      not_streaming local_client)) = [JString []]
  /\ outcome (LMStudioAPI.getSimpleResponse w hello (js "test-model") local_client)
     = Normal (JString (js "No response received"))
  /\ fragments (trace (OpenRouterAPI.sendMessage w hello (js "test-model")
                         not_streaming cloud_client)) = [JString []]
  /\ outcome (OpenRouterAPI.getSimpleResponse w hello (js "test-model") cloud_client)
     = Normal (JString (js "No response received")).
Proof. repeat split; vm_compute; reflexivity. Qed.

(* ================================================================== *)
(** ** The truthiness guard *)




(* ================================================================== *)
(** * Beyond the streaming clients: catalogs, credentials, settings and the
      chat page *)
(* ================================================================== *)
(** ** More on the decoding loop *)

Lemma bind_assoc {S A B C} (m : M S A) (k : A -> M S B) (h : B -> M S C)
    (this : S) :
  bind (bind m k) h this = bind m (fun a => bind (k a) h) this.
Proof.
  unfold bind. destruct (outcome (m this)); cbn [outcome final trace];
    [|reflexivity|reflexivity].
  destruct (outcome (k a (final (m this)))); cbn [outcome final trace];
    rewrite ?app_assoc; reflexivity.
Qed.

Lemma bind_ext {S A B} (m : M S A) (k k' : A -> M S B) (this : S) :
  (forall a s, k a s = k' a s) -> bind m k this = bind m k' this.
Proof.
  intros H. unfold bind. destruct (outcome (m this)); rewrite ?H; reflexivity.
Qed.

Lemma bind_cong_l {S A B} (m m' : M S A) (k : A -> M S B) (this : S) :
  m this = m' this -> bind m k this = bind m' k this.
Proof. intros H. unfold bind. rewrite H. reflexivity. Qed.

Lemma for_of_app {S A} (xs ys : list A) (body : A -> M S unit) (this : S) :
  for_of (xs ++ ys) body this =
  bind (for_of xs body) (fun _ => for_of ys body) this.
Proof.
  revert this. induction xs as [|x xs IH]; intros this.
  - simpl. unfold bind. cbn [ret outcome final trace].
    destruct (for_of ys body this); reflexivity.
  - simpl for_of. rewrite bind_assoc. apply bind_ext.
    intros _ s. apply IH.
Qed.

Lemma split_app (a b : jsstring) :
  split LF (a ++ LF :: b) = split LF a ++ split LF b.
Proof.
  induction a as [|c a IH]; simpl.
  - reflexivity.
  - destruct (c =? LF); [now rewrite IH|].
    rewrite IH. pose proof (split_nonempty a) as Hne.
    destruct (split LF a); [contradiction|reflexivity].
Qed.

Lemma startsWith_prefix (s p : jsstring) :
  startsWith s p = true -> exists rest, s = p ++ rest.
Proof.
  revert s. induction p as [|y p IH]; intros s H.
  - now exists s.
  - destruct s as [|x s]; simpl in H; [discriminate|].
    apply andb_true_iff in H as [Hx Hs]. apply N.eqb_eq in Hx. subst y.
    destruct (IH s Hs) as [rest ->]. now exists rest.
Qed.

Lemma startsWith_snoc (s p : jsstring) (c : code_unit) :
  startsWith s p = false -> ~ In c p -> startsWith (s ++ [c]) p = false.
Proof.
  revert s. induction p as [|y p IH]; intros s H Hc.
  - discriminate H.
  - destruct s as [|x s]; simpl in *.
    + destruct (c =? y) eqn:E; [|reflexivity].
      apply N.eqb_eq in E. exfalso. apply Hc. now left.
    + destruct (x =? y); [|reflexivity]. simpl in *.
      apply IH; [exact H|]. intros Hin. apply Hc. now right.
Qed.

Lemma trimStart_snoc (p : jsstring) (c : code_unit) :
  is_trim_space c = true ->
  (trimStart p = [] /\ trimStart (p ++ [c]) = [])
  \/ trimStart (p ++ [c]) = trimStart p ++ [c].
Proof.
  intros Hc. induction p as [|x p IH]; simpl.
  - left. rewrite Hc. now split.
  - destruct (is_trim_space x); [exact IH|]. now right.
Qed.

Lemma trim_snoc (p : jsstring) (c : code_unit) :
  is_trim_space c = true -> trim (p ++ [c]) = trim p.
Proof.
  intros Hc. unfold trim.
  destruct (trimStart_snoc p c Hc) as [[-> ->]| ->]; [reflexivity|].
  unfold trimEnd. rewrite rev_app_distr. simpl. rewrite Hc. reflexivity.
Qed.

(** What the loop does with the chunks [cs ++ rest], from what it does with
    [cs]. *)
Lemma read_loop_app (w : World) (S : Type) (cs rest : list jsstring)
    (e : stream_end) (this : S) :
  read_loop w (cs ++ rest) e this =
  if sentinel_seen w cs
  then mkRun (map Yielded (decoded w cs)) Return this
  else after (map Yielded (decoded w cs)) (read_loop w rest e this).
Proof.
  revert this. induction cs as [|chunk cs IH]; intros this.
  - simpl. unfold after. destruct (read_loop w rest e this); reflexivity.
  - simpl app. simpl read_loop. unfold bind at 1.
    pose proof (read_loop_uniform w unit (chunk :: cs) Closed tt) as Hu.
    simpl read_loop in Hu. unfold bind in Hu.
    rewrite (for_of_uniform w S (split LF chunk) this).
    rewrite (for_of_uniform w unit (split LF chunk) tt) in Hu.
    cbn [outcome final trace] in *.
    destruct (for_of_quiet w unit (split LF chunk) tt)
      as (ys & c & E & _ & [->| ->]); rewrite E in *; cbn [outcome final trace] in *.
    + rewrite IH.
      rewrite (read_loop_uniform w unit cs Closed tt) in Hu.
      cbn [outcome final trace] in Hu.
      rewrite fragments_yielded in *.
      injection Hu as Ht Ho.
      rewrite <- map_app in Ht.
      apply (f_equal (@fragments unit)) in Ht.
      rewrite !fragments_yielded in Ht.
      destruct (sentinel_seen w cs) eqn:Es.
      * assert (sentinel_seen w (chunk :: cs) = true) as ->
          by (destruct (sentinel_seen w (chunk :: cs)); congruence).
        cbn [trace outcome final]. rewrite <- Ht, map_app. reflexivity.
      * assert (sentinel_seen w (chunk :: cs) = false) as ->
          by (destruct (sentinel_seen w (chunk :: cs)); congruence).
        unfold after. cbn [trace outcome final].
        rewrite <- Ht, map_app, app_assoc. reflexivity.
    + injection Hu as Ht Ho. rewrite fragments_yielded in *.
      apply (f_equal (@fragments unit)) in Ht. rewrite !fragments_yielded in Ht.
      assert (sentinel_seen w (chunk :: cs) = true) as ->
        by (destruct (sentinel_seen w (chunk :: cs)); congruence).
      rewrite <- Ht. reflexivity.
Qed.

(* ================================================================== *)
(** ** Computations that leave the instance as it is *)

Lemma final_bind {S A B} (m : M S A) (k : A -> M S B) (this : S) :
  final (bind m k this) =
  match outcome (m this) with
  | Normal a => final (k a (final (m this)))
  | _ => final (m this)
  end.
Proof. unfold bind. destruct (outcome (m this)); reflexivity. Qed.

Lemma final_try_catch {S A} (m : M S A) (h : exn -> M S A) (this : S) :
  final (try_catch m h this) =
  match outcome (m this) with
  | Throw e => final (h e (final (m this)))
  | _ => final (m this)
  end.
Proof. unfold try_catch. destruct (outcome (m this)); reflexivity. Qed.

Lemma steady_bind {S A B} (m : M S A) (k : A -> M S B) :
  steady m -> (forall a, steady (k a)) -> steady (bind m k).
Proof.
  intros Hm Hk this. rewrite final_bind, Hm.
  destruct (outcome (m this)); [apply Hk|reflexivity|reflexivity].
Qed.

Lemma steady_try_catch {S A} (m : M S A) (h : exn -> M S A) :
  steady m -> (forall e, steady (h e)) -> steady (try_catch m h).
Proof.
  intros Hm Hh this. rewrite final_try_catch, Hm.
  destruct (outcome (m this)); [reflexivity|reflexivity|apply Hh].
Qed.

Lemma steady_ret {S A} (a : A) : steady (@ret S A a).
Proof. intros this. reflexivity. Qed.

Lemma steady_throw {S A} (e : exn) : steady (@throw S A e).
Proof. intros this. reflexivity. Qed.

Lemma steady_yield {S} (v : value) : steady (@yield S v).
Proof. intros this. reflexivity. Qed.

Lemma steady_await {S A} (p : promise A) : steady (@await S A p).
Proof. destruct p; intros this; reflexivity. Qed.

Lemma steady_get {S} : steady (@get S).
Proof. intros this. reflexivity. Qed.

Lemma steady_dot {S} (k : jsstring) (v : value) : steady (@dot S k v).
Proof. destruct v; intros this; reflexivity. Qed.

Lemma steady_fetch {S} (w : World) (r : request) : steady (@fetch_ w S r).
Proof. intros this. reflexivity. Qed.

Lemma steady_stream_branch {S} (w : World) (b : ReadableStream) :
  steady (@stream_branch w S b).
Proof.
  intros this. unfold stream_branch, try_finally.
  destruct (read_loop_quiet w S (chunks b) (ending b) this) as (ys & c & -> & _).
  cbn [releaseLock ret outcome final trace]. destruct c; reflexivity.
Qed.

Lemma steady_json_branch {S} (response : Response) :
  steady (@json_branch S response).
Proof.
  unfold json_branch.
  apply steady_bind; [apply steady_await|]. intros data.
  apply steady_bind; [apply steady_dot|]. intros choices.
  apply steady_yield.
Qed.

Lemma lm_after_fetch_steady (w : World) (options : Options) (response : Response) :
  steady
    ((if negb (ok response)
      then throw (JsError (js "LMStudio API error: " ++ statusText response))
      else ret tt) ;;
     match default true (opt_stream options), response_body response with
     | true, Some b => @stream_branch w LMStudioAPI.LMStudioAPI b
     | _, _ => json_branch response
     end).
Proof.
  apply steady_bind.
  - destruct (negb (ok response)); [apply steady_throw|apply steady_ret].
  - intros _. destruct (default true (opt_stream options));
      [destruct (response_body response)|];
      first [apply steady_stream_branch | apply steady_json_branch].
Qed.

Lemma or_after_fetch_steady (w : World) (options : Options) (response : Response) :
  steady
    ((if negb (ok response)
      then errorText <- await (text response) ;;
           throw (JsError (js "OpenRouter API error: " ++ statusText response
                           ++ js " - " ++ errorText))
      else ret tt) ;;
     match default true (opt_stream options), response_body response with
     | true, Some b => @stream_branch w OpenRouterAPI.OpenRouterAPI b
     | _, _ => json_branch response
     end).
Proof.
  apply steady_bind.
  - destruct (negb (ok response)); [|apply steady_ret].
    apply steady_bind; [apply steady_await|]. intros t. apply steady_throw.
  - intros _. destruct (default true (opt_stream options));
      [destruct (response_body response)|];
      first [apply steady_stream_branch | apply steady_json_branch].
Qed.

(** After the key was looked for, a method of the cloud client that only
    fetches and computes leaves the instance at what the lookup left. *)
Lemma final_after_load {A} (w : World) (this : OpenRouterAPI.OpenRouterAPI)
    (k : OpenRouterAPI.OpenRouterAPI -> M OpenRouterAPI.OpenRouterAPI A) :
  (forall s, steady (k s)) ->
  final ((OpenRouterAPI.loadApiKey w ;; s <- get ;; k s) this)
  = final (OpenRouterAPI.loadApiKey w this).
Proof.
  intros Hk.
  erewrite bind_normal by exact (proj1 (OpenRouterFacts.loadApiKey_run w this)).
  rewrite bind_get. unfold after. cbn [final]. apply Hk.
Qed.

Lemma lm_sendMessage_requests (w : World) msgs model options this :
  requests (trace (LMStudioAPI.sendMessage w msgs model options this))
  = [LMStudioAPI.chat_request this msgs model options].
Proof.
  unfold LMStudioAPI.sendMessage. rewrite bind_get. unfold after.
  cbn [trace app]. apply requests_fetch_then.
  - intros response. apply lm_after_fetch_silent.
  - intros e. apply silent_yield.
Qed.

Lemma lm_sendMessage_final (w : World) msgs model options this :
  final (LMStudioAPI.sendMessage w msgs model options this) = this.
Proof.
  unfold LMStudioAPI.sendMessage. rewrite bind_get. unfold after. cbn [final].
  apply steady_try_catch; [|intros e; apply steady_yield].
  apply steady_bind; [apply steady_fetch|]. intros response.
  apply lm_after_fetch_steady.
Qed.

Lemma or_sendMessage_final (w : World) msgs model options this :
  final (OpenRouterAPI.sendMessage w msgs model options this)
  = final (OpenRouterAPI.loadApiKey w this).
Proof.
  unfold OpenRouterAPI.sendMessage. apply final_after_load. intros s.
  destruct (negb (OpenRouterAPI.isConfigured s)); [apply steady_yield|].
  apply steady_try_catch; [|intros e; apply steady_yield].
  apply steady_bind; [apply steady_fetch|]. intros response.
  apply or_after_fetch_steady.
Qed.

(* ================================================================== *)
(** ** [sendMessage] in every world *)

(** X1. Whatever the world, the messages and the options, [sendMessage]
    lets no error out and leaves the client as it was (but for the key the
    cloud client may have found).  The local client sends exactly one
    request, its chat request; the cloud client sends its chat request when
    it holds a key after looking for one, and no request otherwise. *)
Theorem sendMessage_in_every_world
    (w : World) (msgs : list Message) (model : jsstring) (options : Options) :
  (forall this,
     let r := LMStudioAPI.sendMessage w msgs model options this in
     ends_normally r
     /\ requests (trace r) = [LMStudioAPI.chat_request this msgs model options]
     /\ final r = this)
  /\
  (forall this,
     let loaded := final (OpenRouterAPI.loadApiKey w this) in
     let r := OpenRouterAPI.sendMessage w msgs model options this in
     ends_normally r
     /\ requests (trace r) =
        (if OpenRouterAPI.isConfigured loaded
         then [OpenRouterAPI.chat_request w loaded msgs model options]
         else [])
     /\ final r = loaded).
Proof.
  split; intros this.
  - repeat split.
    + apply lm_sendMessage_ends.
    + apply lm_sendMessage_requests.
    + apply lm_sendMessage_final.
  - repeat split.
    + apply or_sendMessage_ends.
    + apply sendMessage_requests.
    + apply or_sendMessage_final.
Qed.

(** X2. Once the loop has met the sentinel, nothing that follows counts:
    neither later chunks nor a failure of the connection change the
    fragments, and no apology is added.  The generator returns. *)
Theorem nothing_after_sentinel
    (w : World) (cs rest : list jsstring) (e : stream_end) (response : Response)
    (msgs : list Message) (model : jsstring) (options : Options) :
  opt_stream options <> Some false ->
  streams response (cs ++ rest) e ->
  sentinel_seen w cs = true ->
  (forall this,
     fetch w (LMStudioAPI.chat_request this msgs model options)
       = Resolved response ->
     let r := LMStudioAPI.sendMessage w msgs model options this in
     fragments (trace r) = decoded w cs /\ outcome r = Return)
  /\
  (forall this,
     OpenRouterAPI.isConfigured (final (OpenRouterAPI.loadApiKey w this)) = true ->
     fetch w (OpenRouterAPI.chat_request
                w (final (OpenRouterAPI.loadApiKey w this)) msgs model options)
       = Resolved response ->
     let r := OpenRouterAPI.sendMessage w msgs model options this in
     fragments (trace r) = decoded w cs /\ outcome r = Return).
Proof.
  intros Hs Hr Hseen. split; intros this.
  - intros Hf r. subst r.
    pose proof (read_loop_app w _ cs rest e this) as Hloop.
    rewrite Hseen in Hloop.
    rewrite (@LMStudioFacts.lm_sendMessage_streaming
               w msgs model options this response Hf _ _ _ _ Hr Hs Hloop).
    cbn [trace outcome fragments]. rewrite fragments_yielded. now split.
  - intros Hc Hf r. subst r.
    pose proof (read_loop_app w _ cs rest e
                  (final (OpenRouterAPI.loadApiKey w this))) as Hloop.
    rewrite Hseen in Hloop.
    rewrite (@OpenRouterFacts.or_sendMessage_streaming
               w msgs model options this response Hc Hf _ _ _ _ Hr Hs Hloop).
    destruct (OpenRouterFacts.loadApiKey_run w this) as (_ & Hfr & _).
    cbn [trace outcome]. rewrite fragments_app, Hfr. cbn [fragments app].
    rewrite fragments_yielded. now split.
Qed.

(** X3. A chunk boundary may move from one line end to another: a chunk that
    ends with a line feed and the chunk after it are decoded as the two put
    together, with the same fragments and the same completion. *)
Theorem line_end_boundaries_agree
    (w : World) (S : Type) (a next : jsstring) (cs : list jsstring)
    (e : stream_end) (this : S) :
  read_loop w ((a ++ [LF]) :: next :: cs) e this
  = read_loop w (((a ++ [LF]) ++ next) :: cs) e this.
Proof.
  simpl read_loop.
  assert (E1 : for_of (split LF (a ++ [LF])) (@on_line w S) this
               = bind (for_of (split LF a) (@on_line w S))
                      (fun _ => for_of [[]] (@on_line w S)) this).
  { change (a ++ [LF]) with (a ++ LF :: []). rewrite split_app.
    apply for_of_app. }
  assert (E2 : for_of (split LF ((a ++ [LF]) ++ next)) (@on_line w S) this
               = bind (for_of (split LF a) (@on_line w S))
                      (fun _ => for_of (split LF next) (@on_line w S)) this).
  { rewrite <- app_assoc. simpl app. rewrite split_app. apply for_of_app. }
  rewrite (bind_cong_l _ _ _ _ E1), (bind_cong_l _ _ _ _ E2), !bind_assoc.
  apply bind_ext. intros _ s.
  assert (E3 : for_of [[]] (@on_line w S) s = mkRun [] (Normal tt) s)
    by reflexivity.
  unfold bind at 1. rewrite E3. cbn [outcome final trace app].
  destruct (bind _ _ s); reflexivity.
Qed.

(** X4. A carriage return at the end of a line changes nothing: after the
    split at line feeds, a line ended by CR LF is handled as the line ended
    by LF alone, whether it is a data line, the sentinel or any other
    line. *)
Theorem carriage_return_ignored
    (w : World) (S : Type) (line : jsstring) (this : S) :
  on_line w (line ++ [13]) this = on_line w line this.
Proof.
  unfold on_line.
  destruct (startsWith line (js "data: ")) eqn:E.
  - apply startsWith_prefix in E as [p ->].
    rewrite <- app_assoc, !startsWith_app.
    change 6%nat with (List.length (js "data: ")). rewrite !slice_app.
    rewrite trim_snoc by reflexivity. reflexivity.
  - rewrite startsWith_snoc; [reflexivity|exact E|].
    intros H. repeat (destruct H as [H|H]; [discriminate H|]). exact H.
Qed.

(* ================================================================== *)
(** ** The model catalogs *)

Lemma lm_map_models_run (elements : list value) (this : LMStudioAPI.LMStudioAPI) :
  exists c,
    LMStudioAPI.map_models elements this = mkRun [] c this
    /\ (if existsb is_null elements then c = Throw TypeError
        else exists ms, c = Normal ms /\ Forall2 lm_describes elements ms).
Proof.
  induction elements as [|model rest IH]; simpl.
  - eexists. split; [reflexivity|]. exists []. split; [reflexivity|constructor].
  - destruct IH as (c & E & Hc). unfold bind.
    destruct model; cbn [dot throw ret outcome final trace is_null orb];
      try (rewrite E; cbn [outcome final trace app];
           destruct (existsb is_null rest);
           [ subst c; eexists; split; reflexivity
           | destruct Hc as (ms & -> & Hms); eexists; split; [reflexivity|];
             eexists; split; [reflexivity|];
             constructor; [repeat split|exact Hms] ]).
    eexists. split; reflexivity.
Qed.

Lemma or_map_models_run (elements : list value)
    (this : OpenRouterAPI.OpenRouterAPI) :
  exists c,
    OpenRouterAPI.map_models elements this = mkRun [] c this
    /\ (if existsb is_null elements then c = Throw TypeError
        else exists ms, c = Normal ms /\ Forall2 or_describes elements ms).
Proof.
  induction elements as [|model rest IH]; simpl.
  - eexists. split; [reflexivity|]. exists []. split; [reflexivity|constructor].
  - destruct IH as (c & E & Hc). unfold bind.
    destruct model; cbn [dot throw ret outcome final trace is_null orb];
      try (rewrite E; cbn [outcome final trace app];
           destruct (existsb is_null rest);
           [ subst c; eexists; split; reflexivity
           | destruct Hc as (ms & -> & Hms); eexists; split; [reflexivity|];
             eexists; split; [reflexivity|];
             constructor; [repeat split|exact Hms] ]).
    eexists. split; reflexivity.
Qed.


(** The same for the body of the cloud client's [getModels], run on an
    instance that holds a key. *)
Lemma or_catalog_run (w : World) (s : OpenRouterAPI.OpenRouterAPI) :
  exists ms,
    try_catch
      (response <- fetch_ w (OpenRouterAPI.models_request s) ;;
       (if negb (ok response)
        then throw (JsError (js "HTTP error! status: "
                             ++ decimal (status response)))
        else ret tt) ;;
       data <- await (json response) ;;
       list_ <- dot (js "data") data ;;
       match list_ with
       | None => ret []
       | Some JNull => ret []
       | Some (JArray elements) => OpenRouterAPI.map_models elements
       | Some _ => throw TypeError
       end)
      (fun error => ret []) s
    = mkRun [Requested (OpenRouterAPI.models_request s)] (Normal ms) s
    /\ (unusable (fetch w (OpenRouterAPI.models_request s)) -> ms = [])
    /\ (forall response elements,
          fetch w (OpenRouterAPI.models_request s) = Resolved response ->
          lists response elements ->
          existsb is_null elements = false ->
          Forall2 or_describes elements ms).
Proof.
  unfold try_catch, bind, fetch_. cbn [trace outcome final app].
  destruct (fetch w (OpenRouterAPI.models_request s)) as [response|e];
    cbn [trace outcome final app ret];
    [|exists []; split; [reflexivity|split; [reflexivity|discriminate]]].
  destruct (ok response) eqn:Hok; cbn [negb ret throw trace outcome final app].
  2:{ exists []. split; [reflexivity|]. split; [reflexivity|].
      intros r els E [Hok' _]. injection E as <-. congruence. }
  unfold await.
  destruct (json response) as [data|e] eqn:Hjson;
    cbn [ret throw trace outcome final app].
  2:{ exists []. split; [reflexivity|]. split; [reflexivity|].
      intros r els E (_ & d & Hd & _). injection E as <-. congruence. }
  assert (Hlists : forall r els, Resolved response = Resolved r ->
                     lists r els -> prop (js "data") data = Some (JArray els)).
  { intros r els E (_ & d & Hd & Hp). injection E as <-.
    rewrite Hjson in Hd. injection Hd as <-. exact Hp. }
  assert (Hbad : unusable (Resolved response) ->
                 exists els, prop (js "data") data = Some (JArray els)
                             /\ existsb is_null els = true).
  { intros [H|[[e H]|(els & Hl & Hn)]]; [congruence|congruence|].
    exists els. split; [|exact Hn]. now apply (Hlists response). }
  destruct data as [| | | | |members];
    try (exists []; split; [reflexivity|]; split;
         [ intros H; reflexivity
         | intros r els E Hl; specialize (Hlists r els E Hl); discriminate Hlists ]).
  cbn [dot ret outcome final trace app].
  destruct (prop (js "data") (JObject members)) as [[| | | |elements|]|] eqn:Hp;
    cbn [ret throw outcome final trace app];
    try (exists []; split; [reflexivity|]; split;
         [ intros H; reflexivity
         | intros r els E Hl; specialize (Hlists r els E Hl); discriminate Hlists ]).
  destruct (or_map_models_run elements s) as (c & -> & Hc).
  cbn [outcome final trace app].
  destruct (existsb is_null elements) eqn:Hn.
  - subst c. exists []. split; [reflexivity|]. split; [reflexivity|].
    intros r els E Hl Hn'. specialize (Hlists r els E Hl).
    injection Hlists as <-. congruence.
  - destruct Hc as (ms & -> & Hms). exists ms. split; [reflexivity|]. split.
    + intros H. destruct (Hbad H) as (els & Hels & Hn').
      injection Hels as <-. congruence.
    + intros r els E Hl _. specialize (Hlists r els E Hl).
      injection Hlists as <-. exact Hms.
Qed.

(** X5. [getModels] of the local client, in every world: it sends its one
    request and resolves, with the instance unchanged.  It resolves with the
    empty list when the request fails, the status is not ok, the body is not
    JSON or an entry of the catalog is [null]; and when [data.data] is an
    array without [null], with one descriptor for each entry, in the order
    of the catalog, whose id and name are the entry's [id] and whose status
    is ["available"]. *)
Theorem lm_getModels_catalog (w : World) (this : LMStudioAPI.LMStudioAPI) :
  exists ms,
    LMStudioAPI.getModels w this
    = mkRun [Requested (LMStudioAPI.models_request this)] (Normal ms) this
    /\ (unusable (fetch w (LMStudioAPI.models_request this)) -> ms = [])
    /\ (forall response elements,
          fetch w (LMStudioAPI.models_request this) = Resolved response ->
          lists response elements ->
          existsb is_null elements = false ->
          Forall2 lm_describes elements ms).
Proof.
  unfold LMStudioAPI.getModels. rewrite bind_get. unfold after.
  unfold try_catch, bind, fetch_. cbn [trace outcome final app].
  destruct (fetch w (LMStudioAPI.models_request this)) as [response|e];
    cbn [trace outcome final app ret];
    [|exists []; split; [reflexivity|split; [reflexivity|discriminate]]].
  destruct (ok response) eqn:Hok; cbn [negb ret throw trace outcome final app].
  2:{ exists []. split; [reflexivity|]. split; [reflexivity|].
      intros r els E [Hok' _]. injection E as <-. congruence. }
  unfold await.
  destruct (json response) as [data|e] eqn:Hjson;
    cbn [ret throw trace outcome final app].
  2:{ exists []. split; [reflexivity|]. split; [reflexivity|].
      intros r els E (_ & d & Hd & _). injection E as <-. congruence. }
  assert (Hlists : forall r els, Resolved response = Resolved r ->
                     lists r els -> prop (js "data") data = Some (JArray els)).
  { intros r els E (_ & d & Hd & Hp). injection E as <-.
    rewrite Hjson in Hd. injection Hd as <-. exact Hp. }
  assert (Hbad : unusable (Resolved response) ->
                 exists els, prop (js "data") data = Some (JArray els)
                             /\ existsb is_null els = true).
  { intros [H|[[e H]|(els & Hl & Hn)]]; [congruence|congruence|].
    exists els. split; [|exact Hn]. now apply (Hlists response). }
  destruct data as [| | | | |members];
    try (exists []; split; [reflexivity|]; split;
         [ intros H; reflexivity
         | intros r els E Hl; specialize (Hlists r els E Hl); discriminate Hlists ]).
  cbn [dot ret outcome final trace app].
  destruct (prop (js "data") (JObject members)) as [[| | | |elements|]|] eqn:Hp;
    cbn [ret throw outcome final trace app];
    try (exists []; split; [reflexivity|]; split;
         [ intros H; reflexivity
         | intros r els E Hl; specialize (Hlists r els E Hl); discriminate Hlists ]).
  destruct (lm_map_models_run elements this) as (c & -> & Hc).
  cbn [outcome final trace app].
  destruct (existsb is_null elements) eqn:Hn.
  - subst c. exists []. split; [reflexivity|]. split; [reflexivity|].
    intros r els E Hl Hn'. specialize (Hlists r els E Hl).
    injection Hlists as <-. congruence.
  - destruct Hc as (ms & -> & Hms). exists ms. split; [reflexivity|]. split.
    + intros H. destruct (Hbad H) as (els & Hels & Hn').
      injection Hels as <-. congruence.
    + intros r els E Hl _. specialize (Hlists r els E Hl).
      injection Hlists as <-. exact Hms.
Qed.


(** X6. [getModels] of the cloud client, in every world: it resolves, and
    leaves the instance as the look-up of the key left it.  Without a key it
    sends nothing and resolves with the empty list.  With a key it sends its
    one request, and resolves with the empty list when the request fails,
    the status is not ok, the body is not JSON or an entry is [null]; when
    [data.data] is an array without [null], with one descriptor for each
    entry, in order, named by the entry's [name], or by its [id] when the
    name is missing or empty. *)
Theorem or_getModels_catalog (w : World) (this : OpenRouterAPI.OpenRouterAPI) :
  exists ms,
    outcome (OpenRouterAPI.getModels w this) = Normal ms
    /\ final (OpenRouterAPI.getModels w this)
       = final (OpenRouterAPI.loadApiKey w this)
    /\ fragments (trace (OpenRouterAPI.getModels w this)) = []
    /\ requests (trace (OpenRouterAPI.getModels w this))
       = (if OpenRouterAPI.isConfigured (final (OpenRouterAPI.loadApiKey w this))
          then [OpenRouterAPI.models_request
                  (final (OpenRouterAPI.loadApiKey w this))]
          else [])
    /\ (OpenRouterAPI.isConfigured (final (OpenRouterAPI.loadApiKey w this))
        = false -> ms = [])
    /\ (unusable (fetch w (OpenRouterAPI.models_request
                             (final (OpenRouterAPI.loadApiKey w this)))) ->
        ms = [])
    /\ (forall response elements,
          OpenRouterAPI.isConfigured (final (OpenRouterAPI.loadApiKey w this))
          = true ->
          fetch w (OpenRouterAPI.models_request
                     (final (OpenRouterAPI.loadApiKey w this)))
          = Resolved response ->
          lists response elements ->
          existsb is_null elements = false ->
          Forall2 or_describes elements ms).
Proof.
  destruct (OpenRouterFacts.loadApiKey_run w this) as (Hrun & Hfr & Hrq).
  unfold OpenRouterAPI.getModels.
  erewrite bind_normal by exact Hrun.
  rewrite bind_get. unfold after. cbn [trace outcome final].
  rewrite fragments_app, requests_app, Hfr, Hrq. cbn [app].
  destruct (OpenRouterAPI.isConfigured (final (OpenRouterAPI.loadApiKey w this)))
    eqn:Hc; cbn [negb].
  - destruct (or_catalog_run w (final (OpenRouterAPI.loadApiKey w this)))
      as (ms & -> & Hbad & Hgood).
    exists ms. cbn [trace outcome final fragments requests].
    repeat split; try discriminate; auto.
    intros r els _. apply Hgood.
  - exists []. cbn [ret trace outcome final fragments requests].
    repeat split; try reflexivity. intros r els H. discriminate H.
Qed.

(* ================================================================== *)
(** ** [getUsage] *)


(** X7. [getUsage] of the cloud client resolves in every world, and leaves
    the instance as the look-up of the key left it.  It resolves with the
    body of the answer exactly when the client holds a key, the request
    resolved with an ok status and its body is JSON; with [null] in all the
    other cases, which a caller cannot tell apart. *)
Theorem getUsage_result (w : World) (this : OpenRouterAPI.OpenRouterAPI) :
  exists result,
    outcome (OpenRouterAPI.getUsage w this) = Normal result
    /\ final (OpenRouterAPI.getUsage w this)
       = final (OpenRouterAPI.loadApiKey w this)
    /\ fragments (trace (OpenRouterAPI.getUsage w this)) = []
    /\ forall data,
         result = Some data <->
         (OpenRouterAPI.isConfigured (final (OpenRouterAPI.loadApiKey w this))
          = true
          /\ exists response,
               fetch w (OpenRouterAPI.usage_request
                          (final (OpenRouterAPI.loadApiKey w this)))
               = Resolved response
               /\ ok response = true
               /\ json response = Resolved data).
Proof.
  destruct (OpenRouterFacts.loadApiKey_run w this) as (Hrun & Hfr & Hrq).
  unfold OpenRouterAPI.getUsage.
  erewrite bind_normal by exact Hrun.
  rewrite bind_get. unfold after. cbn [trace outcome final].
  rewrite fragments_app, Hfr. cbn [app].
  destruct (OpenRouterAPI.isConfigured (final (OpenRouterAPI.loadApiKey w this)))
    eqn:Hc; cbn [negb].
  2:{ exists None. cbn [ret trace outcome final fragments].
      split; [reflexivity|]. split; [reflexivity|]. split; [reflexivity|].
      intros data. split; [discriminate|]. intros [H _]. discriminate H. }
  unfold try_catch, bind, fetch_. cbn [trace outcome final app].
  destruct (fetch w _) as [response|e]; cbn [ret trace outcome final app fragments].
  2:{ exists None.
      split; [reflexivity|]. split; [reflexivity|]. split; [reflexivity|].
      intros data. split; [discriminate|].
      intros (_ & r & H & _). discriminate H. }
  destruct (ok response) eqn:Hok; cbn [ret trace outcome final app fragments].
  2:{ exists None.
      split; [reflexivity|]. split; [reflexivity|]. split; [reflexivity|].
      intros data. split; [discriminate|].
      intros (_ & r & H & Hok' & _). injection H as <-. congruence. }
  unfold await.
  destruct (json response) as [data|e] eqn:Hj;
    cbn [ret throw trace outcome final app fragments].
  - exists (Some data).
    split; [reflexivity|]. split; [reflexivity|]. split; [reflexivity|].
    intros data'. split.
    + intros H. injection H as <-. split; [reflexivity|].
      exists response. auto.
    + intros (_ & r & H & _ & Hj'). injection H as <-. congruence.
  - exists None.
    split; [reflexivity|]. split; [reflexivity|]. split; [reflexivity|].
    intros data. split; [discriminate|].
    intros (_ & r & H & _ & Hj'). injection H as <-. congruence.
Qed.

(* ================================================================== *)
(** ** The key is looked up once *)

Lemma loadApiKey_found (w : World) (this : OpenRouterAPI.OpenRouterAPI)
    (k : jsstring) :
  OpenRouterAPI.isConfigured this = false ->
  getOpenRouterApiKey w = Resolved k ->
  final (OpenRouterAPI.loadApiKey w this)
  = {| OpenRouterAPI.baseUrl := OpenRouterAPI.baseUrl this;
       OpenRouterAPI.apiKey := k |}.
Proof.
  intros Hc Hk. unfold OpenRouterAPI.loadApiKey, bind, try_catch.
  cbn [get outcome final trace]. rewrite Hc, Hk. reflexivity.
Qed.

Lemma isConfigured_nonempty (this : OpenRouterAPI.OpenRouterAPI) :
  OpenRouterAPI.isConfigured this = true <-> OpenRouterAPI.apiKey this <> [].
Proof.
  unfold OpenRouterAPI.isConfigured.
  destruct (OpenRouterAPI.apiKey this); split; congruence.
Qed.

Lemma header_authorization (w : World) (s : OpenRouterAPI.OpenRouterAPI)
    msgs model options :
  header (js "Authorization") (OpenRouterAPI.chat_request w s msgs model options)
  = Some (js "Bearer " ++ OpenRouterAPI.apiKey s).
Proof. reflexivity. Qed.

(** X8. The cloud client looks for its key once.  A client without a key
    takes the key the settings hold at its first [sendMessage] and keeps
    it: a later [sendMessage], in a world whose settings hold another key,
    hold none or fail, still sends the first key and leaves the client as
    it is. *)
Theorem key_loaded_once
    (w later : World) (this : OpenRouterAPI.OpenRouterAPI) (k : jsstring)
    (msgs msgs' : list Message) (model model' : jsstring)
    (options options' : Options) :
  OpenRouterAPI.isConfigured this = false ->
  getOpenRouterApiKey w = Resolved k ->
  k <> [] ->
  let first := OpenRouterAPI.sendMessage w msgs model options this in
  let second := OpenRouterAPI.sendMessage later msgs' model' options' (final first) in
  OpenRouterAPI.apiKey (final first) = k
  /\ OpenRouterAPI.baseUrl (final first) = OpenRouterAPI.baseUrl this
  /\ map (header (js "Authorization")) (requests (trace first))
     = [Some (js "Bearer " ++ k)]
  /\ map (header (js "Authorization")) (requests (trace second))
     = [Some (js "Bearer " ++ k)]
  /\ final second = final first.
Proof.
  intros Hc Hk Hne first second. subst first second.
  pose proof (loadApiKey_found w this k Hc Hk) as Hl.
  rewrite !or_sendMessage_final, !sendMessage_requests.
  rewrite Hl.
  set (loaded := {| OpenRouterAPI.baseUrl := OpenRouterAPI.baseUrl this;
                    OpenRouterAPI.apiKey := k |}).
  assert (Hcl : OpenRouterAPI.isConfigured loaded = true)
    by (apply isConfigured_nonempty; exact Hne).
  rewrite (OpenRouterFacts.loadApiKey_configured later loaded Hcl).
  cbn [final]. rewrite Hcl. repeat split.
Qed.

Module Base64Facts.
Import Base64.

Lemma list_ind3 {A} (P : list A -> Prop) :
  P [] -> (forall a, P [a]) -> (forall a b, P [a; b]) ->
  (forall a b c l, P l -> P (a :: b :: c :: l)) ->
  forall l, P l.
Proof.
  intros H0 H1 H2 H3.
  assert (H : forall l, P l /\ (forall a, P (a :: l)) /\ (forall a b, P (a :: b :: l))).
  { induction l as [|x l (IH0 & IH1 & IH2)].
    - repeat split; auto.
    - repeat split; auto. }
  intros l. apply H.
Qed.

Lemma b64_index_char (i : N) : i < 64 -> b64_index (b64_char i) = Some i.
Proof.
  intros Hi.
  assert (Hall : forallb (fun n => match b64_index (b64_char n) with
                                   | Some m => m =? n
                                   | None => false
                                   end)
                         (map N.of_nat (seq 0 64)) = true)
    by (vm_compute; reflexivity).
  rewrite forallb_forall in Hall.
  specialize (Hall i).
  assert (Hin : In i (map N.of_nat (seq 0 64))).
  { apply in_map_iff. exists (N.to_nat i). split; [apply N2Nat.id|].
    apply in_seq. lia. }
  specialize (Hall Hin).
  destruct (b64_index (b64_char i)) as [m|]; [|discriminate].
  apply N.eqb_eq in Hall. now subst.
Qed.

Lemma b64_char_plain (i : N) :
  i < 64 -> is_ascii_whitespace (b64_char i) = false /\ b64_char i <> 61.
Proof.
  intros Hi.
  assert (Hall : forallb (fun n => negb (is_ascii_whitespace (b64_char n))
                                   && negb (b64_char n =? 61))
                         (map N.of_nat (seq 0 64)) = true)
    by (vm_compute; reflexivity).
  rewrite forallb_forall in Hall.
  assert (Hin : In i (map N.of_nat (seq 0 64))).
  { apply in_map_iff. exists (N.to_nat i). split; [apply N2Nat.id|].
    apply in_seq. lia. }
  specialize (Hall i Hin). apply andb_true_iff in Hall as [H1 H2].
  apply negb_true_iff in H1, H2. split; [exact H1|]. now apply N.eqb_neq.
Qed.

Ltac euclid a b :=
  let q := fresh "q" in
  let r := fresh "r" in
  pose proof (N.div_mod a b ltac:(discriminate));
  pose proof (N.mod_upper_bound a b ltac:(discriminate));
  set (q := a / b) in *; set (r := a mod b) in *;
  clearbody q r.

Lemma sextet_bounds (a b c : N) :
  a < 256 -> b < 256 -> c < 256 ->
  a / 4 < 64 /\ (a mod 4) * 16 + b / 16 < 64 /\ (b mod 16) * 4 + c / 64 < 64
  /\ c mod 64 < 64 /\ (a mod 4) * 16 < 64 /\ (b mod 16) * 4 < 64.
Proof. intros. euclid a 4. euclid b 16. euclid c 64. lia. Qed.

(** Three bytes, cut into four sextets and put together again. *)
Lemma regroup (a b c : N) :
  a < 256 -> b < 256 -> c < 256 ->
  let s1 := a / 4 in
  let s2 := (a mod 4) * 16 + b / 16 in
  let s3 := (b mod 16) * 4 + c / 64 in
  let s4 := c mod 64 in
  s1 * 4 + s2 / 16 = a /\ (s2 mod 16) * 16 + s3 / 4 = b /\ (s3 mod 4) * 64 + s4 = c.
Proof.
  intros Ha Hb Hc s1 s2 s3 s4. subst s1 s2 s3 s4.
  euclid a 4. euclid b 16. euclid c 64.
  euclid (r * 16 + q0) 16. euclid (r0 * 4 + q1) 4.
  lia.
Qed.

Lemma b64_encode_split (l : list N) :
  b64_encode l = map b64_char (b64_sextets l) ++ b64_padding l.
Proof.
  induction l using list_ind3; try reflexivity.
  simpl. rewrite IHl. reflexivity.
Qed.

Lemma b64_sextets_bound (l : list N) :
  Forall (fun c => c < 256) l -> Forall (fun x => x < 64) (b64_sextets l).
Proof.
  induction l using list_ind3; intros H; simpl.
  - constructor.
  - inversion H; subst.
    destruct (sextet_bounds a 0 0) as (? & ? & ? & ? & ? & ?); try lia.
    repeat constructor; assumption.
  - inversion H as [|? ? Ha H']; subst. inversion H' as [|? ? Hb _]; subst.
    destruct (sextet_bounds a b 0) as (? & ? & ? & ? & ? & ?); try lia.
    repeat constructor; assumption.
  - inversion H as [|? ? Ha H']; subst. inversion H' as [|? ? Hb H'']; subst.
    inversion H'' as [|? ? Hc Hl]; subst.
    destruct (sextet_bounds a b c) as (? & ? & ? & ? & ? & ?); try lia.
    repeat constructor; auto.
Qed.

Lemma b64_decode_sextets (l : list N) :
  Forall (fun c => c < 256) l -> b64_decode (b64_sextets l) = l.
Proof.
  induction l using list_ind3; intros H; simpl.
  - reflexivity.
  - inversion H; subst.
    destruct (regroup a 0 0) as (E & _ & _); try lia.
    simpl in E. rewrite N.add_0_r in E. rewrite E. reflexivity.
  - inversion H as [|? ? Ha H']; subst. inversion H' as [|? ? Hb _]; subst.
    destruct (regroup a b 0) as (E1 & E2 & _); try lia.
    simpl in E1, E2. rewrite N.add_0_r in E2. rewrite E1, E2. reflexivity.
  - inversion H as [|? ? Ha H']; subst. inversion H' as [|? ? Hb H'']; subst.
    inversion H'' as [|? ? Hc Hl]; subst.
    destruct (regroup a b c) as (E1 & E2 & E3); try lia.
    simpl in E1, E2, E3. rewrite E1, E2, E3, IHl by assumption. reflexivity.
Qed.

Lemma sextets_chars (xs : list N) :
  Forall (fun x => x < 64) xs -> sextets (map b64_char xs) = Some xs.
Proof.
  induction 1 as [|x xs Hx _ IH]; simpl; [reflexivity|].
  rewrite (b64_index_char x Hx), IH. reflexivity.
Qed.

Lemma filter_chars (xs : list N) :
  Forall (fun x => x < 64) xs ->
  filter (fun c => negb (is_ascii_whitespace c)) (map b64_char xs)
  = map b64_char xs.
Proof.
  induction 1 as [|x xs Hx _ IH]; simpl; [reflexivity|].
  rewrite (proj1 (b64_char_plain x Hx)), IH. reflexivity.
Qed.

(** The shape of an encoding: whole groups of four, with the padding that
    fills the last one. *)
Lemma b64_shape (l : list N) :
  exists k : nat,
    (List.length (b64_sextets l) = (4 * k)%nat /\ b64_padding l = [])
    \/ (List.length (b64_sextets l) = (4 * k + 2)%nat /\ b64_padding l = [61; 61])
    \/ (List.length (b64_sextets l) = (4 * k + 3)%nat /\ b64_padding l = [61]).
Proof.
  induction l using list_ind3.
  - exists 0%nat. left. split; reflexivity.
  - exists 0%nat. right. left. split; reflexivity.
  - exists 0%nat. right. right. split; reflexivity.
  - destruct IHl as [k [[E P]|[[E P]|[E P]]]]; exists (Datatypes.S k); simpl;
      rewrite E, P; [left|right; left|right; right]; split; try reflexivity; lia.
Qed.

Lemma mod4 (k j : nat) :
  (j < 4)%nat -> N.of_nat (4 * k + j) mod 4 = N.of_nat j.
Proof.
  intros Hj. symmetry.
  apply (N.mod_unique _ 4 (N.of_nat k)); lia.
Qed.

Lemma strip_padding_chars (xs : list N) (pad : jsstring) :
  Forall (fun x => x < 64) xs ->
  pad = [] \/ pad = [61] \/ pad = [61; 61] ->
  strip_padding (map b64_char xs ++ pad) = map b64_char xs.
Proof.
  intros Hxs Hpad. unfold strip_padding.
  assert (Hlast : match rev (map b64_char xs) with
                  | c :: _ => (c =? 61) = false
                  | [] => True
                  end).
  { destruct (rev (map b64_char xs)) as [|c r] eqn:E; [exact I|].
    assert (Hin : In c (map b64_char xs)).
    { apply in_rev. rewrite E. now left. }
    apply in_map_iff in Hin as (x & <- & Hx).
    rewrite Forall_forall in Hxs.
    apply N.eqb_neq, b64_char_plain, Hxs, Hx. }
  rewrite rev_app_distr.
  destruct Hpad as [->|[->| ->]]; simpl.
  - destruct (rev (map b64_char xs)) as [|c [|c' r]] eqn:E.
    + apply (f_equal (@rev N)) in E. rewrite rev_involutive in E. rewrite E.
      reflexivity.
    + rewrite Hlast, app_nil_r. reflexivity.
    + rewrite Hlast, app_nil_r. reflexivity.
  - destruct (rev (map b64_char xs)) as [|c r] eqn:E.
    + apply (f_equal (@rev N)) in E. rewrite rev_involutive in E. rewrite E.
      reflexivity.
    + rewrite Hlast. simpl. change (rev r ++ [c]) with (rev (c :: r)).
      rewrite <- E. apply rev_involutive.
  - apply rev_involutive.
Qed.

Theorem atob_btoa (key : jsstring) :
  Forall (fun c => c < 256) key ->
  exists encoded, btoa key = Some encoded /\ atob encoded = Some key.
Proof.
  intros Hkey. exists (b64_encode key). split.
  - unfold btoa.
    assert (H : forallb (fun c => c <? 256) key = true).
    { apply forallb_forall. rewrite Forall_forall in Hkey.
      intros c Hc. apply N.ltb_lt, Hkey, Hc. }
    rewrite H. reflexivity.
  - pose proof (b64_sextets_bound key Hkey) as Hsx.
    assert (Hpad : b64_padding key = [] \/ b64_padding key = [61]
                   \/ b64_padding key = [61; 61]).
    { destruct (b64_shape key) as [k [[_ ->]|[[_ ->]|[_ ->]]]]; auto. }
    assert (Hwhole : N.of_nat (List.length (map b64_char (b64_sextets key)
                                            ++ b64_padding key)) mod 4 = 0).
    { rewrite length_app, length_map.
      destruct (b64_shape key) as [k [[E P]|[[E P]|[E P]]]]; rewrite E, P;
        cbn [List.length].
      - apply (mod4 k 0). lia.
      - replace (4 * k + 2 + 2)%nat with (4 * (k + 1) + 0)%nat by lia.
        apply (mod4 (k + 1) 0). lia.
      - replace (4 * k + 3 + 1)%nat with (4 * (k + 1) + 0)%nat by lia.
        apply (mod4 (k + 1) 0). lia. }
    assert (Hrest : N.of_nat (List.length (map b64_char (b64_sextets key))) mod 4
                    <> 1).
    { rewrite length_map.
      destruct (b64_shape key) as [k [[E _]|[[E _]|[E _]]]]; rewrite E.
      - replace (4 * k)%nat with (4 * k + 0)%nat by lia.
        rewrite (mod4 k 0) by lia. discriminate.
      - rewrite (mod4 k 2) by lia. discriminate.
      - rewrite (mod4 k 3) by lia. discriminate. }
    unfold atob. rewrite b64_encode_split.
    rewrite filter_app, filter_chars by assumption.
    replace (filter (fun c => negb (is_ascii_whitespace c)) (b64_padding key))
      with (b64_padding key)
      by (destruct Hpad as [->|[->| ->]]; reflexivity).
    unfold forgiving_strip. rewrite Hwhole. cbn [N.eqb].
    rewrite strip_padding_chars by assumption. cbv zeta.
    apply N.eqb_neq in Hrest. rewrite Hrest.
    rewrite sextets_chars, b64_decode_sextets by assumption. reflexivity.
Qed.

End Base64Facts.

(* ================================================================== *)
(** ** src/lib/settings.ts *)

Lemma bind_throw {S A B} (m : M S A) (k : A -> M S B) (this : S) t e s :
  m this = mkRun t (Throw e) s -> bind m k this = mkRun t (Throw e) s.
Proof. intros H. unfold bind. rewrite H. reflexivity. Qed.

Lemma b64_encode_nonempty (c : N) (key : jsstring) :
  Base64.b64_encode (c :: key) <> [].
Proof. destruct key as [|b [|a key]]; discriminate. Qed.

Lemma btoa_wide (key : jsstring) :
  Exists (fun c => 256 <= c) key -> Base64.btoa key = None.
Proof.
  intros H. unfold Base64.btoa.
  replace (forallb (fun c => c <? 256) key) with false; [reflexivity|].
  symmetry. apply not_true_is_false. intros Hall.
  rewrite forallb_forall in Hall. apply Exists_exists in H as (c & Hin & Hc).
  specialize (Hall c Hin). apply N.ltb_lt in Hall. lia.
Qed.

Lemma encryptApiKey_wide {S} (key : jsstring) (this : S) :
  Exists (fun c => 256 <= c) key ->
  Settings.encryptApiKey key this
  = mkRun [] (Throw (Failure (js "InvalidCharacterError"))) this.
Proof.
  intros H. unfold Settings.encryptApiKey. rewrite (btoa_wide key H).
  destruct key; [inversion H|reflexivity].
Qed.

(** What [btoa] makes of a non-empty string of code units below 256 is not
    empty, and [atob] reads the string back from it. *)
Lemma btoa_atob_nonempty (c : code_unit) (key : list code_unit) :
  Forall (fun c => c < 256) (c :: key) ->
  exists encoded c' encoded',
    Base64.btoa (c :: key) = Some encoded
    /\ encoded = c' :: encoded'
    /\ Base64.atob encoded = Some (c :: key).
Proof.
  intros Hkey.
  destruct (Base64Facts.atob_btoa (c :: key) Hkey) as (encoded & Hb & Ha).
  assert (Hne : encoded <> []).
  { unfold Base64.btoa in Hb. destruct (forallb _ _); [|discriminate].
    injection Hb as <-. apply b64_encode_nonempty. }
  destruct encoded as [|c' encoded']; [congruence|].
  exists (c' :: encoded'), c', encoded'. auto.
Qed.

(** X9. A key of code units below 256 survives the way to the database and
    back: [encryptApiKey] does not throw on it, and [decryptApiKey] gives
    the key back from what [encryptApiKey] made of it.  ([btoa] and [atob]
    are the platform's, as the HTML standard defines them.) *)
Theorem api_key_round_trip {S} (key : jsstring) (this : S) :
  Forall (fun c => c < 256) key ->
  exists encrypted,
    Settings.encryptApiKey key this = mkRun [] (Normal encrypted) this
    /\ Settings.decryptApiKey encrypted = key.
Proof.
  intros Hkey. destruct key as [|c key].
  - exists []. split; reflexivity.
  - destruct (btoa_atob_nonempty c key Hkey)
      as (encoded & c' & encoded' & Hb & -> & Ha).
    exists (c' :: encoded').
    unfold Settings.encryptApiKey, Settings.decryptApiKey.
    rewrite Hb, Ha. split; reflexivity.
Qed.

(** X10. A key with a code unit above 255 cannot be saved, and takes the
    rest of the update with it: [updateUserSettings] resolves with [false]
    without any call to the database, whatever else the update holds and
    whoever is signed in. *)
Theorem update_with_wide_key_is_dropped
    (supabase : Settings.Supabase) (settings : Settings.PartialSettings)
    (key : jsstring) (sent : Settings.log) :
  Settings.set_openrouterApiKey settings = Some key ->
  Exists (fun c => 256 <= c) key ->
  Settings.updateUserSettings supabase settings sent
  = mkRun [] (Normal false) sent.
Proof.
  intros Hset Hwide. unfold Settings.updateUserSettings.
  assert (Hcu : (exists user_id,
                   Settings.current_user supabase sent
                   = mkRun [] (Normal user_id) sent)
                \/ exists e, Settings.current_user supabase sent
                             = mkRun [] (Throw e) sent).
  { unfold Settings.current_user, bind, await.
    destruct (Settings.auth_getUser supabase) as [[user_id|]|e];
      [left|right|right]; eexists; reflexivity. }
  unfold try_catch.
  destruct Hcu as [[user_id Hcu]|[e Hcu]].
  - erewrite bind_normal by exact Hcu. rewrite Hset.
    erewrite bind_throw
      by (erewrite bind_throw by exact (encryptApiKey_wide key sent Hwide);
          reflexivity).
    reflexivity.
  - erewrite bind_throw by exact Hcu. reflexivity.
Qed.

Lemma getUserSettings_run (supabase : Settings.Supabase) (sent : Settings.log) :
  match Settings.auth_getUser supabase with
  | Resolved (Some user_id) =>
      let c := Settings.Rpc (js "get_user_settings")
                            [(js "user_uuid", Settings.PString user_id)] in
      Settings.getUserSettings supabase sent
      = mkRun [Stored (sent ++ [c])]
              (Normal
                 match Settings.call supabase c with
                 | Resolved {| Settings.data := Some (row :: _);
                               Settings.error := None |} =>
                     Settings.toCamelCase row
                 | _ => Settings.defaultSettings
                 end)
              (sent ++ [c])
  | _ =>
      Settings.getUserSettings supabase sent
      = mkRun [] (Normal Settings.defaultSettings) sent
  end.
Proof.
  unfold Settings.getUserSettings, Settings.current_user, Settings.call_.
  unfold try_catch, bind, await.
  destruct (Settings.auth_getUser supabase) as [[user_id|]|e];
    cbn [ret throw trace outcome final app]; try reflexivity.
  destruct (Settings.call supabase _) as [[[[|row rows]|] [err|]]|e];
    reflexivity.
Qed.

(** X11. [getUserSettings] never rejects.  When nobody is signed in, or the
    look-up of the user fails, it resolves with the default settings and
    does not call the database.  When a user is signed in, it makes the one
    call [get_user_settings] for that user; it resolves with the first row
    of the answer, translated, whenever the call resolves without an error
    and with a row, and with the default settings in every other case (the
    call fails, reports an error or brings no row).  [getOpenRouterApiKey]
    makes the same call and resolves with the key of these settings, so its
    promise never rejects either. *)
Theorem getUserSettings_never_rejects
    (supabase : Settings.Supabase) (sent : Settings.log) :
  (exists settings,
     outcome (Settings.getUserSettings supabase sent) = Normal settings
     /\ (forall user_id row rows,
           Settings.auth_getUser supabase = Resolved (Some user_id) ->
           Settings.call supabase
             (Settings.Rpc (js "get_user_settings")
                [(js "user_uuid", Settings.PString user_id)])
           = Resolved {| Settings.data := Some (row :: rows);
                         Settings.error := None |} ->
           settings = Settings.toCamelCase row)
     /\ ((forall user_id row rows,
            Settings.auth_getUser supabase = Resolved (Some user_id) ->
            Settings.call supabase
              (Settings.Rpc (js "get_user_settings")
                 [(js "user_uuid", Settings.PString user_id)])
            <> Resolved {| Settings.data := Some (row :: rows);
                           Settings.error := None |}) ->
         settings = Settings.defaultSettings)
     /\ Settings.getOpenRouterApiKey supabase sent
        = mkRun (trace (Settings.getUserSettings supabase sent))
                (Normal (Settings.openrouterApiKey settings))
                (final (Settings.getUserSettings supabase sent)))
  /\ final (Settings.getUserSettings supabase sent)
     = match Settings.auth_getUser supabase with
       | Resolved (Some user_id) =>
           sent ++ [Settings.Rpc (js "get_user_settings")
                      [(js "user_uuid", Settings.PString user_id)]]
       | _ => sent
       end
  /\ exists key, Settings.stored_key supabase = Resolved key.
Proof.
  pose proof (getUserSettings_run supabase sent) as H.
  split; [|split].
  - unfold Settings.getOpenRouterApiKey, bind.
    destruct (Settings.auth_getUser supabase) as [[user_id|]|e] eqn:Hu;
      cbv zeta in H; rewrite H; cbn [ret trace outcome final app].
    + eexists. split; [reflexivity|].
      split; [|split; [|reflexivity]].
      * intros u row rows E Hc. injection E as <-. rewrite Hc. reflexivity.
      * intros Hno.
        destruct (Settings.call supabase _) as [[[[|row rows]|] [err|]]|e]
          eqn:Hc; try reflexivity.
        destruct (Hno user_id row rows eq_refl). exact Hc.
    + exists Settings.defaultSettings. split; [reflexivity|].
      split; [intros u row rows E; discriminate E|]. split; reflexivity.
    + exists Settings.defaultSettings. split; [reflexivity|].
      split; [intros u row rows E; discriminate E|]. split; reflexivity.
  - destruct (Settings.auth_getUser supabase) as [[user_id|]|e];
      cbv zeta in H; rewrite H; reflexivity.
  - pose proof (getUserSettings_run supabase []) as H0.
    unfold Settings.stored_key, Settings.getOpenRouterApiKey, bind.
    destruct (Settings.auth_getUser supabase) as [[user_id|]|e];
      cbv zeta in H0; rewrite H0; cbn [ret trace outcome final app];
      eexists; reflexivity.
Qed.

(* ================================================================== *)
(** ** From the settings to the provider *)

Lemma stored_key_run (supabase : Settings.Supabase) :
  Settings.stored_key supabase
  = Resolved
      match Settings.auth_getUser supabase with
      | Resolved (Some user_id) =>
          match Settings.call supabase
                  (Settings.Rpc (js "get_user_settings")
                     [(js "user_uuid", Settings.PString user_id)]) with
          | Resolved {| Settings.data := Some (row :: _);
                        Settings.error := None |} =>
              Settings.decryptApiKey (Settings.openrouter_api_key row)
          | _ => []
          end
      | _ => []
      end.
Proof.
  pose proof (getUserSettings_run supabase []) as H.
  unfold Settings.stored_key, Settings.getOpenRouterApiKey, bind.
  destruct (Settings.auth_getUser supabase) as [[user_id|]|e];
    cbv zeta in H; rewrite H; cbn [ret trace outcome final app];
    try reflexivity.
  destruct (Settings.call supabase _) as [[[[|row rows]|] [err|]]|e];
    reflexivity.
Qed.

(** X12. A key saved is the key sent.  When a signed-in user saves a
    non-empty key of code units below 256, [updateUserSettings] makes one
    call, [upsert_user_settings], that carries the key encoded under
    [p_openrouter_api_key]; and against any database that returns this
    value in the user's row, a cloud client without a key sends the saved
    key as its bearer token, and keeps it. *)
Theorem saved_key_reaches_provider
    (supabase : Settings.Supabase) (settings : Settings.PartialSettings)
    (key user_id : jsstring) (sent : Settings.log) :
  Settings.set_openrouterApiKey settings = Some key ->
  Forall (fun c => c < 256) key ->
  key <> [] ->
  Settings.auth_getUser supabase = Resolved (Some user_id) ->
  exists encrypted params,
    final (Settings.updateUserSettings supabase settings sent)
    = sent ++ [Settings.Rpc (js "upsert_user_settings") params]
    /\ In (js "p_openrouter_api_key", Settings.PString encrypted) params
    /\ forall (database : Settings.Supabase)
              (row : Settings.DatabaseSettings)
              (rows : list Settings.DatabaseSettings)
              (w : World) (this : OpenRouterAPI.OpenRouterAPI)
              (msgs : list Message) (model : jsstring) (options : Options),
         Settings.auth_getUser database = Resolved (Some user_id) ->
         Settings.call database
           (Settings.Rpc (js "get_user_settings")
              [(js "user_uuid", Settings.PString user_id)])
         = Resolved {| Settings.data := Some (row :: rows);
                       Settings.error := None |} ->
         Settings.openrouter_api_key row = encrypted ->
         OpenRouterAPI.isConfigured this = false ->
         let r := OpenRouterAPI.sendMessage
                    (with_settings w (Settings.stored_key database))
                    msgs model options this in
         map (header (js "Authorization")) (requests (trace r))
         = [Some (js "Bearer " ++ key)]
         /\ OpenRouterAPI.apiKey (final r) = key.
Proof.
  intros Hset Hkey Hne Hu.
  destruct key as [|c key]; [congruence|].
  destruct (btoa_atob_nonempty c key Hkey)
    as (encrypted & c' & encoded' & Hb & Hshape & Ha).
  assert (Henc : Settings.encryptApiKey (c :: key) sent
                 = mkRun [] (Normal encrypted) sent).
  { unfold Settings.encryptApiKey. rewrite Hb. reflexivity. }
  assert (Hdec : Settings.decryptApiKey encrypted = c :: key).
  { unfold Settings.decryptApiKey. rewrite Hshape, <- Hshape, Ha. reflexivity. }
  clear Hb Hshape Ha. revert Hset Hne Henc Hdec.
  generalize (c :: key). clear c key Hkey c' encoded'.
  intros key Hset Hne Henc Hdec.
  exists encrypted. eexists. split; [|split].
  - unfold Settings.updateUserSettings, Settings.current_user.
    rewrite Hset, Hu. unfold try_catch, bind, await.
    cbn [ret throw trace outcome final app].
    replace (Settings.encryptApiKey key sent)
      with (mkRun (S := Settings.log) [] (Normal encrypted) sent).
    cbn [ret throw trace outcome final app]. unfold Settings.call_.
    cbn [trace outcome final].
    destruct (Settings.call supabase _) as [[d [err|]]|e]; reflexivity.
  - right. do 2 (apply in_or_app; left). apply in_or_app. right.
    left. reflexivity.
  - intros database row rows w this msgs model options Hu' Hcall Hrow Hc r.
    subst r.
    set (w' := with_settings w (Settings.stored_key database)).
    assert (Hk : getOpenRouterApiKey w' = Resolved key).
    { unfold w', with_settings. cbn [getOpenRouterApiKey].
      rewrite stored_key_run, Hu', Hcall, Hrow, Hdec. reflexivity. }
    rewrite or_sendMessage_final, sendMessage_requests.
    rewrite (loadApiKey_found w' this key Hc Hk).
    replace (OpenRouterAPI.isConfigured _) with true
      by (symmetry; apply isConfigured_nonempty; exact Hne).
    split; reflexivity.
Qed.

(** X13. Nobody signed in, no key.  When no user is signed in, or the
    look-up of the user fails, a cloud client built without a key finds
    none in the settings: [sendMessage] yields the explanation and nothing
    else, [getModels] resolves with the empty list, [getUsage] with [null],
    and none of them sends a request. *)
Theorem signed_out_has_no_key
    (supabase : Settings.Supabase) (w : World)
    (this : OpenRouterAPI.OpenRouterAPI)
    (msgs : list Message) (model : jsstring) (options : Options) :
  (forall user_id,
     Settings.auth_getUser supabase <> Resolved (Some user_id)) ->
  OpenRouterAPI.isConfigured this = false ->
  let w' := with_settings w (Settings.stored_key supabase) in
  (fragments (trace (OpenRouterAPI.sendMessage w' msgs model options this))
   = [JString OpenRouterAPI.unconfigured]
   /\ requests (trace (OpenRouterAPI.sendMessage w' msgs model options this))
      = [])
  /\ (outcome (OpenRouterAPI.getModels w' this) = Normal []
      /\ requests (trace (OpenRouterAPI.getModels w' this)) = [])
  /\ (outcome (OpenRouterAPI.getUsage w' this) = Normal None
      /\ requests (trace (OpenRouterAPI.getUsage w' this)) = []).
Proof.
  intros Hu Hc w'.
  assert (Hk : getOpenRouterApiKey w' = Resolved []).
  { unfold w', with_settings. cbn [getOpenRouterApiKey].
    rewrite stored_key_run.
    destruct (Settings.auth_getUser supabase) as [[user_id|]|e] eqn:E;
      [destruct (Hu user_id); reflexivity|reflexivity|reflexivity]. }
  assert (Hl : OpenRouterAPI.isConfigured
                 (final (OpenRouterAPI.loadApiKey w' this)) = false).
  { apply OpenRouterFacts.loadApiKey_nothing; [exact Hc|].
    rewrite Hk. reflexivity. }
  destruct (OpenRouterFacts.loadApiKey_run w' this) as (_ & Hfr & _).
  split; [|split].
  - rewrite sendMessage_requests, Hl.
    rewrite (OpenRouterFacts.sendMessage_unconfigured w' msgs model options this Hl).
    cbn [trace]. rewrite fragments_app, Hfr. split; reflexivity.
  - rewrite getModels_requests, Hl. split; [|reflexivity].
    unfold OpenRouterAPI.getModels.
    erewrite bind_normal
      by exact (proj1 (OpenRouterFacts.loadApiKey_run w' this)).
    rewrite bind_get, Hl. reflexivity.
  - rewrite getUsage_requests, Hl. split; [|reflexivity].
    unfold OpenRouterAPI.getUsage.
    erewrite bind_normal
      by exact (proj1 (OpenRouterFacts.loadApiKey_run w' this)).
    rewrite bind_get, Hl. reflexivity.
Qed.

(* ================================================================== *)
(** ** [getSimpleResponse] and its caller in the chat page *)

Lemma lm_not_streaming_trace (w : World) msgs model this :
  exists v,
    trace (LMStudioAPI.sendMessage w msgs model not_streaming this)
    = [Requested (LMStudioAPI.chat_request this msgs model not_streaming);
       Yielded v].
Proof.
  unfold LMStudioAPI.sendMessage. rewrite bind_get. unfold after. cbn [trace app].
  unfold try_catch, bind, fetch_. cbn [trace outcome final].
  destruct (fetch w _) as [response|e]; cbn [trace outcome final app yield];
    [|eexists; reflexivity].
  destruct (ok response); cbn [negb ret throw trace outcome final app yield];
    [|eexists; reflexivity].
  cbn [not_streaming opt_stream default].
  unfold json_branch, bind, await.
  destruct (json response) as [data|e];
    cbn [ret throw trace outcome final app yield];
    [|eexists; reflexivity].
  destruct data; cbn [dot ret throw trace outcome final app yield];
    eexists; reflexivity.
Qed.

Lemma or_not_streaming_trace (w : World) msgs model this :
  exists v,
    trace (OpenRouterAPI.sendMessage w msgs model not_streaming this)
    = trace (OpenRouterAPI.loadApiKey w this)
      ++ (if OpenRouterAPI.isConfigured (final (OpenRouterAPI.loadApiKey w this))
          then [Requested (OpenRouterAPI.chat_request
                             w (final (OpenRouterAPI.loadApiKey w this))
                             msgs model not_streaming)]
          else [])
      ++ [Yielded v].
Proof.
  unfold OpenRouterAPI.sendMessage.
  erewrite bind_normal by exact (proj1 (OpenRouterFacts.loadApiKey_run w this)).
  rewrite bind_get. unfold after. cbn [trace].
  destruct (OpenRouterAPI.isConfigured _); cbn [negb]; [|eexists; reflexivity].
  unfold try_catch, bind, fetch_. cbn [trace outcome final].
  destruct (fetch w _) as [response|e]; cbn [trace outcome final app yield];
    [|eexists; reflexivity].
  destruct (ok response); cbn [negb ret throw trace outcome final app yield].
  - cbn [not_streaming opt_stream default].
    unfold json_branch, bind, await.
    destruct (json response) as [data|e];
      cbn [ret throw trace outcome final app yield];
      [|eexists; reflexivity].
    destruct data; cbn [dot ret throw trace outcome final app yield];
      eexists; reflexivity.
  - unfold await. destruct (text response);
      cbn [ret throw trace outcome final app yield]; eexists; reflexivity.
Qed.

(** A trace without fragments, then one fragment: [next] takes it all. *)
Lemma upto_first_yield_last {S} (t : list (event S)) (v : value) :
  fragments t = [] ->
  upto_first_yield (t ++ [Yielded v]) = (t ++ [Yielded v], Some v).
Proof.
  induction t as [|[v'|r|s] t IH]; cbn [fragments app upto_first_yield];
    intros H; try discriminate H; try reflexivity;
    rewrite (IH H); reflexivity.
Qed.

Lemma stored_app {S} (this : S) (t u : list (event S)) :
  stored this (t ++ u) = stored (stored this t) u.
Proof.
  revert this. induction t as [|[v|r|s] t IH]; intros this;
    cbn [app stored]; auto.
Qed.

Lemma stored_loadApiKey (w : World) (this : OpenRouterAPI.OpenRouterAPI) :
  stored this (trace (OpenRouterAPI.loadApiKey w this))
  = final (OpenRouterAPI.loadApiKey w this).
Proof.
  unfold OpenRouterAPI.loadApiKey, bind, try_catch.
  cbn [get outcome final trace].
  destruct (OpenRouterAPI.isConfigured this); cbn [negb]; [reflexivity|].
  destruct (getOpenRouterApiKey w); reflexivity.
Qed.

Lemma truthy_or_sentinel (v : value) :
  truthy (Some (if truthy (Some v) then default (JString []) (Some v)
                else JString (js "No response received"))) = true.
Proof. destruct (truthy (Some v)) eqn:E; [exact E|reflexivity]. Qed.

Lemma lm_getSimpleResponse_run (w : World) msgs model this :
  exists v,
    outcome (LMStudioAPI.getSimpleResponse w msgs model this) = Normal v
    /\ truthy (Some v) = true
    /\ requests (trace (LMStudioAPI.getSimpleResponse w msgs model this))
       = [LMStudioAPI.chat_request this msgs model not_streaming]
    /\ final (LMStudioAPI.getSimpleResponse w msgs model this) = this.
Proof.
  destruct (lm_not_streaming_trace w msgs model this) as (v & Ht).
  unfold LMStudioAPI.getSimpleResponse, first_or_sentinel, bind, next.
  change {| opt_temperature := None; opt_maxTokens := None;
            opt_stream := Some false |} with not_streaming.
  rewrite Ht. cbn [upto_first_yield trace outcome final stored ret app requests].
  eexists. split; [reflexivity|]. split; [apply truthy_or_sentinel|].
  split; reflexivity.
Qed.

Lemma or_getSimpleResponse_run (w : World) msgs model this :
  exists v,
    outcome (OpenRouterAPI.getSimpleResponse w msgs model this) = Normal v
    /\ truthy (Some v) = true
    /\ requests (trace (OpenRouterAPI.getSimpleResponse w msgs model this))
       = (if OpenRouterAPI.isConfigured (final (OpenRouterAPI.loadApiKey w this))
          then [OpenRouterAPI.chat_request
                  w (final (OpenRouterAPI.loadApiKey w this))
                  msgs model not_streaming]
          else [])
    /\ final (OpenRouterAPI.getSimpleResponse w msgs model this)
       = final (OpenRouterAPI.loadApiKey w this).
Proof.
  destruct (or_not_streaming_trace w msgs model this) as (v & Ht).
  destruct (OpenRouterFacts.loadApiKey_run w this) as (_ & Hfr & Hrq).
  unfold OpenRouterAPI.getSimpleResponse, first_or_sentinel, bind, next.
  change {| opt_temperature := None; opt_maxTokens := None;
            opt_stream := Some false |} with not_streaming.
  rewrite Ht, app_assoc, upto_first_yield_last.
  2:{ rewrite fragments_app, Hfr. destruct (OpenRouterAPI.isConfigured _);
      reflexivity. }
  cbn [trace outcome final ret].
  eexists. split; [reflexivity|]. split; [apply truthy_or_sentinel|].
  rewrite app_nil_r, !requests_app, Hrq, !stored_app, stored_loadApiKey.
  split; destruct (OpenRouterAPI.isConfigured _); reflexivity.
Qed.

Lemma requests_on_part {S T A} (part : T -> S) (update : S -> T -> T)
    (m : M S A) (whole : T) :
  requests (trace (on_part part update m whole))
  = requests (trace (m (part whole))).
Proof.
  unfold on_part. cbn [trace].
  induction (trace (m (part whole))) as [|[v|r|s] t IH];
    cbn [map requests]; congruence.
Qed.

Lemma try_bind_ret {S A B} (m : M S A) (f : A -> B) (h : exn -> M S B)
    (this : S) (v : A) :
  outcome (m this) = Normal v ->
  try_catch (r <- m ;; ret (f r)) h this
  = mkRun (trace (m this)) (Normal (f v)) (final (m this)).
Proof.
  intros H. unfold try_catch, bind. rewrite H.
  cbn [ret trace outcome final]. rewrite app_nil_r. reflexivity.
Qed.

Lemma getAIResponse_run (w : World) (messages : list Message)
    (now message : jsstring) (chat : Chat) (clients : Clients) :
  let history := messages ++ [ChatPage.user_message chat message now] in
  let loaded := final (OpenRouterAPI.loadApiKey w (openRouterAPI clients)) in
  let r := ChatPage.getAIResponse w messages now message chat clients in
  if jsstring_eqb (model_provider chat) (js "lmstudio") then
    (exists v, outcome r = Normal (Some v) /\ truthy (Some v) = true)
    /\ requests (trace r)
       = [LMStudioAPI.chat_request (lmstudioAPI clients) history
            (model_name chat) not_streaming]
    /\ final r = clients
  else if jsstring_eqb (model_provider chat) (js "openrouter") then
    (exists v, outcome r = Normal (Some v) /\ truthy (Some v) = true)
    /\ requests (trace r)
       = (if OpenRouterAPI.isConfigured loaded
          then [OpenRouterAPI.chat_request w loaded history (model_name chat)
                  not_streaming]
          else [])
    /\ final r = {| lmstudioAPI := lmstudioAPI clients;
                    openRouterAPI := loaded |}
  else r = mkRun [] (Normal None) clients.
Proof.
  intros history loaded r. subst r. unfold ChatPage.getAIResponse.
  fold history.
  destruct (jsstring_eqb (model_provider chat) (js "lmstudio"));
    [|destruct (jsstring_eqb (model_provider chat) (js "openrouter"));
      [|reflexivity]].
  - destruct (lm_getSimpleResponse_run w history (model_name chat)
                (lmstudioAPI clients)) as (v & Ho & Ht & Hr & Hf).
    erewrite try_bind_ret by exact Ho. cbn [trace outcome final].
    unfold on_lmstudioAPI. rewrite requests_on_part, Hr.
    unfold on_part. cbn [final]. rewrite Hf.
    split; [eauto|]. split; [reflexivity|]. destruct clients; reflexivity.
  - destruct (or_getSimpleResponse_run w history (model_name chat)
                (openRouterAPI clients)) as (v & Ho & Ht & Hr & Hf).
    erewrite try_bind_ret by exact Ho. cbn [trace outcome final].
    unfold on_openRouterAPI. rewrite requests_on_part, Hr.
    unfold on_part. cbn [final]. rewrite Hf.
    split; [eauto|]. split; reflexivity.
Qed.


(** X15. What [getAIResponse] sends.  It sends at most one request, and
    none for a provider it does not know.  The request asks the chat's
    model for an answer that is not streamed, and its messages are the
    turns of the history held by the page, in order, followed by the new
    message as a user turn.  The client that was not asked is left as it
    was. *)
Theorem getAIResponse_requests (w : World) (history : list Message)
    (now message : jsstring) (chat : Chat) (clients : Clients) :
  (List.length
     (requests
        (trace (ChatPage.getAIResponse w history now message chat clients)))
   <= 1)%nat
  /\ (forall q,
        In q (requests
                (trace (ChatPage.getAIResponse w history now message chat
                          clients))) ->
        (model_provider chat = js "lmstudio"
         \/ model_provider chat = js "openrouter")
        /\ exists b,
             body q = Some b
             /\ model b = model_name chat
             /\ stream b = false
             /\ messages b
                = conversationHistory history
                  ++ [{| role_ := user; content := message |}])
  /\ (model_provider chat <> js "lmstudio" ->
      lmstudioAPI
        (final (ChatPage.getAIResponse w history now message chat clients))
      = lmstudioAPI clients)
  /\ (model_provider chat <> js "openrouter" ->
      openRouterAPI
        (final (ChatPage.getAIResponse w history now message chat clients))
      = openRouterAPI clients).
Proof.
  pose proof (getAIResponse_run w history now message chat clients) as H.
  cbv zeta in H.
  assert (Hbody : forall msgs,
            conversationHistory
              (msgs ++ [ChatPage.user_message chat message now])
            = conversationHistory msgs
              ++ [{| role_ := user; content := message |}]).
  { intros msgs. unfold conversationHistory. rewrite map_app. reflexivity. }
  destruct (jsstring_eqb (model_provider chat) (js "lmstudio")) eqn:El;
    [|destruct (jsstring_eqb (model_provider chat) (js "openrouter")) eqn:Eo].
  - destruct H as (_ & -> & ->). apply jsstring_eqb_eq in El.
    split; [apply le_n|]. split; [|split; [congruence|reflexivity]].
    intros q [<-|[]]. split; [left; exact El|].
    eexists. split; [reflexivity|]. cbn [chat_body model stream messages].
    split; [reflexivity|]. split; [reflexivity|]. apply Hbody.
  - destruct H as (_ & -> & ->). apply jsstring_eqb_eq in Eo.
    split; [|split; [|split; [reflexivity|congruence]]].
    + destruct (OpenRouterAPI.isConfigured _); cbn [List.length]; auto.
    + destruct (OpenRouterAPI.isConfigured _); [|intros q []].
      intros q [<-|[]].
      split; [right; exact Eo|].
      eexists. split; [reflexivity|]. cbn [chat_body model stream messages].
      split; [reflexivity|]. split; [reflexivity|]. apply Hbody.
  - rewrite H. cbn [trace final requests List.length].
    split; [auto|]. split; [intros q []|]. split; reflexivity.
Qed.

(* ================================================================== *)
(** ** Chunks are decoded one by one *)

(** X16. The loop keeps nothing from one chunk to the next: the fragments
    of a stream are those of its first chunks followed, unless the sentinel
    was among them, by those of the rest; and the sentinel is met when it is
    met in either part. *)
Theorem chunks_decoded_one_by_one (w : World) (cs rest : list jsstring) :
  decoded w (cs ++ rest)
  = decoded w cs ++ (if sentinel_seen w cs then [] else decoded w rest)
  /\ sentinel_seen w (cs ++ rest)
     = sentinel_seen w cs || sentinel_seen w rest.
Proof.
  pose proof (read_loop_app w unit cs rest Closed tt) as H.
  assert (Hd : decoded w (cs ++ rest)
               = fragments (trace (@read_loop w unit (cs ++ rest) Closed tt)))
    by reflexivity.
  assert (Hs : sentinel_seen w (cs ++ rest)
               = match outcome (@read_loop w unit (cs ++ rest) Closed tt) with
                 | Return => true
                 | _ => false
                 end) by reflexivity.
  rewrite Hd, Hs, H. clear Hd Hs H.
  destruct (sentinel_seen w cs); unfold after; cbn [trace outcome orb].
  - rewrite fragments_yielded, app_nil_r. split; reflexivity.
  - rewrite fragments_app, fragments_yielded. split; reflexivity.
Qed.

(* ================================================================== *)
(** ** Exchanges that fail *)

Lemma lm_fails_before_text (w : World) msgs model options this :
  fails_before_text options
    (fetch w (LMStudioAPI.chat_request this msgs model options)) ->
  LMStudioAPI.sendMessage w msgs model options this
  = mkRun [Requested (LMStudioAPI.chat_request this msgs model options);
           Yielded (JString LMStudioAPI.apology)] (Normal tt) this.
Proof.
  intros H. unfold LMStudioAPI.sendMessage. rewrite bind_get. unfold after.
  unfold try_catch, bind, fetch_. cbn [trace outcome final app].
  destruct (fetch w _) as [response|e]; [|reflexivity].
  cbn [trace outcome final app]. cbn [fails_before_text] in H.
  destruct H as [Hok|[Hjson Hbad]].
  - rewrite Hok. reflexivity.
  - destruct (ok response); [|reflexivity].
    cbn [negb ret trace outcome final app].
    assert (E : match default true (opt_stream options),
                      response_body response with
                | true, Some b => @stream_branch w LMStudioAPI.LMStudioAPI b
                | _, _ => json_branch response
                end = json_branch response).
    { destruct Hjson as [-> | ->]; [reflexivity|].
      destruct (default true (opt_stream options)); reflexivity. }
    rewrite E. unfold json_branch, bind, await.
    destruct Hbad as [[e ->]| ->]; reflexivity.
Qed.

Lemma or_fails_before_text (w : World) msgs model options this :
  OpenRouterAPI.isConfigured (final (OpenRouterAPI.loadApiKey w this)) = true ->
  fails_before_text options
    (fetch w (OpenRouterAPI.chat_request
                w (final (OpenRouterAPI.loadApiKey w this)) msgs model options)) ->
  OpenRouterAPI.sendMessage w msgs model options this
  = mkRun (trace (OpenRouterAPI.loadApiKey w this)
           ++ [Requested (OpenRouterAPI.chat_request
                            w (final (OpenRouterAPI.loadApiKey w this))
                            msgs model options);
               Yielded (JString OpenRouterAPI.apology)])
          (Normal tt) (final (OpenRouterAPI.loadApiKey w this)).
Proof.
  intros Hc H. unfold OpenRouterAPI.sendMessage.
  erewrite bind_normal by exact (proj1 (OpenRouterFacts.loadApiKey_run w this)).
  rewrite bind_get. unfold after. rewrite Hc. cbn [negb].
  unfold try_catch, bind, fetch_. cbn [trace outcome final app].
  destruct (fetch w _) as [response|e]; [|reflexivity].
  cbn [trace outcome final app]. cbn [fails_before_text] in H.
  destruct H as [Hok|[Hjson Hbad]].
  - rewrite Hok. cbn [negb]. unfold await. destruct (text response); reflexivity.
  - destruct (ok response);
      [|cbn [negb]; unfold await; destruct (text response); reflexivity].
    cbn [negb ret trace outcome final app].
    assert (E : match default true (opt_stream options),
                      response_body response with
                | true, Some b => @stream_branch w OpenRouterAPI.OpenRouterAPI b
                | _, _ => json_branch response
                end = json_branch response).
    { destruct Hjson as [-> | ->]; [reflexivity|].
      destruct (default true (opt_stream options)); reflexivity. }
    rewrite E. unfold json_branch, bind, await.
    destruct Hbad as [[e ->]| ->]; reflexivity.
Qed.

(** X17. An exchange that fails before any text is read ends in exactly
    one fragment, the client's apology, after exactly one request, and the
    generator ends normally: so it is when [fetch] rejects, when the status
    is not a success, and when the body that is read as JSON (streaming is
    off, or the response has no body stream) is not JSON or is [null]. *)
Theorem failed_exchange_is_one_apology
    (w : World) (msgs : list Message) (model : jsstring) (options : Options) :
  (forall this,
     fails_before_text options
       (fetch w (LMStudioAPI.chat_request this msgs model options)) ->
     let r := LMStudioAPI.sendMessage w msgs model options this in
     fragments (trace r) = [JString LMStudioAPI.apology]
     /\ requests (trace r) = [LMStudioAPI.chat_request this msgs model options]
     /\ outcome r = Normal tt)
  /\
  (forall this,
     OpenRouterAPI.isConfigured (final (OpenRouterAPI.loadApiKey w this)) = true ->
     fails_before_text options
       (fetch w (OpenRouterAPI.chat_request
                   w (final (OpenRouterAPI.loadApiKey w this))
                   msgs model options)) ->
     let r := OpenRouterAPI.sendMessage w msgs model options this in
     fragments (trace r) = [JString OpenRouterAPI.apology]
     /\ requests (trace r)
        = [OpenRouterAPI.chat_request
             w (final (OpenRouterAPI.loadApiKey w this)) msgs model options]
     /\ outcome r = Normal tt).
Proof.
  split; intros this.
  - intros H r. subst r. rewrite (lm_fails_before_text _ _ _ _ _ H).
    repeat split.
  - intros Hc H r. subst r. rewrite (or_fails_before_text _ _ _ _ _ Hc H).
    destruct (OpenRouterFacts.loadApiKey_run w this) as (_ & Hfr & Hrq).
    cbn [trace outcome]. rewrite fragments_app, requests_app, Hfr, Hrq.
    repeat split.
Qed.

(** X18. A response without a body stream is read as JSON even when
    streaming was asked for: with a success status and a body whose
    [choices[0].message.content] is the text [s], [sendMessage] yields the
    one fragment [s], whatever the options. *)
Theorem no_body_stream_reads_json
    (w : World) (response : Response) (data : value) (s : jsstring)
    (msgs : list Message) (model : jsstring) (options : Options) :
  ok response = true ->
  response_body response = None ->
  json response = Resolved data ->
  message_content data = Some (JString s) ->
  (forall this,
     fetch w (LMStudioAPI.chat_request this msgs model options)
       = Resolved response ->
     let r := LMStudioAPI.sendMessage w msgs model options this in
     fragments (trace r) = [JString s] /\ outcome r = Normal tt)
  /\
  (forall this,
     OpenRouterAPI.isConfigured (final (OpenRouterAPI.loadApiKey w this)) = true ->
     fetch w (OpenRouterAPI.chat_request
                w (final (OpenRouterAPI.loadApiKey w this)) msgs model options)
       = Resolved response ->
     let r := OpenRouterAPI.sendMessage w msgs model options this in
     fragments (trace r) = [JString s] /\ outcome r = Normal tt).
Proof.
  intros Hok Hbody Hjson Hcontent.
  assert (Hy : (if truthy (message_content data)
                then default (JString []) (message_content data)
                else JString []) = JString s).
  { rewrite Hcontent. destruct s; reflexivity. }
  assert (Hrun : forall S (this : S),
            match default true (opt_stream options), response_body response with
            | true, Some b => @stream_branch w S b
            | _, _ => json_branch response
            end this = mkRun [Yielded (JString s)] (Normal tt) this).
  { intros S this. rewrite Hbody.
    assert (E : @json_branch S response this
                = mkRun [Yielded (JString s)] (Normal tt) this).
    { unfold json_branch, bind. rewrite Hjson.
      destruct data; try discriminate Hcontent.
      cbn [await ret dot outcome final trace app yield].
      change (opt (prop (js "content"))
                (opt (prop (js "message"))
                   (opt index0 (prop (js "choices") (JObject members)))))
        with (message_content (JObject members)).
      rewrite Hy. reflexivity. }
    destruct (default true (opt_stream options)); exact E. }
  split; intros this.
  - intros Hf r. subst r. unfold LMStudioAPI.sendMessage.
    rewrite bind_get. unfold after, try_catch, bind, fetch_.
    cbn [trace outcome final app]. rewrite Hf. cbn [trace outcome final app].
    rewrite Hok. cbn [negb ret trace outcome final app]. rewrite Hrun.
    split; reflexivity.
  - intros Hc Hf r. subst r. unfold OpenRouterAPI.sendMessage.
    destruct (OpenRouterFacts.loadApiKey_run w this) as (Hl & Hfr & _).
    erewrite bind_normal by exact Hl.
    rewrite bind_get. unfold after. rewrite Hc. cbn [negb].
    unfold try_catch, bind, fetch_.
    cbn [trace outcome final app]. rewrite Hf. cbn [trace outcome final app].
    rewrite Hok. cbn [negb ret trace outcome final app]. rewrite Hrun.
    cbn [trace outcome final]. rewrite fragments_app, Hfr. split; reflexivity.
Qed.

(* ================================================================== *)
(** ** Writing the settings *)

Lemma btoa_narrow (key : jsstring) :
  Forall (fun c => c < 256) key ->
  Base64.btoa key = Some (Base64.b64_encode key).
Proof.
  intros H. unfold Base64.btoa.
  replace (forallb (fun c => c <? 256) key) with true; [reflexivity|].
  symmetry. apply forallb_forall. rewrite Forall_forall in H.
  intros c Hc. apply N.ltb_lt, H, Hc.
Qed.

(** X19. [updateUserSettings] and [resetUserSettings] never reject, and
    make at most one call to the database.  [updateUserSettings] makes no
    call and resolves with [false] when nobody is signed in and when the
    update holds a key with a code unit above 255; in every other case it
    makes exactly one call, [upsert_user_settings], whose first parameter is
    the id of the signed-in user, and resolves with [true] exactly when
    that call resolved without an error.  [resetUserSettings] makes no call
    when nobody is signed in, and otherwise the one [delete] for the
    signed-in user and nobody else; it resolves with [true] exactly when
    that call resolved without an error. *)
Theorem settings_writes_report_the_database
    (supabase : Settings.Supabase) (settings : Settings.PartialSettings)
    (sent : Settings.log) :
  (exists done,
     outcome (Settings.updateUserSettings supabase settings sent) = Normal done
     /\ ((forall user_id,
            Settings.auth_getUser supabase <> Resolved (Some user_id)) ->
         done = false
         /\ final (Settings.updateUserSettings supabase settings sent) = sent)
     /\ (forall key,
           Settings.set_openrouterApiKey settings = Some key ->
           Exists (fun c => 256 <= c) key ->
           done = false
           /\ final (Settings.updateUserSettings supabase settings sent) = sent)
     /\ (forall user_id,
           Settings.auth_getUser supabase = Resolved (Some user_id) ->
           (forall key,
              Settings.set_openrouterApiKey settings = Some key ->
              Forall (fun c => c < 256) key) ->
           exists params,
             hd_error params = Some (js "user_uuid", Settings.PString user_id)
             /\ final (Settings.updateUserSettings supabase settings sent)
                = sent ++ [Settings.Rpc (js "upsert_user_settings") params]
             /\ (done = true <->
                 exists result,
                   Settings.call supabase
                     (Settings.Rpc (js "upsert_user_settings") params)
                   = Resolved result
                   /\ Settings.error result = None)))
  /\
  (exists done,
     outcome (Settings.resetUserSettings supabase sent) = Normal done
     /\ final (Settings.resetUserSettings supabase sent)
        = match Settings.auth_getUser supabase with
          | Resolved (Some user_id) => sent ++ [Settings.Delete user_id]
          | _ => sent
          end
     /\ (done = true <->
         exists user_id result,
           Settings.auth_getUser supabase = Resolved (Some user_id)
           /\ Settings.call supabase (Settings.Delete user_id) = Resolved result
           /\ Settings.error result = None)).
Proof.
  split.
  - assert (Hcu : Settings.current_user supabase sent
                  = match Settings.auth_getUser supabase with
                    | Resolved (Some user_id) => mkRun [] (Normal user_id) sent
                    | Resolved None =>
                        mkRun [] (Throw (JsError (js "User not authenticated")))
                              sent
                    | Rejected e => mkRun [] (Throw e) sent
                    end).
    { unfold Settings.current_user, bind, await.
      destruct (Settings.auth_getUser supabase) as [[user_id|]|e]; reflexivity. }
    unfold Settings.updateUserSettings.
    destruct (Settings.auth_getUser supabase) as [[user_id|]|e] eqn:Hu.
    2,3: unfold try_catch; erewrite bind_throw by exact Hcu;
         cbn [ret trace outcome final app]; exists false;
         (split; [reflexivity|]); (split; [intros _; split; reflexivity|]);
         (split; [intros key _ _; split; reflexivity|]);
         intros u E; discriminate E.
    unfold try_catch. erewrite bind_normal by exact Hcu.
    set (key := match Settings.set_openrouterApiKey settings with
                | Some k => encrypted <- Settings.encryptApiKey k ;;
                            ret (Some encrypted)
                | None => ret None
                end).
    assert (Hkey : (exists k, key sent = mkRun [] (Normal k) sent
                              /\ forall k0,
                                   Settings.set_openrouterApiKey settings
                                   = Some k0 ->
                                   ~ Exists (fun c => 256 <= c) k0)
                   \/ (exists e, key sent = mkRun [] (Throw e) sent
                                 /\ exists k0,
                                      Settings.set_openrouterApiKey settings
                                      = Some k0
                                      /\ ~ Forall (fun c => c < 256) k0)).
    { unfold key.
      destruct (Settings.set_openrouterApiKey settings) as [k0|];
        [|left; eexists; split; [reflexivity|discriminate]].
      unfold bind, Settings.encryptApiKey.
      destruct k0 as [|c k0].
      - left. eexists. split; [reflexivity|].
        intros k1 E Hex. injection E as <-. inversion Hex.
      - destruct (Base64.btoa (c :: k0)) eqn:Hb.
        + left. eexists. split; [reflexivity|].
          intros k1 E Hex. injection E as <-.
          rewrite (btoa_wide _ Hex) in Hb. discriminate Hb.
        + right. eexists. split; [reflexivity|].
          exists (c :: k0). split; [reflexivity|].
          intros HF. rewrite (btoa_narrow _ HF) in Hb. discriminate Hb. }
    destruct Hkey as [[k [Hk Hnarrow]]|[e [Hk (k0 & Hset & Hwide)]]].
    2:{ erewrite bind_throw by exact Hk.
        unfold after. cbn [ret trace outcome final app].
        exists false. split; [reflexivity|].
        split; [intros H; destruct (H user_id); reflexivity|].
        split; [intros k1 _ _; split; reflexivity|].
        intros u _ HF. destruct Hwide. apply HF. exact Hset. }
    erewrite bind_normal by exact Hk.
    unfold after, bind, Settings.call_. cbn [trace outcome final app].
    match goal with
    | |- context [Settings.call supabase (Settings.Rpc _ ?p)] =>
        set (params := p)
    end.
    assert (Hhd : forall u, Resolved (Some user_id) = Resolved (Some u) ->
                    hd_error params
                    = Some (js "user_uuid", Settings.PString u)).
    { intros u E. injection E as <-. reflexivity. }
    clearbody params.
    destruct (Settings.call supabase _) as [[d [err|]]|e] eqn:Hc;
      cbn [ret throw trace outcome final app Settings.error].
    + exists false. split; [reflexivity|].
      split; [intros H; destruct (H user_id); reflexivity|].
      split; [intros k1 Hs Hex; destruct (Hnarrow k1 Hs Hex)|].
      intros u E _. exists params. split; [apply Hhd, E|].
      split; [reflexivity|]. split; [discriminate|].
      intros (r & Hr & He). rewrite Hc in Hr. injection Hr as <-.
      discriminate He.
    + exists true. split; [reflexivity|].
      split; [intros H; destruct (H user_id); reflexivity|].
      split; [intros k1 Hs Hex; destruct (Hnarrow k1 Hs Hex)|].
      intros u E _. exists params. split; [apply Hhd, E|].
      split; [reflexivity|]. split; [|reflexivity].
      intros _. eexists. split; [exact Hc|reflexivity].
    + exists false. split; [reflexivity|].
      split; [intros H; destruct (H user_id); reflexivity|].
      split; [intros k1 Hs Hex; destruct (Hnarrow k1 Hs Hex)|].
      intros u E _. exists params. split; [apply Hhd, E|].
      split; [reflexivity|]. split; [discriminate|].
      intros (r & Hr & _). rewrite Hc in Hr. discriminate Hr.
  - unfold Settings.resetUserSettings, Settings.current_user, Settings.call_.
    unfold try_catch, bind, await.
    destruct (Settings.auth_getUser supabase) as [[user_id|]|e] eqn:Hu;
      cbn [ret throw trace outcome final app].
    2,3: exists false; split; [reflexivity|]; split; [reflexivity|]; split;
         [discriminate|intros (u & r & E & _); discriminate E].
    destruct (Settings.call supabase _) as [[d [err|]]|e] eqn:Hc;
      cbn [ret throw trace outcome final app Settings.error].
    + exists false. split; [reflexivity|]. split; [reflexivity|].
      split; [discriminate|]. intros (u & r & E & Hc' & He).
      injection E as <-. rewrite Hc in Hc'. injection Hc' as <-.
      discriminate He.
    + exists true. split; [reflexivity|]. split; [reflexivity|].
      split; [|reflexivity]. intros _. exists user_id. eexists.
      split; [reflexivity|]. split; [exact Hc|reflexivity].
    + exists false. split; [reflexivity|]. split; [reflexivity|].
      split; [discriminate|]. intros (u & r & E & Hc' & _).
      injection E as <-. rewrite Hc in Hc'. discriminate Hc'.
Qed.

(* ================================================================== *)
(** ** The theorems above, at concrete inputs *)

Lemma nothing_after_sentinel_witness :
  let response :=
    ok_stream (farewell ++ afterwards) (Errored (Failure (js "network error"))) in
  let w := mock_world response (Resolved []) in
  fragments (trace (LMStudioAPI.sendMessage w hello (js "test-model")
                      no_options local_client))
  = [JString (js "Hi"); JString (js " there")]
  /\ fragments (trace (OpenRouterAPI.sendMessage w hello (js "test-model")
                         no_options cloud_client))
     = [JString (js "Hi"); JString (js " there")].
Proof.
  intros response w.
  assert (Hseen : sentinel_seen w farewell = true) by (vm_compute; reflexivity).
  assert (Hdec : decoded w farewell = [JString (js "Hi"); JString (js " there")])
    by (vm_compute; reflexivity).
  assert (Hs : opt_stream no_options <> Some false) by discriminate.
  assert (Hr : streams response (farewell ++ afterwards)
                 (Errored (Failure (js "network error"))))
    by (split; reflexivity).
  destruct (nothing_after_sentinel w farewell afterwards
              (Errored (Failure (js "network error"))) response hello
              (js "test-model") no_options Hs Hr Hseen) as [HL HO].
  rewrite <- Hdec. split.
  - exact (proj1 (HL local_client eq_refl)).
  - exact (proj1 (HO cloud_client eq_refl eq_refl)).
Defined.

Lemma key_loaded_once_witness :
  let w := mock_world full_answer (Resolved (js "sk-or-first")) in
  let later := mock_world full_answer (Resolved (js "sk-or-second")) in
  let first := OpenRouterAPI.sendMessage w hello (js "test-model") no_options
                 keyless_client in
  let second := OpenRouterAPI.sendMessage later hello (js "test-model")
                  not_streaming (final first) in
  map (header (js "Authorization")) (requests (trace second))
  = [Some (js "Bearer sk-or-first")]
  /\ final second = final first.
Proof.
  intros w later first second.
  assert (Hne : js "sk-or-first" <> []) by discriminate.
  destruct (key_loaded_once w later keyless_client (js "sk-or-first")
              hello hello (js "test-model") (js "test-model")
              no_options not_streaming eq_refl eq_refl Hne)
    as (_ & _ & _ & H2 & Hf).
  split; [exact H2|exact Hf].
Defined.

Lemma api_key_round_trip_witness :
  exists encrypted,
    Settings.encryptApiKey (js "sk-or-v1-0a1b2c") tt
    = mkRun [] (Normal encrypted) tt
    /\ Settings.decryptApiKey encrypted = js "sk-or-v1-0a1b2c".
Proof.
  apply (@api_key_round_trip unit (js "sk-or-v1-0a1b2c") tt).
  repeat (apply Forall_cons; [reflexivity|]). apply Forall_nil.
Defined.

Lemma update_with_wide_key_is_dropped_witness :
  Settings.updateUserSettings
    (mock_database (Some (js "u1")) []) (only_key (js "sk-" ++ [8364])) []
  = mkRun [] (Normal false) [].
Proof.
  apply (update_with_wide_key_is_dropped
           (mock_database (Some (js "u1")) []) (only_key (js "sk-" ++ [8364]))
           (js "sk-" ++ [8364]) []).
  - reflexivity.
  - apply Exists_exists. exists 8364. split; [|discriminate].
    do 3 right. left. reflexivity.
Defined.

Lemma saved_key_reaches_provider_witness :
  exists encrypted params,
    final (Settings.updateUserSettings (mock_database (Some (js "u1")) [])
             (only_key (js "sk-or-test")) [])
    = [] ++ [Settings.Rpc (js "upsert_user_settings") params]
    /\ In (js "p_openrouter_api_key", Settings.PString encrypted) params
    /\ forall (database : Settings.Supabase)
              (row : Settings.DatabaseSettings)
              (rows : list Settings.DatabaseSettings)
              (w : World) (this : OpenRouterAPI.OpenRouterAPI)
              (msgs : list Message) (model : jsstring) (options : Options),
         Settings.auth_getUser database = Resolved (Some (js "u1")) ->
         Settings.call database
           (Settings.Rpc (js "get_user_settings")
              [(js "user_uuid", Settings.PString (js "u1"))])
         = Resolved {| Settings.data := Some (row :: rows);
                       Settings.error := None |} ->
         Settings.openrouter_api_key row = encrypted ->
         OpenRouterAPI.isConfigured this = false ->
         map (header (js "Authorization"))
             (requests
                (trace (OpenRouterAPI.sendMessage
                          (with_settings w (Settings.stored_key database))
                          msgs model options this)))
         = [Some (js "Bearer " ++ js "sk-or-test")]
         /\ OpenRouterAPI.apiKey
              (final (OpenRouterAPI.sendMessage
                        (with_settings w (Settings.stored_key database))
                        msgs model options this))
            = js "sk-or-test".
Proof.
  apply (saved_key_reaches_provider
           (mock_database (Some (js "u1")) []) (only_key (js "sk-or-test"))
           (js "sk-or-test") (js "u1") []).
  - reflexivity.
  - repeat (apply Forall_cons; [reflexivity|]). apply Forall_nil.
  - discriminate.
  - reflexivity.
Defined.

Lemma signed_out_has_no_key_witness :
  let w := with_settings (mock_world full_answer (Resolved (js "sk-or-unused")))
             (Settings.stored_key
                (mock_database None [saved_row (js "c2stb3ItdGVzdA==")])) in
  fragments (trace (OpenRouterAPI.sendMessage w hello (js "test-model")
                      no_options keyless_client))
  = [JString OpenRouterAPI.unconfigured]
  /\ requests (trace (OpenRouterAPI.sendMessage w hello (js "test-model")
                        no_options keyless_client)) = [].
Proof.
  intros w.
  assert (Hu : forall user_id,
            Settings.auth_getUser
              (mock_database None [saved_row (js "c2stb3ItdGVzdA==")])
            <> Resolved (Some user_id)) by discriminate.
  exact (proj1 (signed_out_has_no_key
                  (mock_database None [saved_row (js "c2stb3ItdGVzdA==")])
                  (mock_world full_answer (Resolved (js "sk-or-unused")))
                  keyless_client hello (js "test-model") no_options
                  Hu eq_refl)).
Defined.

Lemma no_body_stream_reads_json_witness :
  let w := mock_world bodiless (Resolved []) in
  fragments (trace (LMStudioAPI.sendMessage w hello (js "test-model")
                      no_options local_client))
    = [JString (js "Hi there")]
  /\ fragments (trace (OpenRouterAPI.sendMessage w hello (js "test-model")
                         no_options cloud_client))
    = [JString (js "Hi there")].
Proof.
  intros w.
  assert (Hcontent : message_content bodiless_data
                     = Some (JString (js "Hi there")))
    by (vm_compute; reflexivity).
  destruct (no_body_stream_reads_json w bodiless bodiless_data (js "Hi there")
              hello (js "test-model") no_options eq_refl eq_refl eq_refl
              Hcontent)
    as [HL HO].
  split.
  - exact (proj1 (HL local_client eq_refl)).
  - exact (proj1 (HO cloud_client eq_refl eq_refl)).
Defined.
